(** * koishi-plugin-twitter-fetcher: content resolution and subscription polling

    A shallow embedding of the plugin's two orchestration entry points,
    [processTweet] (one tweet link to one outgoing message) and
    [checkAndPushUpdates] (one pass over the configured subscriptions), together
    with the discovery routine [getLatestTweetUrlByPuppeteer], the translation
    helper [translateText] and the middleware that answers a link typed in a
    chat.

    The repository holds three generations of the plugin.  The embedding
    follows the latest one (translation, exclusion of reposts, pause between
    subscriptions).  [src/index.ts] is the generation before it: the same
    [processTweet] without translation and the same [checkAndPushUpdates]
    without the pause; the two routines in which it differs in substance are
    in [Legacy], and its [processTweet] as a whole is in [IndexTs].  The first
    generation, a middleware without subscriptions, is in [Gen1].  The link
    pattern is in [TWEET_URL_REGEX]; the handlers that talk to a chat session
    (the middleware and the command that tests one user) are in [Chat].

    The network, the headless browser and the chat bot are outside the
    repository.  They are modelled as a record of collaborators acting on an
    abstract world [W]; every call returns an [Outcome] (a value or a thrown
    error message) and the next world, so a collaborator may answer differently
    each time it is asked.  The [twitter_subscriptions] table is a finite map
    from user name to last tweet URL and is taken to be reliable.  The
    diagnostic stepper ([createLogStepper]) only writes to the logger when
    [logDetails] is set; it is modelled on its own in [Stepper] and left out
    of the routines.  The unconditional [logger.info]/[logger.warn] lines are
    kept as events of the trace. *)

From Stdlib Require Import String Ascii List Bool Arith Lia.
From stdpp Require Import base option list strings gmap pretty.

Local Open Scope string_scope.
Local Open Scope list_scope.

(** ** JavaScript strings *)

Module Js.

(** The line feed written in the template literals of the source. *)
Definition LF : string := String (ascii_of_nat 10) EmptyString.

(** [Boolean(s)] for a string: the empty string is falsy. *)
Definition truthy (s : string) : bool :=
  match s with
  | EmptyString => false
  | String _ _ => true
  end.

(** Strings are sequences of bytes, the UTF-8 form of the JavaScript string.
    A lone surrogate, which UTF-8 proper does not encode, is written as the
    three bytes of its code point: the byte [ED] followed by a byte from [A0]
    to [BF]. *)
Definition surrogate (c d : ascii) : bool :=
  Nat.eqb (nat_of_ascii c) 237
  && Nat.leb 160 (nat_of_ascii d) && Nat.leb (nat_of_ascii d) 191.

(** [s.isWellFormed()]: there is no lone surrogate in [s]. *)
Fixpoint isWellFormed (s : string) : bool :=
  match s with
  | String c (String d _ as rest) => negb (surrogate c d) && isWellFormed rest
  | _ => true
  end.

(** The message of the [URIError] that [encodeURIComponent(s)] throws when [s]
    is not well formed. *)
Definition URIError : string := "URI malformed".

(** [Boolean(x)] for a possibly [undefined] string. *)
Definition truthy_opt (x : option string) : bool :=
  match x with
  | Some s => truthy s
  | None => false
  end.

(** [Boolean(x)] for a possibly [undefined] boolean. *)
Definition truthy_flag (x : option bool) : bool :=
  match x with
  | Some b => b
  | None => false
  end.

(** [s.includes(needle)]. *)
Fixpoint includes (s needle : string) : bool :=
  String.prefix needle s ||
  match s with
  | EmptyString => false
  | String _ rest => includes rest needle
  end.

(** [parts.join(sep)]. *)
Definition join (sep : string) (parts : list string) : string :=
  String.concat sep parts.

(** [s.slice(n)]. *)
Fixpoint slice (n : nat) (s : string) : string :=
  match n, s with
  | O, _ => s
  | S _, EmptyString => EmptyString
  | S k, String _ rest => slice k rest
  end.

(** [s.replace(/(twitter\.com|x\.com)/, target)]: the leftmost match of the
    alternation is replaced, the first alternative being tried first at each
    position; without a match the string is returned as it is. *)
Fixpoint replace_host (target s : string) : string :=
  if String.prefix "twitter.com" s then target +:+ slice 11 s
  else if String.prefix "x.com" s then target +:+ slice 5 s
  else match s with
       | EmptyString => EmptyString
       | String ch rest => String ch (replace_host target rest)
       end.

End Js.

(** ** Data *)

(** A Node.js [Buffer]. *)
Definition Buffer : Type := list Byte.byte.

(** The Koishi elements the plugin builds: [h.image(data, mime)] and
    [h.video(data, mime)]. *)
Inductive h : Type :=
| h_image (data : Buffer) (mime : string)
| h_video (data : Buffer) (mime : string).

(** A child of the [<figure>] element, or a part of the joined message: a
    string or an element. *)
Inductive Fragment : Type :=
| FText (s : string)
| FElem (e : h).

(** What [processTweet] returns: a string, or [h('figure', {}, children)]. *)
Inductive Reply : Type :=
| RString (s : string)
| RFigure (children : list Fragment).

(** One entry of [media_extended] in the vxtwitter response. *)
Record Media : Type := { url : string; type : string }.

(** The result of [http.file]. *)
Record File : Type := { data : Buffer; mime : string }.

(** The fields of the vxtwitter response the plugin reads; each may be
    missing. *)
Record ApiResponse : Type := {
  user_screen_name : option string;
  text : option string;
  media_extended : option (list Media)
}.

(** An anchor that has an [href] attribute: the attribute as the page writes
    it, which is what a selector tests, and the [href] property, the address
    the browser resolves the attribute to, which is never the empty string. *)
Record Anchor : Type := {
  href_attribute : string;
  href : string;
  href_resolved : Js.truthy href = true
}.

(** An [article[data-testid="tweet"]] of a profile page: the text content of
    its [socialContext] element when it has one, and its anchors that have an
    [href] attribute, in document order. *)
Record Article : Type := {
  socialContext : option string;
  anchors : list Anchor
}.

(** The options object of [processTweet]; the fields declared with [?] are
    optional. *)
Record Options : Type := {
  showLink : option bool;
  showScreenshot : bool;
  sendText : bool;
  sendMedia : bool;
  useForward : bool;
  platform : option string;
  enableTranslation : option bool;
  targetLang : option string
}.

(** One row of the subscription table of the configuration. *)
Record Subscription : Type := {
  username : string;
  groupIds : list string;
  excludeRetweets : option bool
}.

(** The [enableSubscription: true] variant of [SubscriptionConfig]. *)
Record SubscriptionSettings : Type := {
  sub_platform : string;
  selfId : string;
  updateInterval : nat;
  subscriptions : list Subscription
}.

(** [Config]: [BaseConfig] and the subscription union, [None] standing for
    [enableSubscription: false].  The four settings of a manual parse that
    share their name with a field of [Options] carry the prefix [cfg_], and
    the [platform] of the subscription settings is [sub_platform]. *)
Record Config : Type := {
  cfg_showScreenshot : bool;
  cfg_sendText : bool;
  cfg_sendMedia : bool;
  cookie : string;
  cfg_useForward : bool;
  sub_showLink : bool;
  sub_showScreenshot : bool;
  sub_sendText : bool;
  sub_sendMedia : bool;
  sub_useForward : bool;
  parse_enableTranslation : bool;
  parse_targetLang : string;
  sub_enableTranslation : bool;
  sub_targetLang : string;
  logDetails : bool;
  enableSubscription : option SubscriptionSettings
}.

(** An entry of [ctx.bots]. *)
Record Bot : Type := { online : bool; bot_platform : string }.

(** ** Effects *)

(** The result of an awaited call: a value, or a thrown [Error] of which the
    source only reads [error.message]. *)
Inductive Outcome (A : Type) : Type :=
| Ok (a : A)
| Throw (message : string).
Arguments Ok {A} a.
Arguments Throw {A} message.

(** The unconditional logger lines. *)
Inductive LogLine : Type :=
| WarnTranslate (message : string)
| WarnNoTweet (user : string)
| WarnApi (message : string)
| WarnBotOffline (botKey : string)
| InfoNewTweet (user : string)
| WarnCheck (user message : string).

(** What the plugin does to the outside, in the order it does it. *)
Inductive Event : Type :=
| CallScreenshot (tweetUrl : string)
| CallApi (apiUrl : string)
| CallFile (mediaUrl : string)
| CallTranslate (targetLang text : string)
| CallPage (user : string)
| CallSend (groupId : string) (message : Reply)
| CallSleep (ms : nat)
| Logged (line : LogLine).

Section Engine.

(** The state of everything outside the process. *)
Context {W : Type}.

(** The collaborators.  [puppeteer_screenshot] stands for the page
    navigation and element screenshot of [getTweetScreenshot] (its result is
    tested for truthiness by the caller, hence the option),
    [puppeteer_articles] for the navigation to the profile page, the wait
    for a first tweet (which throws when none shows up in time) and the
    [querySelectorAll] of the tweets, [http_get] for the vxtwitter request,
    [translate_get] for the request to the translation endpoint reduced to
    the first components of [response[0]] ([None] when [response] or
    [response[0]] is falsy), [bots] for the lookup in [ctx.bots] and
    [h_toString] for the string conversion of an element that
    [Array.prototype.join] performs. *)
Record Collab : Type := {
  puppeteer_screenshot : string -> string -> W -> Outcome (option Buffer) * W;
  puppeteer_articles : string -> string -> W -> Outcome (list Article) * W;
  http_get : string -> W -> Outcome ApiResponse * W;
  http_file : string -> W -> Outcome File * W;
  translate_get : string -> string -> W -> Outcome (option (list string)) * W;
  sendMessage : string -> Reply -> W -> Outcome unit * W;
  bots : string -> W -> option Bot;
  h_toString : h -> string
}.

(** The world, the [twitter_subscriptions] table ([id] to [last_tweet_url])
    and the events so far. *)
Record St : Type := {
  world : W;
  db : gmap string string;
  trace : list Event
}.

(** An asynchronous computation over a state [S]: it can throw, and what it
    did before throwing stays done. *)
Definition M (S A : Type) : Type := S -> Outcome A * S.

Definition ret {S A} (a : A) : M S A := fun s => (Ok a, s).

(** [throw new Error(message)]. *)
Definition throw {S A} (message : string) : M S A := fun s => (Throw message, s).

Definition bind {S A B} (m : M S A) (k : A -> M S B) : M S B :=
  fun s =>
    match m s with
    | (Ok a, s') => k a s'
    | (Throw e, s') => (Throw e, s')
    end.

(** [try { m } catch (error) { handler(error.message) }]. *)
Definition try_catch {S A} (m : M S A) (handler : string -> M S A) : M S A :=
  fun s =>
    match m s with
    | (Ok a, s') => (Ok a, s')
    | (Throw e, s') => handler e s'
    end.

(** [for (const x of xs) { body(x) }]. *)
Fixpoint for_of {S A} (xs : list A) (body : A -> M S unit) : M S unit :=
  match xs with
  | [] => ret tt
  | x :: rest => bind (body x) (fun _ => for_of rest body)
  end.

(** The state after one more event. *)
Definition record (e : Event) (s : St) : St :=
  {| world := world s; db := db s; trace := trace s ++ [e] |}.

(** The state with the world replaced. *)
Definition at_world (w : W) (s : St) : St :=
  {| world := w; db := db s; trace := trace s |}.

(** The state after [id] has been given the link [last_tweet_url]. *)
Definition stored (id last_tweet_url : string) (s : St) : St :=
  {| world := world s; db := <[id := last_tweet_url]> (db s); trace := trace s |}.

Definition emit (e : Event) : M St unit :=
  fun s => (Ok tt, record e s).

(** A call of a collaborator: the event is recorded, the world moves on. *)
Definition call {A} (e : Event) (f : W -> Outcome A * W) : M St A :=
  fun s =>
    let (r, w) := f (world s) in
    (r, record e (at_world w s)).

(** [ctx.database.get('twitter_subscriptions', { id })] followed by
    [record[0]?.last_tweet_url]. *)
Definition database_get (id : string) : M St (option string) :=
  fun s => (Ok (db s !! id), s).

(** [ctx.database.upsert('twitter_subscriptions', [{ id, last_tweet_url }])]. *)
Definition database_upsert (id last_tweet_url : string) : M St unit :=
  fun s => (Ok tt, stored id last_tweet_url s).

End Engine.

Arguments Collab W : clear implicits.
Arguments St W : clear implicits.

Declare Scope async_scope.
Delimit Scope async_scope with async.
Notation "'let*' x ':=' m 'in' k" := (bind m (fun x => k))
  (at level 10, x name, m at level 100, k at level 200) : async_scope.
Notation "m ';;' k" := (bind m (fun _ => k))
  (at level 100, k at level 200, right associativity) : async_scope.
Notation "'try' m 'catch' x '=>' handler" := (try_catch m (fun x => handler))
  (at level 10, x name, m at level 200, handler at level 200) : async_scope.
Local Open Scope async_scope.

(** ** The plugin *)

(** [Time.second], in milliseconds. *)
Definition Time_second : nat := 1000.

(** [x ? x : null] for a string that may be absent: what survives a
    truthiness test. *)
Definition nonempty (x : option string) : option string :=
  match x with
  | Some s => if Js.truthy s then Some s else None
  | None => None
  end.

(** [article.querySelector('a[href*="/status/"]')], read through [.href]: the
    first anchor whose attribute holds [/status/], and the address that anchor
    resolves to. *)
Definition status_link (article : Article) : option string :=
  option_map href
    (List.find (fun a => Js.includes (href_attribute a) "/status/") (anchors article)).

(** The text of the [socialContext] element marks a pinned tweet. *)
Definition is_pinned (contextText : string) : bool :=
  Js.includes contextText "Pinned".

(** The text of the [socialContext] element marks a repost. *)
Definition is_repost (contextText : string) : bool :=
  Js.includes contextText "Retweeted" || Js.includes contextText "reposted"
  || Js.includes contextText "转推".

(** The function given to [page.evaluate] in [getLatestTweetUrlByPuppeteer]:
    the loop over the articles of the page. *)
Fixpoint evaluate (excludeRetweets : bool) (articles : list Article) : option string :=
  match articles with
  | [] => None
  | article :: rest =>
      let skipped :=
        match socialContext article with
        | Some contextText =>
            is_pinned contextText || (excludeRetweets && is_repost contextText)
        | None => false
        end in
      if skipped then evaluate excludeRetweets rest
      else match status_link article with
           | Some href => Some href
           | None => evaluate excludeRetweets rest
           end
  end.

(** [Boolean] of a member of [[textParts.join('\n'), ...mediaParts]]: only the
    empty string is dropped by [filter(Boolean)]. *)
Definition fragment_truthy (f : Fragment) : bool :=
  match f with
  | FText s => Js.truthy s
  | FElem _ => true
  end.

(** The element built from a downloaded file, by [media.type]. *)
Definition media_element (media : Media) (file : File) : option h :=
  if bool_decide (type media = "image") then Some (h_image (data file) (mime file))
  else if bool_decide (type media = "video") || bool_decide (type media = "gif")
       then Some (h_video (data file) (mime file))
       else None.

(** The same two routines as [src/index.ts] has them: the loop over the
    articles knows no reposts, and an animated picture is downloaded but not
    sent. *)
Module Legacy.

(** [article.querySelector('[data-testid="socialContext"]')?.textContent
    .includes('Pinned')]. *)
Definition pinned (article : Article) : bool :=
  match socialContext article with
  | Some contextText => Js.includes contextText "Pinned"
  | None => false
  end.

Fixpoint evaluate (articles : list Article) : option string :=
  match articles with
  | [] => None
  | article :: rest =>
      if pinned article then evaluate rest
      else match status_link article with
           | Some href => Some href
           | None => evaluate rest
           end
  end.

Definition media_element (media : Media) (file : File) : option h :=
  if bool_decide (type media = "image") then Some (h_image (data file) (mime file))
  else if bool_decide (type media = "video") then Some (h_video (data file) (mime file))
       else None.

End Legacy.

Section Plugin.

Context {W : Type}.

(** [ctx] and [config], the arguments of [apply]. *)
Variable ctx : Collab W.
Variable config : Config.

(** [translateText]: [null] for an empty text, for a falsy response and for a
    failed request.  The address of the request is built before the [try],
    with [encodeURIComponent(text)], which throws on a text that is not well
    formed. *)
Definition translateText (text targetLang : string) : M (St W) (option string) :=
  if negb (Js.truthy text) then ret None
  else if negb (Js.isWellFormed text) then throw Js.URIError
  else
    try
      (let* response :=
         call (CallTranslate targetLang text) (translate_get ctx targetLang text) in
       match response with
       | Some items => ret (Some (Js.join "" items))
       | None => ret None
       end)
    catch error => (emit (Logged (WarnTranslate error));; ret None).

(** [getTweetScreenshot]: one visit of the tweet page. *)
Definition getTweetScreenshot (url cookie : string) : M (St W) (option Buffer) :=
  call (CallScreenshot url) (puppeteer_screenshot ctx url cookie).

(** [getLatestTweetUrlByPuppeteer]: one visit of the profile page, then the
    loop over its articles; a falsy result is logged and becomes [null]. *)
Definition getLatestTweetUrlByPuppeteer (username cookie : string)
    (excludeRetweets : bool) : M (St W) (option string) :=
  let* articles := call (CallPage username) (puppeteer_articles ctx username cookie) in
  match nonempty (evaluate excludeRetweets articles) with
  | Some latestTweetUrl => ret (Some latestTweetUrl)
  | None => emit (Logged (WarnNoTweet username));; ret None
  end.

(** [processTweet], first statement: the link put at the head of the text. *)
Definition seedLink (tweetUrl : string) (options : Options) : list string :=
  if Js.truthy_flag (showLink options) then [tweetUrl] else [].

(** [processTweet], the screenshot block: a failed capture is swallowed. *)
Definition captureScreenshot (tweetUrl : string) (options : Options) : M (St W) (option h) :=
  if showScreenshot options then
    try
      (let* screenshotBuffer := getTweetScreenshot tweetUrl (cookie config) in
       match screenshotBuffer with
       | Some buffer => ret (Some (h_image buffer "image/png"))
       | None => ret None
       end)
    catch error => ret None
  else ret None.

(** [processTweet], the text built from the response: the identity line, the
    body and its translation. *)
Definition metadataText (options : Options) (apiResponse : ApiResponse)
    (textParts : list string) : M (St W) (list string) :=
  let textParts :=
    match nonempty (user_screen_name apiResponse) with
    | Some name => textParts ++ ["用户ID: " +:+ name]
    | None => textParts
    end in
  let originalTweetText := default "" (nonempty (text apiResponse)) in
  if sendText options && Js.truthy originalTweetText then
    let textParts := textParts ++ ["推文内容: " +:+ originalTweetText] in
    match Js.truthy_flag (enableTranslation options), nonempty (targetLang options) with
    | true, Some lang =>
        let* translatedText := translateText originalTweetText lang in
        match nonempty translatedText with
        | Some translated =>
            ret (textParts ++
                 [Js.LF +:+ "【谷歌翻译 (" +:+ lang +:+ ")】:" +:+ Js.LF +:+ translated])
        | None => ret textParts
        end
    | _, _ => ret textParts
    end
  else ret textParts.

(** [processTweet], the loop over [media_extended]: each file is requested in
    its own [try]. *)
Fixpoint downloadMedia (medias : list Media) (mediaParts : list h) : M (St W) (list h) :=
  match medias with
  | [] => ret mediaParts
  | media :: rest =>
      let* mediaParts :=
        try
          (let* file := call (CallFile (url media)) (http_file ctx (url media)) in
           match media_element media file with
           | Some element => ret (mediaParts ++ [element])
           | None => ret mediaParts
           end)
        catch error => ret mediaParts in
      downloadMedia rest mediaParts
  end.

(** The string conversion of a member of [finalParts]. *)
Definition fragment_toString (f : Fragment) : string :=
  match f with
  | FText s => s
  | FElem e => h_toString ctx e
  end.

(** [processTweet], the end of the [try] block: nothing at all, a figure, or
    the parts joined by an empty line. *)
Definition compose (options : Options) (textParts : list string) (mediaParts : list h) : Reply :=
  let hasText := Nat.ltb 0 (length textParts) in
  let hasMedia := Nat.ltb 0 (length mediaParts) in
  if negb hasText && negb hasMedia then RString "未能获取到任何内容."
  else
    let parts :=
      List.filter fragment_truthy (FText (Js.join Js.LF textParts) :: map FElem mediaParts) in
    if useForward options && bool_decide (platform options = Some "onebot")
    then RFigure parts
    else RString (Js.join (Js.LF +:+ Js.LF) (map fragment_toString parts)).

(** [processTweet], the [try] block up to the composition: the response is
    requested, then the text and the media are collected. *)
Definition collect (tweetUrl : string) (options : Options) (textParts : list string)
    (screenshotElement : option h) : M (St W) (list string * list h) :=
  let apiUrl := Js.replace_host "api.vxtwitter.com" tweetUrl in
  let* apiResponse := call (CallApi apiUrl) (http_get ctx apiUrl) in
  let* textParts := metadataText options apiResponse textParts in
  let mediaParts := match screenshotElement with Some e => [e] | None => [] end in
  let* mediaParts :=
    match media_extended apiResponse with
    | Some medias => if sendMedia options then downloadMedia medias mediaParts
                     else ret mediaParts
    | None => ret mediaParts
    end in
  ret (textParts, mediaParts).

(** The notice returned by the [catch] of [processTweet]. *)
Definition failureNotice (message : string) : Reply :=
  RString ("获取推文内容失败: " +:+ message).

(** [processTweet]. *)
Definition processTweet (tweetUrl : string) (options : Options) : M (St W) Reply :=
  let textParts := seedLink tweetUrl options in
  let* screenshotElement := captureScreenshot tweetUrl options in
  try
    (let* parts := collect tweetUrl options textParts screenshotElement in
     ret (compose options (fst parts) (snd parts)))
  catch error => (emit (Logged (WarnApi error));; ret (failureNotice error)).

End Plugin.

(** The frame of one call of [checkAndPushUpdates]: the shared state and the
    local counter [updatesFound], which keeps its value when a later statement
    of the same iteration throws. *)
Record PollFrame (W : Type) : Type := {
  heap : St W;
  updatesFound : nat
}.
Arguments heap {W} p.
Arguments updatesFound {W} p.

Section Poller.

Context {W : Type}.
Variable ctx : Collab W.
Variable config : Config.

(** A computation on the shared state, run inside the frame. *)
Definition lift {A} (m : M (St W) A) : M (PollFrame W) A :=
  fun f =>
    let (r, s) := m (heap f) in
    (r, {| heap := s; updatesFound := updatesFound f |}).

(** [updatesFound++]. *)
Definition increment : M (PollFrame W) unit :=
  fun f => (Ok tt, {| heap := heap f; updatesFound := S (updatesFound f) |}).

(** [ctx.bots[botKey]]. *)
Definition get_bot (botKey : string) : M (St W) (option Bot) :=
  fun s => (Ok (bots ctx botKey (world s)), s).

(** The options of a manual parse, built by the middleware. *)
Definition parseOptions (session_platform : string) : Options :=
  {| showLink := Some false;
     showScreenshot := cfg_showScreenshot config;
     sendText := cfg_sendText config;
     sendMedia := cfg_sendMedia config;
     useForward := cfg_useForward config;
     platform := Some session_platform;
     enableTranslation := Some (parse_enableTranslation config);
     targetLang := Some (parse_targetLang config) |}.

(** The options of a subscription push, built by [checkAndPushUpdates] and by
    the single-user test command. *)
Definition pushOptions (target_platform : string) : Options :=
  {| showLink := Some (sub_showLink config);
     showScreenshot := sub_showScreenshot config;
     sendText := sub_sendText config;
     sendMedia := sub_sendMedia config;
     useForward := sub_useForward config;
     platform := Some target_platform;
     enableTranslation := Some (sub_enableTranslation config);
     targetLang := Some (sub_targetLang config) |}.

(** The middleware, from the result of [TWEET_URL_REGEX.exec(session.content)]
    on: without a match the message is passed on, otherwise the link is
    resolved and the result is what [session.send] is given. *)
Definition middleware (matched : option string) (session_platform : string)
    : M (St W) (option Reply) :=
  match matched with
  | None => ret None
  | Some tweetUrl =>
      let* messageToSend := processTweet ctx config tweetUrl (parseOptions session_platform) in
      ret (Some messageToSend)
  end.

(** [isNew], from the stored link and the link just found. *)
Definition isNew (lastUrl : option string) (latestTweetUrl : string) : bool :=
  negb (Js.truthy_opt lastUrl) || negb (bool_decide (lastUrl = Some latestTweetUrl)).

(** [shouldPush]. *)
Definition shouldPush (lastUrl : option string) (latestTweetUrl : string)
    (isManualTrigger : bool) : bool :=
  isNew lastUrl latestTweetUrl || (isManualTrigger && Js.truthy latestTweetUrl).

(** The loop over [sub.groupIds]. *)
Definition pushToGroups (groupIds : list string) (messageToSend : Reply) : M (St W) unit :=
  for_of groupIds (fun groupId =>
    call (CallSend groupId messageToSend) (sendMessage ctx groupId messageToSend)).

(** The [try] block of one iteration of [checkAndPushUpdates]. *)
Definition checkSubscription (bot : Bot) (isManualTrigger : bool) (sub : Subscription)
    : M (PollFrame W) unit :=
  let excludeRetweets := default true (excludeRetweets sub) in
  let* latestTweetUrl :=
    lift (getLatestTweetUrlByPuppeteer ctx (username sub) (cookie config) excludeRetweets) in
  match nonempty latestTweetUrl with
  | None => ret tt
  | Some latestTweetUrl =>
      let* lastUrl := lift (database_get (username sub)) in
      if shouldPush lastUrl latestTweetUrl isManualTrigger then
        increment;;
        lift (emit (Logged (InfoNewTweet (username sub))));;
        let* messageToSend :=
          lift (processTweet ctx config latestTweetUrl (pushOptions (bot_platform bot))) in
        lift (pushToGroups (groupIds sub) messageToSend);;
        if isNew lastUrl latestTweetUrl
        then lift (database_upsert (username sub) latestTweetUrl)
        else ret tt
      else ret tt
  end.

(** The body of the loop of [checkAndPushUpdates]: a malformed entry is passed
    over at once; otherwise the [try] block runs, an error is logged, and the
    loop sleeps three seconds. *)
Definition pollSubscription (bot : Bot) (isManualTrigger : bool) (sub : Subscription)
    : M (PollFrame W) unit :=
  if negb (Js.truthy (username sub)) || Nat.eqb (length (groupIds sub)) 0 then ret tt
  else
    (try checkSubscription bot isManualTrigger sub
     catch error => lift (emit (Logged (WarnCheck (username sub) error))));;
    lift (emit (CallSleep (3 * Time_second))).

(** The summary returned by a manual run. *)
Definition summary (count : nat) : string :=
  "手动检查完成, 共为 " +:+ pretty count +:+ " 个订阅执行了推送任务.".

(** The answer of a manual run when the bot is missing or offline. *)
Definition offlineNotice (botKey : string) : string :=
  "配置中指定的机器人 [" +:+ botKey +:+ "] 不存在或不在线.".

(** [checkAndPushUpdates] from [let updatesFound = 0] on. *)
Definition pollAll (bot : Bot) (isManualTrigger : bool) (subs : list Subscription)
    : M (PollFrame W) (option string) :=
  for_of subs (pollSubscription bot isManualTrigger);;
  fun f => (Ok (if isManualTrigger then Some (summary (updatesFound f)) else None), f).

(** The early return of [checkAndPushUpdates] when the bot is missing or
    offline. *)
Definition skipCycle (botKey : string) (isManualTrigger : bool) : M (St W) (option string) :=
  emit (Logged (WarnBotOffline botKey));;
  ret (if isManualTrigger then Some (offlineNotice botKey) else None).

(** [checkAndPushUpdates]; [None] is [undefined]. *)
Definition checkAndPushUpdates (isManualTrigger : bool) : M (St W) (option string) :=
  match enableSubscription config with
  | None => ret None
  | Some settings =>
      let botKey := sub_platform settings +:+ ":" +:+ selfId settings in
      let* bot := get_bot botKey in
      match bot with
      | None => skipCycle botKey isManualTrigger
      | Some bot =>
          if negb (online bot) then skipCycle botKey isManualTrigger
          else
            fun s =>
              let (r, f) := pollAll bot isManualTrigger (subscriptions settings)
                              {| heap := s; updatesFound := 0 |} in
              (r, heap f)
      end
  end.

End Poller.

(** ** Collaborators with one behaviour replaced *)

Section Replace.

Context {W : Type}.

(** The same collaborators with another screenshot service. *)
Definition with_screenshot
    (shot : string -> string -> W -> Outcome (option Buffer) * W) (c : Collab W) : Collab W :=
  {| puppeteer_screenshot := shot;
     puppeteer_articles := puppeteer_articles c;
     http_get := http_get c;
     http_file := http_file c;
     translate_get := translate_get c;
     sendMessage := sendMessage c;
     bots := bots c;
     h_toString := h_toString c |}.

End Replace.

(** ** A scripted outside world

    Collaborators over a world without state, used to run the plugin on
    concrete inputs: the profile of [alice] shows a pinned tweet, a repost and
    two tweets of her own; the tweet [/alice/status/3] has a text and three
    media files of which the second cannot be downloaded; the tweet
    [/carol/status/7] has one attachment of a kind the plugin does not know;
    every other request to the metadata service fails. *)
Module Script.

Definition png : Buffer := [Byte.x89; Byte.x50; Byte.x4e; Byte.x47].
Definition jpg : Buffer := [Byte.xff; Byte.xd8].
Definition mp4 : Buffer := [Byte.x00; Byte.x00].

Definition shot (url cookie : string) (w : unit) : Outcome (option Buffer) * unit :=
  (Ok (Some png), w).

(** An anchor written with a path, which the browser resolves on [x.com]. *)
Definition anchor (path : string) : Anchor :=
  {| href_attribute := path; href := "https://x.com" +:+ path; href_resolved := eq_refl |}.

Definition profile : list Article :=
  [ {| socialContext := Some "Pinned"; anchors := [anchor "/alice/status/1"] |};
    {| socialContext := Some "alice reposted";
       anchors := [anchor "/bob"; anchor "/bob/status/2"] |};
    {| socialContext := None;
       anchors := [anchor "/alice"; anchor "/alice/status/3"] |};
    {| socialContext := None; anchors := [anchor "/alice/status/0"] |} ].

Definition page (user cookie : string) (w : unit) : Outcome (list Article) * unit :=
  if bool_decide (user = "alice") then (Ok profile, w)
  else if bool_decide (user = "carol") then
    (Ok [ {| socialContext := None; anchors := [anchor "/carol/status/7"] |} ], w)
  else (Throw "Navigation timeout of 30000 ms exceeded", w).

Definition api (apiUrl : string) (w : unit) : Outcome ApiResponse * unit :=
  if bool_decide (apiUrl = "https://api.vxtwitter.com/alice/status/3") then
    (Ok {| user_screen_name := Some "alice";
           text := Some "hello";
           media_extended :=
             Some [ {| url := "https://m/1.jpg"; type := "image" |};
                    {| url := "https://m/2.jpg"; type := "image" |};
                    {| url := "https://m/3.mp4"; type := "video" |} ] |}, w)
  else if bool_decide (apiUrl = "https://api.vxtwitter.com/carol/status/7") then
    (Ok {| user_screen_name := Some "carol";
           text := None;
           media_extended := Some [ {| url := "https://m/7.bin"; type := "audio" |} ] |}, w)
  else (Throw "Not Found", w).

Definition file (mediaUrl : string) (w : unit) : Outcome File * unit :=
  if bool_decide (mediaUrl = "https://m/2.jpg") then (Throw "ECONNRESET", w)
  else if bool_decide (mediaUrl = "https://m/3.mp4")
       then (Ok {| data := mp4; mime := "video/mp4" |}, w)
       else (Ok {| data := jpg; mime := "image/jpeg" |}, w).

Definition translation (lang text : string) (w : unit)
    : Outcome (option (list string)) * unit :=
  (Ok (Some ["你"; "好"]), w).

(** Delivery fails for the group [g1] and succeeds elsewhere. *)
Definition deliver (groupId : string) (message : Reply) (w : unit) : Outcome unit * unit :=
  if bool_decide (groupId = "g1") then (Throw "send failed", w) else (Ok tt, w).

Definition render (e : h) : string :=
  match e with
  | h_image _ _ => "<img/>"
  | h_video _ _ => "<video/>"
  end.

(** The bot [onebot:42] is online, [onebot:43] is offline, there is no
    other. *)
Definition roster (botKey : string) (w : unit) : option Bot :=
  if bool_decide (botKey = "onebot:42") then Some {| online := true; bot_platform := "onebot" |}
  else if bool_decide (botKey = "onebot:43")
       then Some {| online := false; bot_platform := "onebot" |}
       else None.

Definition ctx : Collab unit :=
  {| puppeteer_screenshot := shot;
     puppeteer_articles := page;
     http_get := api;
     http_file := file;
     translate_get := translation;
     sendMessage := deliver;
     bots := roster;
     h_toString := render |}.

Definition settings (selfId : string) (subs : list Subscription) : SubscriptionSettings :=
  {| sub_platform := "onebot"; selfId := selfId; updateInterval := 30;
     subscriptions := subs |}.

(** The default configuration with forwarding switched on and the given
    subscription part. *)
Definition config (sub : option SubscriptionSettings) : Config :=
  {| cfg_showScreenshot := true; cfg_sendText := true; cfg_sendMedia := true;
     cookie := ""; cfg_useForward := true;
     sub_showLink := true; sub_showScreenshot := true; sub_sendText := true;
     sub_sendMedia := true; sub_useForward := true;
     parse_enableTranslation := false; parse_targetLang := "zh-CN";
     sub_enableTranslation := false; sub_targetLang := "zh-CN";
     logDetails := false;
     enableSubscription := sub |}.

Definition start (table : gmap string string) : St unit :=
  {| world := tt; db := table; trace := [] |}.

End Script.

(** ** Vocabulary of the statements *)

(** The tweets of a page that the loop of [evaluate] may return: a pinned
    tweet never, a repost only when reposts are not excluded. *)
Definition eligible (excludeRetweets : bool) (article : Article) : bool :=
  match socialContext article with
  | Some contextText =>
      negb (is_pinned contextText)
      && (if excludeRetweets then negb (is_repost contextText) else true)
  | None => true
  end.

(** The events of a resolution; a visit of the tweet page is among them only
    when screenshots are asked for. *)
Definition resolver_event (screenshots : bool) (e : Event) : Prop :=
  match e with
  | CallScreenshot _ => screenshots = true
  | CallApi _ | CallFile _ | CallTranslate _ _ => True
  | Logged (WarnTranslate _) | Logged (WarnApi _) => True
  | _ => False
  end.

(** The events of a discovery. *)
Definition discovery_event (e : Event) : Prop :=
  match e with
  | CallPage _ | Logged (WarnNoTweet _) => True
  | _ => False
  end.

(** The event that marks a decided push: the line logged next to
    [updatesFound++]. *)
Definition is_push (e : Event) : bool :=
  match e with
  | Logged (InfoNewTweet _) => true
  | _ => false
  end.

(** The number of pushes decided in a stretch of the trace. *)
Definition pushes (events : list Event) : nat :=
  length (List.filter is_push events).

(** The subscription passes the guard at the head of the loop. *)
Definition well_formed (sub : Subscription) : bool :=
  Js.truthy (username sub) && negb (Nat.eqb (length (groupIds sub)) 0).

(** The user names of the configured subscriptions. *)
Definition configured_users (config : Config) : list string :=
  match enableSubscription config with
  | Some settings => map username (subscriptions settings)
  | None => []
  end.


(** The lines [processTweet] writes from the response: the identity line, the
    body and the translation block. *)
Definition metadata_line (t : string) : bool :=
  String.prefix "用户ID: " t || String.prefix "推文内容: " t || String.prefix Js.LF t.

(** The event is a dispatch to the group [groupId]. *)
Definition sent_to (groupId : string) (e : Event) : bool :=
  match e with
  | CallSend g _ => bool_decide (g = groupId)
  | _ => false
  end.

Section Vocabulary.

Context {W : Type}.

(** [s'] is [s] after some events of the class [P]: the table is the same and
    the trace has only grown. *)
Definition extends (P : Event -> Prop) (s s' : St W) : Prop :=
  db s' = db s /\ exists events, trace s' = trace s ++ events /\ Forall P events.

(** The computation leaves the table alone and only adds events of the class
    [P]. *)
Definition sound {A} (P : Event -> Prop) (m : M (St W) A) : Prop :=
  forall s r s', m s = (r, s') -> extends P s s'.

(** The computation always returns. *)
Definition total {S A} (m : M S A) : Prop :=
  forall s, exists a s', m s = (Ok a, s').

(** The outcome of requesting each file of [medias] in turn, from the world
    [w] on, whatever the earlier requests gave. *)
Fixpoint downloads (ctx : Collab W) (medias : list Media) (w : W)
    : list (Media * Outcome File) * W :=
  match medias with
  | [] => ([], w)
  | media :: rest =>
      let (r, w1) := http_file ctx (url media) w in
      let (rs, w2) := downloads ctx rest w1 in
      ((media, r) :: rs, w2)
  end.

(** The element a requested file contributes to the message. *)
Definition kept (r : Media * Outcome File) : option h :=
  match r with
  | (media, Ok file) => media_element media file
  | (_, Throw _) => None
  end.

(** What one iteration of the loop of [checkAndPushUpdates] does to the frame
    [f], by the way it goes. *)
Inductive EntryRun (ctx : Collab W) (config : Config) (bot : Bot) (isManualTrigger : bool)
    (sub : Subscription) (f : PollFrame W) : PollFrame W -> Prop :=
| run_malformed :
    well_formed sub = false ->
    EntryRun ctx config bot isManualTrigger sub f f
| run_discovery_failed error s1 :
    well_formed sub = true ->
    getLatestTweetUrlByPuppeteer ctx (username sub) (cookie config)
      (default true (excludeRetweets sub)) (heap f) = (Throw error, s1) ->
    EntryRun ctx config bot isManualTrigger sub f
      {| heap := record (CallSleep (3 * Time_second))
                   (record (Logged (WarnCheck (username sub) error)) s1);
         updatesFound := updatesFound f |}
| run_nothing_found s1 :
    well_formed sub = true ->
    getLatestTweetUrlByPuppeteer ctx (username sub) (cookie config)
      (default true (excludeRetweets sub)) (heap f) = (Ok None, s1) ->
    EntryRun ctx config bot isManualTrigger sub f
      {| heap := record (CallSleep (3 * Time_second)) s1;
         updatesFound := updatesFound f |}
| run_unchanged latestTweetUrl s1 :
    well_formed sub = true ->
    getLatestTweetUrlByPuppeteer ctx (username sub) (cookie config)
      (default true (excludeRetweets sub)) (heap f) = (Ok (Some latestTweetUrl), s1) ->
    shouldPush (db s1 !! username sub) latestTweetUrl isManualTrigger = false ->
    EntryRun ctx config bot isManualTrigger sub f
      {| heap := record (CallSleep (3 * Time_second)) s1;
         updatesFound := updatesFound f |}
| run_pushed latestTweetUrl s1 messageToSend s2 s3 :
    well_formed sub = true ->
    getLatestTweetUrlByPuppeteer ctx (username sub) (cookie config)
      (default true (excludeRetweets sub)) (heap f) = (Ok (Some latestTweetUrl), s1) ->
    shouldPush (db s1 !! username sub) latestTweetUrl isManualTrigger = true ->
    processTweet ctx config latestTweetUrl (pushOptions config (bot_platform bot))
      (record (Logged (InfoNewTweet (username sub))) s1) = (Ok messageToSend, s2) ->
    pushToGroups ctx (groupIds sub) messageToSend s2 = (Ok tt, s3) ->
    EntryRun ctx config bot isManualTrigger sub f
      {| heap := record (CallSleep (3 * Time_second))
                   (if isNew (db s1 !! username sub) latestTweetUrl
                    then stored (username sub) latestTweetUrl s3 else s3);
         updatesFound := S (updatesFound f) |}
| run_dispatch_failed latestTweetUrl s1 messageToSend s2 error s3 :
    well_formed sub = true ->
    getLatestTweetUrlByPuppeteer ctx (username sub) (cookie config)
      (default true (excludeRetweets sub)) (heap f) = (Ok (Some latestTweetUrl), s1) ->
    shouldPush (db s1 !! username sub) latestTweetUrl isManualTrigger = true ->
    processTweet ctx config latestTweetUrl (pushOptions config (bot_platform bot))
      (record (Logged (InfoNewTweet (username sub))) s1) = (Ok messageToSend, s2) ->
    pushToGroups ctx (groupIds sub) messageToSend s2 = (Throw error, s3) ->
    EntryRun ctx config bot isManualTrigger sub f
      {| heap := record (CallSleep (3 * Time_second))
                   (record (Logged (WarnCheck (username sub) error)) s3);
         updatesFound := S (updatesFound f) |}.

(** The loop of [checkAndPushUpdates] over a list of subscriptions, one
    iteration after the other. *)
Inductive CycleRun (ctx : Collab W) (config : Config) (bot : Bot) (isManualTrigger : bool)
    : list Subscription -> PollFrame W -> PollFrame W -> Prop :=
| cycle_end f :
    CycleRun ctx config bot isManualTrigger [] f f
| cycle_step sub rest f f1 f2 :
    EntryRun ctx config bot isManualTrigger sub f f1 ->
    CycleRun ctx config bot isManualTrigger rest f1 f2 ->
    CycleRun ctx config bot isManualTrigger (sub :: rest) f f2.

End Vocabulary.

(** Runs of the plugin on the scripted world, named for the statements
    below. *)
Module Runs.

Definition alice : Subscription :=
  {| username := "alice"; groupIds := ["g2"; "g3"]; excludeRetweets := None |}.

Definition carol : Subscription :=
  {| username := "carol"; groupIds := ["g1"; "g2"]; excludeRetweets := Some false |}.

Definition online_bot : Bot := {| online := true; bot_platform := "onebot" |}.

(** The table after [alice]'s latest tweet has been pushed once. *)
Definition seen : gmap string string := {[ "alice" := "https://x.com/alice/status/3" ]}.

Definition frame (table : gmap string string) : PollFrame unit :=
  {| heap := Script.start table; updatesFound := 0 |}.

(** A scheduled run for [alice] alone on an empty table, a second scheduled
    run after it, and a manual run after that. *)
Definition first : Outcome (option string) * St unit :=
  checkAndPushUpdates Script.ctx
    (Script.config (Some (Script.settings "42" [alice]))) false (Script.start ∅).

Definition second : Outcome (option string) * St unit :=
  checkAndPushUpdates Script.ctx
    (Script.config (Some (Script.settings "42" [alice]))) false (Script.start (db (snd first))).

Definition third : Outcome (option string) * St unit :=
  checkAndPushUpdates Script.ctx
    (Script.config (Some (Script.settings "42" [alice]))) true (Script.start (db (snd second))).

(** A manual run for [carol] alone: her tweet is new, the dispatch to her
    first group throws. *)
Definition blocked : Outcome (option string) * St unit :=
  checkAndPushUpdates Script.ctx
    (Script.config (Some (Script.settings "42" [carol]))) true (Script.start ∅).

(** A manual run while the configured bot is offline. *)
Definition offline : Outcome (option string) * St unit :=
  checkAndPushUpdates Script.ctx
    (Script.config (Some (Script.settings "43" [alice; carol]))) true (Script.start ∅).

End Runs.

(** ** The link pattern

    [TWEET_URL_REGEX], [/https?:\/\/(twitter\.com|x\.com)\/(\w+)\/status\/(\d+)/g],
    as the middleware uses it: [lastIndex] is reset before [exec], so the
    search starts at the head of the message and returns the leftmost match.
    No step of the pattern can match in two ways that lead to different
    results: after [http] an [s] is taken when there is one (without it the
    colon would have to match the [s]), the two hosts start with different
    letters, and a greedy class that gave back a character would leave a
    character of the class where the pattern wants a slash or its end. *)
Module TWEET_URL_REGEX.

(** [\d]. *)
Definition digit (c : ascii) : bool :=
  Nat.leb 48 (nat_of_ascii c) && Nat.leb (nat_of_ascii c) 57.

(** [\w]: a letter, a digit or the underscore. *)
Definition word (c : ascii) : bool :=
  digit c
  || (Nat.leb 65 (nat_of_ascii c) && Nat.leb (nat_of_ascii c) 90)
  || (Nat.leb 97 (nat_of_ascii c) && Nat.leb (nat_of_ascii c) 122)
  || Nat.eqb (nat_of_ascii c) 95.

(** A greedy run of a class: the longest prefix of [s] in the class, and what
    follows it. *)
Fixpoint span (class : ascii -> bool) (s : string) : string * string :=
  match s with
  | EmptyString => (EmptyString, EmptyString)
  | String c rest =>
      if class c
      then let (taken, tail) := span class rest in (String c taken, tail)
      else (EmptyString, s)
  end.

(** The literal [lit] at the head of [s]: what follows it. *)
Definition literal (lit s : string) : option string :=
  if String.prefix lit s then Some (Js.slice (String.length lit) s) else None.

(** [(twitter\.com|x\.com)] at the head of [s]: the host and what follows. *)
Definition host (s : string) : option (string * string) :=
  match literal "twitter.com" s with
  | Some tail => Some ("twitter.com", tail)
  | None =>
      match literal "x.com" s with
      | Some tail => Some ("x.com", tail)
      | None => None
      end
  end.

(** The string a match is made of. *)
Definition link (scheme host user id : string) : string :=
  scheme +:+ "://" +:+ host +:+ "/" +:+ user +:+ "/status/" +:+ id.

(** The match of the pattern at the head of [s]. *)
Definition match_here (s : string) : option string :=
  match literal "http" s with
  | None => None
  | Some s1 =>
      let (scheme, s2) :=
        match literal "s" s1 with
        | Some tail => ("https", tail)
        | None => ("http", s1)
        end in
      match literal "://" s2 with
      | None => None
      | Some s3 =>
          match host s3 with
          | None => None
          | Some (name, s4) =>
              match literal "/" s4 with
              | None => None
              | Some s5 =>
                  let (user, s6) := span word s5 in
                  if Js.truthy user then
                    match literal "/status/" s6 with
                    | None => None
                    | Some s7 =>
                        let (id, _) := span digit s7 in
                        if Js.truthy id then Some (link scheme name user id) else None
                    end
                  else None
              end
          end
      end
  end.

(** [TWEET_URL_REGEX.exec(content)] after [lastIndex = 0], reduced to
    [match[0]]. *)
Fixpoint exec (content : string) : option string :=
  match match_here content with
  | Some found => Some found
  | None =>
      match content with
      | EmptyString => None
      | String _ rest => exec rest
      end
  end.

(** Every character of [s] is in the class. *)
Fixpoint all (class : ascii -> bool) (s : string) : bool :=
  match s with
  | EmptyString => true
  | String c rest => class c && all class rest
  end.

End TWEET_URL_REGEX.

(** ** The diagnostic stepper *)
Module Stepper.

(** A line given to the logger: [logger.warn] or [logger.info]. *)
Record Line : Type := { isWarning : bool; logMessage : string }.

(** The closure returned by [createLogStepper]: its prefix and its counter. *)
Record t : Type := { prefix : string; step : nat }.

(** [createLogStepper(prefix)]: [let step = 1]. *)
Definition createLogStepper (prefix : string) : t :=
  {| prefix := prefix; step := 1 |}.

(** One call of the closure: the line is written, and the counter advanced,
    only under [config.logDetails]. *)
Definition log (config : Config) (stepper : t) (message : string) (isWarning : bool)
    : t * list Line :=
  if logDetails config then
    ({| prefix := prefix stepper; step := S (step stepper) |},
     [ {| isWarning := isWarning;
          logMessage := "[" +:+ prefix stepper +:+ "] [步骤 " +:+ pretty (step stepper)
                        +:+ "] " +:+ message |} ])
  else (stepper, []).

(** The calls of one operation, one after the other. *)
Fixpoint logs (config : Config) (stepper : t) (calls : list (string * bool))
    : t * list Line :=
  match calls with
  | [] => (stepper, [])
  | (message, isWarning) :: rest =>
      let (stepper1, lines1) := log config stepper message isWarning in
      let (stepper2, lines2) := logs config stepper1 rest in
      (stepper2, lines1 ++ lines2)
  end.

(** The line the closure writes at the step [n]. *)
Definition numbered (prefix : string) (n : nat) (call : string * bool) : Line :=
  {| isWarning := snd call;
     logMessage := "[" +:+ prefix +:+ "] [步骤 " +:+ pretty n +:+ "] " +:+ fst call |}.

End Stepper.

(** ** The chat session

    What the middleware and the test command do with the session they are
    given.  [send] stands for [session.send] and returns the identifiers of the
    messages sent, [deleteMessage] for [session.bot.deleteMessage], [quote] for
    the string that [h('quote', { id: session.messageId })] becomes when it is
    concatenated with a text. *)
Module Session.

Record t (W : Type) : Type := {
  content : string;
  platform : string;
  channelId : string;
  messageId : string;
  quote : string;
  send : Reply -> W -> Outcome (list string) * W;
  deleteMessage : string -> option string -> W -> Outcome unit * W
}.
Arguments content {W} t.
Arguments platform {W} t.
Arguments channelId {W} t.
Arguments messageId {W} t.
Arguments quote {W} t.
Arguments send {W} t message w.
Arguments deleteMessage {W} t channel message w.

End Session.

Module Chat.

(** The logger lines of the handlers. *)
Inductive Warning : Type :=
| TestFailed (user message : string)
| ApiFailed (message : string)
| UnknownError (message : string).

(** What a handler does to the session, in the order it does it. *)
Inductive Act : Type :=
| Sent (message : Reply)
| Deleted (channel : string) (message : option string)
| Warned (line : Warning).

(** The shared state and the acts of the handler so far. *)
Record Frame (W : Type) : Type := {
  inner : St W;
  acts : list Act
}.
Arguments inner {W} f.
Arguments acts {W} f.

(** What a middleware answers: [next()], or nothing after it has handled the
    message itself. *)
Inductive Handled : Type :=
| Passed
| Answered.

Section Handlers.

Context {W : Type}.
Variable ctx : Collab W.
Variable config : Config.
Variable session : Session.t W.

(** A computation on the shared state, run inside the handler. *)
Definition within {A} (m : M (St W) A) : M (Frame W) A :=
  fun f =>
    let (r, s) := m (inner f) in
    (r, {| inner := s; acts := acts f |}).

(** [try { m } finally { cleanup }]: the cleanup runs whatever [m] did, and an
    error of the cleanup replaces the outcome of [m]. *)
Definition finally {S A} (m : M S A) (cleanup : M S unit) : M S A :=
  fun s =>
    let (r, s1) := m s in
    match cleanup s1 with
    | (Ok _, s2) => (r, s2)
    | (Throw error, s2) => (Throw error, s2)
    end.

Definition note (a : Act) : M (Frame W) unit :=
  fun f => (Ok tt, {| inner := inner f; acts := acts f ++ [a] |}).

(** [session.send(message)]. *)
Definition session_send (message : Reply) : M (Frame W) (list string) :=
  fun f =>
    let (r, w) := Session.send session message (world (inner f)) in
    (r, {| inner := at_world w (inner f); acts := acts f ++ [Sent message] |}).

(** [session.bot.deleteMessage(session.channelId, statusMessage[0])]. *)
Definition session_delete (statusMessage : list string) : M (Frame W) unit :=
  fun f =>
    let (r, w) := Session.deleteMessage session (Session.channelId session)
                    (head statusMessage) (world (inner f)) in
    (r, {| inner := at_world w (inner f);
           acts := acts f ++ [Deleted (Session.channelId session) (head statusMessage)] |}).

(** The notice sent while a link is being resolved. *)
Definition statusNotice : Reply :=
  RString (Session.quote session +:+ "正在解析推文链接, 请稍候...").

(** The middleware of the current plugin. *)
Definition onMessage : M (Frame W) Handled :=
  match TWEET_URL_REGEX.exec (Session.content session) with
  | None => ret Passed
  | Some found =>
      let* statusMessage := session_send statusNotice in
      let* messageToSend :=
        within (processTweet ctx config found (parseOptions config (Session.platform session))) in
      session_send messageToSend;;
      session_delete statusMessage;;
      ret Answered
  end.

(** The command that tests one user: the latest tweet is looked up with
    reposts excluded and sent to the session that asked; the answer of the
    command is [None] when it returns nothing. *)
Definition testUser (username : option string) : M (Frame W) (option string) :=
  match nonempty username with
  | None => ret (Some "请输入要测试的用户名.")
  | Some username =>
      session_send
        (RString ("正在为 [" +:+ username +:+ "] 获取最新推文并模拟推送到当前会话..."));;
      try
        (let* latestTweetUrl :=
           within (getLatestTweetUrlByPuppeteer ctx username (cookie config) true) in
         match nonempty latestTweetUrl with
         | None => ret (Some "无法找到该用户的最新推文链接(已排除转推).")
         | Some latestTweetUrl =>
             session_send
               (RString ("成功获取到最新推文链接: " +:+ latestTweetUrl +:+ Js.LF
                         +:+ "正在生成内容..."));;
             let* messageToSend :=
               within (processTweet ctx config latestTweetUrl
                         (pushOptions config (Session.platform session))) in
             session_send messageToSend;;
             ret None
         end)
      catch error => (note (Warned (TestFailed username error));;
                      ret (Some ("测试失败: " +:+ error)))
  end.

End Handlers.

End Chat.

(** ** The first plugin

    The middleware of the first generation (the first file of
    [src/unnamed/part_000]): everything in one handler, no subscriptions.  The
    lines it logs under [config.logDetails] are left out.  An element is
    built there from a data URI, [data:<mime>;base64,<bytes>]; it is written
    here with the bytes and the mime type the URI is made of. *)
Module Gen1.

Section Gen1.

Context {W : Type}.
Variable ctx : Collab W.
Variable config : Config.
Variable session : Session.t W.

(** The notice sent while a link is being resolved (with a fullwidth
    comma). *)
Definition statusNotice : Reply :=
  RString (Session.quote session +:+ "正在解析推文链接，请稍候...").

(** The screenshot block: an empty result is an error like any other, and
    every error is swallowed. *)
Definition captureScreenshot (originalUrl : string) : M (St W) (option h) :=
  if cfg_showScreenshot config then
    try
      (let* screenshotBuffer := getTweetScreenshot ctx originalUrl (cookie config) in
       match screenshotBuffer with
       | Some buffer => ret (Some (h_image buffer "image/png"))
       | None => fun s => (Throw "截图结果为空", s)
       end)
    catch error => ret None
  else ret None.

(** [file.mime || (media.type === 'video' ? 'video/mp4' : 'image/jpeg')]. *)
Definition mimeType (media : Media) (file : File) : string :=
  if Js.truthy (mime file) then mime file
  else if bool_decide (type media = "video") then "video/mp4" else "image/jpeg".

(** The element built from a downloaded file. *)
Definition media_element (media : Media) (file : File) : option h :=
  if bool_decide (type media = "image") then Some (h_image (data file) (mimeType media file))
  else if bool_decide (type media = "video")
       then Some (h_video (data file) (mimeType media file))
       else None.

(** The loop over [media_extended]. *)
Fixpoint downloadMedia (medias : list Media) (mediaParts : list h) : M (St W) (list h) :=
  match medias with
  | [] => ret mediaParts
  | media :: rest =>
      let* mediaParts :=
        try
          (let* file := call (CallFile (url media)) (http_file ctx (url media)) in
           match media_element media file with
           | Some element => ret (mediaParts ++ [element])
           | None => ret mediaParts
           end)
        catch error => ret mediaParts in
      downloadMedia rest mediaParts
  end.

(** The lines written from the response (with a fullwidth colon). *)
Definition metadataText (apiResponse : ApiResponse) : list string :=
  match nonempty (user_screen_name apiResponse) with
  | Some name => ["用户ID：" +:+ name]
  | None => []
  end
  ++ match nonempty (text apiResponse) with
     | Some body => if cfg_sendText config then ["推文内容：" +:+ body] else []
     | None => []
     end.

(** The inner [try] block: the text and the media are filled only once the
    response is there, the screenshot included. *)
Definition collect (originalUrl : string) (screenshotElement : option h)
    : M (St W) (list string * list h) :=
  let apiUrl := Js.replace_host "api.vxtwitter.com" originalUrl in
  let* apiResponse := call (CallApi apiUrl) (http_get ctx apiUrl) in
  let textParts := metadataText apiResponse in
  let mediaParts := match screenshotElement with Some e => [e] | None => [] end in
  let* mediaParts :=
    match media_extended apiResponse with
    | Some medias => if cfg_sendMedia config then downloadMedia medias mediaParts
                     else ret mediaParts
    | None => ret mediaParts
    end in
  ret (textParts, mediaParts).

(** The message given to [session.send] at the end. *)
Definition compose (textParts : list string) (mediaParts : list h) : Reply :=
  let hasText := Nat.ltb 0 (length textParts) in
  let hasMedia := Nat.ltb 0 (length mediaParts) in
  if negb hasText && negb hasMedia then RString "未能获取到该推文的任何内容。"
  else
    let parts :=
      (if hasText then [FText (Js.join Js.LF textParts)] else [])
      ++ (if hasMedia then map FElem mediaParts else []) in
    if cfg_useForward config && bool_decide (Session.platform session = "onebot")
    then RFigure parts
    else RString (Js.join (Js.LF +:+ Js.LF) (map (fragment_toString ctx) parts)).

(** The outer [try] block. *)
Definition resolveAndSend (originalUrl : string) : M (Chat.Frame W) unit :=
  let* screenshotElement := Chat.within (captureScreenshot originalUrl) in
  let* parts :=
    try Chat.within (collect originalUrl screenshotElement)
    catch error => (Chat.note (Chat.Warned (Chat.ApiFailed error));; ret ([], [])) in
  Chat.session_send session (compose (fst parts) (snd parts));;
  ret tt.

(** The middleware: [try], [catch], [finally]. *)
Definition onMessage : M (Chat.Frame W) Chat.Handled :=
  match TWEET_URL_REGEX.exec (Session.content session) with
  | None => ret Chat.Passed
  | Some originalUrl =>
      let* statusMessage := Chat.session_send session statusNotice in
      Chat.finally
        (try resolveAndSend originalUrl
         catch error => Chat.note (Chat.Warned (Chat.UnknownError error)))
        (Chat.session_delete session statusMessage);;
      ret Chat.Answered
  end.

End Gen1.

End Gen1.

(** ** The plugin of [src/index.ts]

    [processTweet] as the generation before the current one has it: no
    translation, and the element of a file is built for an image and a video
    only.  The screenshot block, the composition and the failure notice are
    those of the current plugin.  An element is built there from a data URI
    and is written here with the bytes and the mime type the URI is made
    of. *)
Module IndexTs.

Section IndexTs.

Context {W : Type}.
Variable ctx : Collab W.
Variable config : Config.

(** The text built from the response. *)
Definition metadataText (options : Options) (apiResponse : ApiResponse)
    (textParts : list string) : list string :=
  let textParts :=
    match nonempty (user_screen_name apiResponse) with
    | Some name => textParts ++ ["用户ID: " +:+ name]
    | None => textParts
    end in
  match nonempty (text apiResponse) with
  | Some body => if sendText options then textParts ++ ["推文内容: " +:+ body] else textParts
  | None => textParts
  end.

(** The loop over [media_extended]. *)
Fixpoint downloadMedia (medias : list Media) (mediaParts : list h) : M (St W) (list h) :=
  match medias with
  | [] => ret mediaParts
  | media :: rest =>
      let* mediaParts :=
        try
          (let* file := call (CallFile (url media)) (http_file ctx (url media)) in
           match Legacy.media_element media file with
           | Some element => ret (mediaParts ++ [element])
           | None => ret mediaParts
           end)
        catch error => ret mediaParts in
      downloadMedia rest mediaParts
  end.

(** The [try] block up to the composition. *)
Definition collect (tweetUrl : string) (options : Options) (textParts : list string)
    (screenshotElement : option h) : M (St W) (list string * list h) :=
  let apiUrl := Js.replace_host "api.vxtwitter.com" tweetUrl in
  let* apiResponse := call (CallApi apiUrl) (http_get ctx apiUrl) in
  let textParts := metadataText options apiResponse textParts in
  let mediaParts := match screenshotElement with Some e => [e] | None => [] end in
  let* mediaParts :=
    match media_extended apiResponse with
    | Some medias => if sendMedia options then downloadMedia medias mediaParts
                     else ret mediaParts
    | None => ret mediaParts
    end in
  ret (textParts, mediaParts).

(** [processTweet]. *)
Definition processTweet (tweetUrl : string) (options : Options) : M (St W) Reply :=
  let textParts := seedLink tweetUrl options in
  let* screenshotElement := captureScreenshot ctx config tweetUrl options in
  try
    (let* parts := collect tweetUrl options textParts screenshotElement in
     ret (compose ctx options (fst parts) (snd parts)))
  catch error => (emit (Logged (WarnApi error));; ret (failureNotice error)).

End IndexTs.

End IndexTs.

(** ** What a run leaves behind *)
Module Footprint.

(** The event is a visit of a tweet page. *)
Definition is_capture (e : Event) : bool :=
  match e with
  | CallScreenshot _ => true
  | _ => false
  end.

(** The event is a request to the metadata service. *)
Definition is_request (e : Event) : bool :=
  match e with
  | CallApi _ => true
  | _ => false
  end.

(** The event is a request to the translation endpoint. *)
Definition is_translation (e : Event) : bool :=
  match e with
  | CallTranslate _ _ => true
  | _ => false
  end.

(** The event is a dispatch to a group. *)
Definition is_dispatch (e : Event) : bool :=
  match e with
  | CallSend _ _ => true
  | _ => false
  end.

(** The events that set the pace of a cycle: the visit of a profile page and
    the pause. *)
Definition is_pace (e : Event) : bool :=
  match e with
  | CallPage _ | CallSleep _ => true
  | _ => false
  end.

(** What [processTweet] does after it has asked the metadata service. *)
Definition follow_up (e : Event) : Prop :=
  match e with
  | CallFile _ | CallTranslate _ _ => True
  | Logged (WarnTranslate _) | Logged (WarnApi _) => True
  | _ => False
  end.

(** What a handler of the chat does besides talking to the session: a
    discovery and a resolution. *)
Definition lookup_event (e : Event) : Prop :=
  match e with
  | CallPage _ | CallScreenshot _ | CallApi _ | CallFile _ | CallTranslate _ _ => True
  | Logged (WarnNoTweet _) | Logged (WarnTranslate _) | Logged (WarnApi _) => True
  | _ => False
  end.

(** What a cycle does when it pushes nothing: visits, pauses and warnings. *)
Definition idle_event (e : Event) : Prop :=
  match e with
  | CallPage _ | CallSleep _ => True
  | Logged (WarnNoTweet _) | Logged (WarnCheck _ _) | Logged (WarnBotOffline _) => True
  | _ => False
  end.

(** The pace of a cycle over [subs]: each well-formed subscription in turn,
    its profile page and then the pause of three seconds. *)
Definition pacing (subs : list Subscription) : list Event :=
  flat_map (fun sub => [CallPage (username sub); CallSleep (3 * Time_second)])
    (List.filter well_formed subs).

(** The reply has something in it. *)
Definition substantial (reply : Reply) : bool :=
  match reply with
  | RString t => Js.truthy t
  | RFigure children => negb (Nat.eqb (length children) 0)
  end.

(** [s'] is [s] with the same table and the events [events] added. *)
Definition added {W} (s s' : St W) (events : list Event) : Prop :=
  db s' = db s /\ trace s' = trace s ++ events.

(** The options with translation switched off. *)
Definition untranslated (options : Options) : Options :=
  {| showLink := showLink options;
     showScreenshot := showScreenshot options;
     sendText := sendText options;
     sendMedia := sendMedia options;
     useForward := useForward options;
     platform := platform options;
     enableTranslation := Some false;
     targetLang := targetLang options |}.

(** The block [processTweet] appends for a translation. *)
Definition translationBlock (lang translated : string) : string :=
  Js.LF +:+ "【谷歌翻译 (" +:+ lang +:+ ")】:" +:+ Js.LF +:+ translated.

(** The handler leaves the table alone and adds nothing to the trace but the
    events of a discovery and a resolution. *)
Definition steady {W A} (m : M (Chat.Frame W) A) : Prop :=
  forall f r f', m f = (r, f') -> extends lookup_event (Chat.inner f) (Chat.inner f').

(** The mime type an element was built with. *)
Definition h_mime (e : h) : string :=
  match e with
  | h_image _ mime => mime
  | h_video _ mime => mime
  end.

(** The message was deleted. *)
Definition is_deletion (a : Chat.Act) : bool :=
  match a with
  | Chat.Deleted _ _ => true
  | _ => false
  end.

(** The handler deletes nothing: its acts are notices and warnings. *)
Definition calm {W A} (m : M (Chat.Frame W) A) : Prop :=
  forall f r f', m f = (r, f') ->
    exists more, Chat.acts f' = Chat.acts f ++ more
                 /\ List.filter is_deletion more = [].

End Footprint.

(** ** A scripted chat

    A session on the scripted world: every string is delivered, and a figure
    is delivered unless the session is [fragile]. *)
Module Room.

Definition send (fragile : bool) (message : Reply) (w : unit)
    : Outcome (list string) * unit :=
  match message with
  | RString _ => (Ok ["m1"; "m2"], w)
  | RFigure _ => if fragile then (Throw "forward rejected", w) else (Ok ["m3"], w)
  end.

Definition deleteMessage (channel : string) (message : option string) (w : unit)
    : Outcome unit * unit :=
  (Ok tt, w).

Definition session (content : string) (fragile : bool) : Session.t unit :=
  {| Session.content := content;
     Session.platform := "onebot";
     Session.channelId := "c1";
     Session.messageId := "m0";
     Session.quote := "<quote id=m0/>";
     Session.send := send fragile;
     Session.deleteMessage := deleteMessage |}.

Definition start : Chat.Frame unit :=
  {| Chat.inner := Script.start ∅; Chat.acts := [] |}.

End Room.

(** Cycles on the scripted world. *)
Module Rounds.

(** Four entries: [carol], an entry without groups, a user whose profile page
    does not load, and [alice]. *)
Definition mixed : list Subscription :=
  [ Runs.carol;
    {| username := "dave"; groupIds := []; excludeRetweets := None |};
    {| username := "erin"; groupIds := ["g2"]; excludeRetweets := None |};
    Runs.alice ].

(** [alice] listed twice: once with reposts excluded, once with reposts let
    through. *)
Definition twice : list Subscription :=
  [ Runs.alice;
    {| username := "alice"; groupIds := ["g2"]; excludeRetweets := Some false |} ].

Definition config (subs : list Subscription) : Config :=
  Script.config (Some (Script.settings "42" subs)).

End Rounds.

(** ** The monad *)

Section Monad.

Context {S A B : Type}.

Lemma bind_ok (m : M S A) (k : A -> M S B) s a s1 :
  m s = (Ok a, s1) -> bind m k s = k a s1.
Proof. intros E. unfold bind. now rewrite E. Qed.

Lemma bind_throw (m : M S A) (k : A -> M S B) s e s1 :
  m s = (Throw e, s1) -> bind m k s = (Throw e, s1).
Proof. intros E. unfold bind. now rewrite E. Qed.

Lemma try_ok (m : M S A) (handler : string -> M S A) s a s1 :
  m s = (Ok a, s1) -> try_catch m handler s = (Ok a, s1).
Proof. intros E. unfold try_catch. now rewrite E. Qed.

Lemma try_throw (m : M S A) (handler : string -> M S A) s e s1 :
  m s = (Throw e, s1) -> try_catch m handler s = handler e s1.
Proof. intros E. unfold try_catch. now rewrite E. Qed.

Lemma total_ret (a : A) : total (ret (S := S) a).
Proof. intros s. now exists a, s. Qed.

Lemma total_bind (m : M S A) (k : A -> M S B) :
  total m -> (forall a, total (k a)) -> total (bind m k).
Proof.
  intros Hm Hk s. destruct (Hm s) as (a & s1 & E).
  destruct (Hk a s1) as (b & s2 & E2).
  exists b, s2. now rewrite (bind_ok _ _ _ _ _ E).
Qed.

Lemma total_try (m : M S A) (handler : string -> M S A) :
  (forall e, total (handler e)) -> total (try_catch m handler).
Proof.
  intros Hh s. unfold try_catch.
  destruct (m s) as [[a | e] s1]; [now exists a, s1 | apply Hh].
Qed.

End Monad.

(** ** Events and the table *)

Section Extension.

Context {W : Type}.
Implicit Types (s : St W) (P : Event -> Prop).

Lemma extends_refl P s : extends P s s.
Proof. split; [reflexivity | exists []; split; [now rewrite app_nil_r | constructor]]. Qed.

Lemma extends_trans P s1 s2 s3 : extends P s1 s2 -> extends P s2 s3 -> extends P s1 s3.
Proof.
  intros (D1 & e1 & T1 & F1) (D2 & e2 & T2 & F2). split; [congruence |].
  exists (e1 ++ e2). split.
  - now rewrite T2, T1, app_assoc.
  - rewrite Forall_app. now split.
Qed.

Lemma extends_weaken (P Q : Event -> Prop) s s' :
  (forall e, P e -> Q e) -> extends P s s' -> extends Q s s'.
Proof.
  intros PQ (D & evs & T & F). split; [exact D |].
  exists evs. split; [exact T | eapply Forall_impl; eauto].
Qed.

Lemma extends_record P e s : P e -> extends P s (record e s).
Proof.
  intros Pe. split; [reflexivity |]. exists [e]. split; [reflexivity |].
  now constructor.
Qed.

Lemma extends_at_world P w s : extends P s (at_world w s).
Proof.
  split; [reflexivity |]. exists []. split; [cbn; now rewrite app_nil_r | constructor].
Qed.

Lemma sound_weaken {A} (P Q : Event -> Prop) (m : M (St W) A) :
  (forall e, P e -> Q e) -> sound P m -> sound Q m.
Proof. intros PQ H s r s' E. eapply extends_weaken; eauto. Qed.

Lemma sound_ret {A} P (a : A) : sound (W := W) P (ret a).
Proof. intros s r s' E. injection E as <- <-. apply extends_refl. Qed.

Lemma sound_throw {A} P (message : string) : sound (W := W) (A := A) P (throw message).
Proof. intros s r s' E. injection E as <- <-. apply extends_refl. Qed.

Lemma sound_bind {A B} P (m : M (St W) A) (k : A -> M (St W) B) :
  sound P m -> (forall a, sound P (k a)) -> sound P (bind m k).
Proof.
  intros Hm Hk s r s' E. unfold bind in E.
  destruct (m s) as [[a | e] s1] eqn:E1.
  - eapply extends_trans; [eapply Hm | eapply Hk]; eauto.
  - injection E as <- <-. eapply Hm; eauto.
Qed.

Lemma sound_try {A} P (m : M (St W) A) (handler : string -> M (St W) A) :
  sound P m -> (forall e, sound P (handler e)) -> sound P (try_catch m handler).
Proof.
  intros Hm Hh s r s' E. unfold try_catch in E.
  destruct (m s) as [[a | e] s1] eqn:E1.
  - injection E as <- <-. eapply Hm; eauto.
  - eapply extends_trans; [eapply Hm | eapply Hh]; eauto.
Qed.

Lemma sound_emit P e : P e -> sound (W := W) P (emit e).
Proof. intros Pe s r s' E. injection E as <- <-. now apply extends_record. Qed.

Lemma sound_call {A} P e (f : W -> Outcome A * W) : P e -> sound P (call e f).
Proof.
  intros Pe s r s' E. unfold call in E. destruct (f (world s)) as [r0 w].
  injection E as <- <-.
  eapply extends_trans; [apply extends_at_world | now apply extends_record].
Qed.

Lemma sound_for_of {A} P (xs : list A) (body : A -> M (St W) unit) :
  (forall x, sound P (body x)) -> sound P (for_of xs body).
Proof.
  intros Hb. induction xs as [| x xs IH]; cbn.
  - apply sound_ret.
  - apply sound_bind; [apply Hb | intros _; exact IH].
Qed.

Lemma total_emit e : total (emit (W := W) e).
Proof. intros s. now exists tt, (record e s). Qed.

End Extension.

(** ** Discovery *)

Lemma includes_truthy s needle :
  Js.truthy needle = true -> Js.includes s needle = true -> Js.truthy s = true.
Proof.
  intros Hn. destruct s as [| ch rest]; [| reflexivity].
  destruct needle; [discriminate | cbn; discriminate].
Qed.

Lemma status_link_truthy article link :
  status_link article = Some link -> Js.truthy link = true.
Proof.
  unfold status_link. destruct (List.find _ _) as [a |]; [| discriminate].
  intros [= <-]. apply href_resolved.
Qed.

Lemma evaluate_skips excludeRetweets article :
  match socialContext article with
  | Some contextText =>
      is_pinned contextText || (excludeRetweets && is_repost contextText)
  | None => false
  end = negb (eligible excludeRetweets article).
Proof.
  unfold eligible. destruct (socialContext article) as [contextText |]; [| reflexivity].
  destruct (is_pinned contextText), excludeRetweets, (is_repost contextText); reflexivity.
Qed.

Lemma evaluate_first excludeRetweets articles :
  evaluate excludeRetweets articles
  = head (omap status_link (List.filter (eligible excludeRetweets) articles)).
Proof.
  induction articles as [| article rest IH]; [reflexivity |].
  cbn [evaluate List.filter]. rewrite evaluate_skips.
  destruct (eligible excludeRetweets article); cbn [negb]; [| exact IH].
  cbn [omap list_omap]. destruct (status_link article); [reflexivity | exact IH].
Qed.

Lemma evaluate_truthy excludeRetweets articles href :
  evaluate excludeRetweets articles = Some href -> Js.truthy href = true.
Proof.
  induction articles as [| article rest IH]; cbn [evaluate]; [discriminate |].
  destruct (match socialContext article with Some _ => _ | None => _ end); [exact IH |].
  destruct (status_link article) as [link |] eqn:Hlink; [| exact IH].
  intros [= <-]. eapply status_link_truthy; eauto.
Qed.

Lemma nonempty_evaluate excludeRetweets articles :
  nonempty (evaluate excludeRetweets articles) = evaluate excludeRetweets articles.
Proof.
  destruct (evaluate excludeRetweets articles) as [href |] eqn:E; [| reflexivity].
  cbn. now rewrite (evaluate_truthy _ _ _ E).
Qed.

Lemma legacy_evaluate articles : Legacy.evaluate articles = evaluate false articles.
Proof.
  induction articles as [| article rest IH]; [reflexivity |].
  cbn [Legacy.evaluate evaluate]. unfold Legacy.pinned, is_pinned.
  destruct (socialContext article) as [contextText |]; rewrite IH;
    [now rewrite andb_false_l, orb_false_r | reflexivity].
Qed.

Example discovery_on_profile :
  evaluate true Script.profile = Some "https://x.com/alice/status/3"
  /\ evaluate false Script.profile = Some "https://x.com/bob/status/2"
  /\ Legacy.evaluate Script.profile = Some "https://x.com/bob/status/2".
Proof. repeat split. Qed.

(** An animated picture that arrived becomes a video in the current
    [processTweet] and nothing in the one of [src/index.ts]. *)
Lemma legacy_drops_gif mediaUrl file :
  media_element {| url := mediaUrl; type := "gif" |} file
  = Some (h_video (data file) (mime file))
  /\ Legacy.media_element {| url := mediaUrl; type := "gif" |} file = None.
Proof. split; reflexivity. Qed.

(** C5, as the code has it.  On every page and for both settings of
    [excludeRetweets], the loop of the discovery passes over every article
    whose marker text holds [Pinned], whatever the setting, and, when
    [excludeRetweets] is set and only then, over every article whose marker
    text holds [Retweeted], [reposted] or [转推]; an article without the marker
    element passes both filters.  Among the articles that pass, the loop also
    passes over those that show no status link (no anchor whose [href]
    attribute holds [/status/]); it returns the address of the first status
    link of the first remaining article, in document order, and nothing when
    none remains.  The loop of [src/index.ts] is the same loop without the
    repost filter.  What the loop returns is what
    [getLatestTweetUrlByPuppeteer] returns once the page has loaded. *)
Theorem discovery_first_eligible_post {W : Type} (ctx : Collab W)
    (user cookie : string) (excludeRetweets : bool) (s : St W) :
  (forall articles,
     evaluate excludeRetweets articles
     = head (omap (fun article =>
                     option_map href
                       (List.find (fun a => Js.includes (href_attribute a) "/status/")
                          (anchors article)))
               (List.filter
                  (fun article =>
                     match socialContext article with
                     | Some contextText =>
                         negb (Js.includes contextText "Pinned")
                         && (if excludeRetweets
                             then negb (Js.includes contextText "Retweeted"
                                        || Js.includes contextText "reposted"
                                        || Js.includes contextText "转推")
                             else true)
                     | None => true
                     end)
                  articles)))
  /\ (forall articles,
        Legacy.evaluate articles
        = head (omap (fun article =>
                        option_map href
                          (List.find (fun a => Js.includes (href_attribute a) "/status/")
                             (anchors article)))
                  (List.filter
                     (fun article =>
                        match socialContext article with
                        | Some contextText => negb (Js.includes contextText "Pinned")
                        | None => true
                        end)
                     articles)))
  /\ getLatestTweetUrlByPuppeteer ctx user cookie excludeRetweets s
     = match puppeteer_articles ctx user cookie (world s) with
       | (Ok articles, w) =>
           match evaluate excludeRetweets articles with
           | Some link => (Ok (Some link), record (CallPage user) (at_world w s))
           | None =>
               (Ok None,
                record (Logged (WarnNoTweet user)) (record (CallPage user) (at_world w s)))
           end
       | (Throw error, w) => (Throw error, record (CallPage user) (at_world w s))
       end.
Proof.
  split; [| split].
  - intros articles. rewrite evaluate_first. reflexivity.
  - intros articles. rewrite legacy_evaluate, evaluate_first.
    f_equal. f_equal. apply List.filter_ext. intros article. unfold eligible.
    destruct (socialContext article) as [contextText |]; [| reflexivity].
    apply andb_true_r.
  - unfold getLatestTweetUrlByPuppeteer, bind, call.
    destruct (puppeteer_articles ctx user cookie (world s)) as [[articles | error] w];
      [| reflexivity].
    rewrite nonempty_evaluate. destruct (evaluate excludeRetweets articles); reflexivity.
Qed.

(** C5, the input on which the claim fails: the first post of the page has no
    marker, so it passes both filters, but it shows no status link; the
    discovery passes over it and returns the link of the post after it. *)
Lemma post_without_status_link_is_passed_over :
  socialContext {| socialContext := None; anchors := [Script.anchor "/erin"] |} = None
  /\ evaluate true
       [ {| socialContext := None; anchors := [Script.anchor "/erin"] |};
         {| socialContext := None; anchors := [Script.anchor "/erin/status/5"] |} ]
     = Some "https://x.com/erin/status/5"
  /\ evaluate false
       [ {| socialContext := None; anchors := [Script.anchor "/erin"] |};
         {| socialContext := None; anchors := [Script.anchor "/erin/status/5"] |} ]
     = Some "https://x.com/erin/status/5"
  /\ Legacy.evaluate
       [ {| socialContext := None; anchors := [Script.anchor "/erin"] |};
         {| socialContext := None; anchors := [Script.anchor "/erin/status/5"] |} ]
     = Some "https://x.com/erin/status/5".
Proof. repeat split. Qed.

(** ** Resolution *)

Section Resolution.

Context {W : Type}.
Variable ctx : Collab W.
Variable config : Config.

Lemma translateText_total text lang :
  Js.isWellFormed text = true -> total (translateText ctx text lang).
Proof.
  intros Hwell. unfold translateText. rewrite Hwell.
  destruct (negb (Js.truthy text)); [apply total_ret |]. cbn [negb].
  apply total_try. intros e. apply total_bind; [apply total_emit | intros _; apply total_ret].
Qed.

Lemma translateText_malformed text lang (s : St W) :
  Js.truthy text = true -> Js.isWellFormed text = false ->
  translateText ctx text lang s = (Throw Js.URIError, s).
Proof. intros Htruthy Hbad. unfold translateText. now rewrite Htruthy, Hbad. Qed.

Lemma translateText_sound b text lang :
  sound (resolver_event b) (translateText ctx text lang).
Proof.
  unfold translateText. destruct (negb (Js.truthy text)); [apply sound_ret |].
  destruct (negb (Js.isWellFormed text)); [apply sound_throw |].
  apply sound_try.
  - apply sound_bind; [now apply sound_call |].
    intros [items |]; apply sound_ret.
  - intros e. apply sound_bind; [now apply sound_emit | intros _; apply sound_ret].
Qed.

Lemma captureScreenshot_total tweetUrl options :
  total (captureScreenshot ctx config tweetUrl options).
Proof.
  unfold captureScreenshot. destruct (showScreenshot options); [| apply total_ret].
  apply total_try. intros e. apply total_ret.
Qed.

Lemma captureScreenshot_sound tweetUrl options :
  sound (resolver_event (showScreenshot options))
    (captureScreenshot ctx config tweetUrl options).
Proof.
  unfold captureScreenshot. destruct (showScreenshot options); [| apply sound_ret].
  apply sound_try.
  - apply sound_bind; [now apply sound_call |].
    intros [buffer |]; apply sound_ret.
  - intros e. apply sound_ret.
Qed.

Lemma metadataText_sound b options apiResponse textParts :
  sound (resolver_event b) (metadataText ctx options apiResponse textParts).
Proof.
  unfold metadataText.
  destruct (sendText options && _); [| apply sound_ret].
  destruct (Js.truthy_flag _); [| apply sound_ret].
  destruct (nonempty (targetLang options)) as [lang |]; [| apply sound_ret].
  apply sound_bind; [apply translateText_sound |].
  intros translated. destruct (nonempty translated); apply sound_ret.
Qed.

(** The loop over the media never throws: it requests every file once, in
    order, and keeps the elements of those that arrived. *)
Lemma downloadMedia_run medias : forall mediaParts s,
  downloadMedia ctx medias mediaParts s
  = (Ok (mediaParts ++ omap kept (fst (downloads ctx medias (world s)))),
     {| world := snd (downloads ctx medias (world s));
        db := db s;
        trace := trace s ++ map (fun media => CallFile (url media)) medias |}).
Proof.
  induction medias as [| media rest IH]; intros mediaParts s.
  - cbn. rewrite !app_nil_r. now destruct s.
  - cbn [downloadMedia downloads]. unfold bind at 1, try_catch, bind at 1, call.
    destruct (http_file ctx (url media) (world s)) as [[file | error] w1] eqn:Efile.
    + destruct (downloads ctx rest w1) as [rs w2] eqn:Erest.
      cbn [fst snd omap list_omap kept].
      destruct (media_element media file) as [element |]; cbn [ret];
        rewrite IH; cbn [world db trace record at_world]; rewrite Erest; cbn [fst snd];
        rewrite <- !app_assoc; reflexivity.
    + destruct (downloads ctx rest w1) as [rs w2] eqn:Erest.
      cbn [fst snd omap list_omap kept ret].
      rewrite IH; cbn [world db trace record at_world]; rewrite Erest; cbn [fst snd];
        rewrite <- !app_assoc; reflexivity.
Qed.

Lemma downloadMedia_total medias mediaParts : total (downloadMedia ctx medias mediaParts).
Proof. intros s. rewrite downloadMedia_run. eauto. Qed.

Lemma downloadMedia_sound b medias mediaParts :
  sound (resolver_event b) (downloadMedia ctx medias mediaParts).
Proof.
  intros s r s' E. rewrite downloadMedia_run in E. injection E as <- <-.
  split; [reflexivity |]. eexists. split; [reflexivity |].
  clear. induction medias; cbn; constructor; [exact I | assumption].
Qed.

Lemma collect_sound b tweetUrl options textParts screenshotElement :
  sound (resolver_event b) (collect ctx tweetUrl options textParts screenshotElement).
Proof.
  unfold collect. apply sound_bind; [now apply sound_call |]. intros apiResponse.
  apply sound_bind; [apply metadataText_sound |]. intros texts.
  apply sound_bind; [| intros; apply sound_ret].
  destruct (media_extended apiResponse) as [medias |]; [| apply sound_ret].
  destruct (sendMedia options); [apply downloadMedia_sound | apply sound_ret].
Qed.

Lemma processTweet_total tweetUrl options : total (processTweet ctx config tweetUrl options).
Proof.
  unfold processTweet. apply total_bind; [apply captureScreenshot_total |].
  intros screenshotElement. apply total_try. intros e.
  apply total_bind; [apply total_emit | intros _; apply total_ret].
Qed.

Lemma processTweet_sound tweetUrl options :
  sound (resolver_event (showScreenshot options)) (processTweet ctx config tweetUrl options).
Proof.
  unfold processTweet. apply sound_bind; [apply captureScreenshot_sound |].
  intros screenshotElement. apply sound_try.
  - apply sound_bind; [apply collect_sound | intros; apply sound_ret].
  - intros e. apply sound_bind; [now apply sound_emit | intros _; apply sound_ret].
Qed.

End Resolution.

Lemma prefix_append p t : String.prefix p (p +:+ t) = true.
Proof.
  induction p as [| ch p IH]; simpl; [now destruct t |].
  destruct (ascii_dec ch ch); [exact IH | congruence].
Qed.

Lemma metadata_line_not_link t :
  metadata_line t = true -> String.prefix "http" t = true -> False.
Proof.
  unfold metadata_line. destruct t as [| ch rest]; [discriminate |].
  intros Hline Hlink. cbn [String.prefix] in Hlink.
  destruct (ascii_dec "h" ch) as [<- |]; [| discriminate].
  cbn in Hline. discriminate.
Qed.

Section Lines.

Context {W : Type}.
Variable ctx : Collab W.

Lemma metadataText_lines options apiResponse textParts s texts s' :
  metadataText ctx options apiResponse textParts s = (Ok texts, s') ->
  exists added, texts = textParts ++ added /\ Forall (fun t => metadata_line t = true) added.
Proof.
  unfold metadataText.
  set (named := match nonempty (user_screen_name apiResponse) with
                | Some name => textParts ++ ["用户ID: " +:+ name]
                | None => textParts
                end).
  assert (Hnamed : exists added, named = textParts ++ added
                     /\ Forall (fun t => metadata_line t = true) added).
  { subst named. destruct (nonempty (user_screen_name apiResponse)) as [name |].
    - eexists. split; [reflexivity |]. constructor; [| constructor].
      unfold metadata_line. now rewrite prefix_append.
    - exists []. split; [now rewrite app_nil_r | constructor]. }
  destruct Hnamed as (added & -> & Hadded).
  assert (Hbody : forall body, metadata_line ("推文内容: " +:+ body) = true).
  { intros body. unfold metadata_line. now rewrite prefix_append, orb_true_r. }
  assert (Hblock : forall lang translated,
             metadata_line (Js.LF +:+ "【谷歌翻译 (" +:+ lang +:+ ")】:" +:+ Js.LF +:+ translated)
             = true).
  { intros lang translated. unfold metadata_line. now rewrite prefix_append, !orb_true_r. }
  destruct (sendText options && _).
  2: { intros [= <- <-]. eauto. }
  destruct (Js.truthy_flag _).
  2: { intros [= <- <-]. exists (added ++ ["推文内容: " +:+ default "" (nonempty (text apiResponse))]).
       rewrite app_assoc. split; [reflexivity |]. rewrite Forall_app. split; [exact Hadded |].
       constructor; [apply Hbody | constructor]. }
  destruct (nonempty (targetLang options)) as [lang |].
  2: { intros [= <- <-]. exists (added ++ ["推文内容: " +:+ default "" (nonempty (text apiResponse))]).
       rewrite app_assoc. split; [reflexivity |]. rewrite Forall_app. split; [exact Hadded |].
       constructor; [apply Hbody | constructor]. }
  unfold bind. destruct (translateText ctx _ lang s) as [[translated | e] s1]; [| discriminate].
  destruct (nonempty translated) as [block |]; intros [= <- <-].
  - eexists (added ++ [_; _]). rewrite <- !app_assoc. cbn [app]. split; [reflexivity |].
    rewrite Forall_app. split; [exact Hadded |].
    constructor; [apply Hbody | constructor; [apply Hblock | constructor]].
  - exists (added ++ ["推文内容: " +:+ default "" (nonempty (text apiResponse))]).
    rewrite app_assoc. split; [reflexivity |]. rewrite Forall_app. split; [exact Hadded |].
    constructor; [apply Hbody | constructor].
Qed.

Lemma collect_lines tweetUrl options textParts screenshotElement s texts media s' :
  collect ctx tweetUrl options textParts screenshotElement s = (Ok (texts, media), s') ->
  exists added, texts = textParts ++ added /\ Forall (fun t => metadata_line t = true) added.
Proof.
  unfold collect, bind at 1.
  destruct (call _ _ s) as [[apiResponse | e] s1]; [| discriminate].
  unfold bind at 1.
  destruct (metadataText ctx options apiResponse textParts s1) as [[lines | e] s2] eqn:Elines;
    [| discriminate].
  unfold bind.
  match goal with
  | |- context [match ?m s2 with _ => _ end] => destruct (m s2) as [[parts | e] s3]
  end; [| discriminate].
  intros [= <- <- <-]. eapply metadataText_lines; eauto.
Qed.

End Lines.

(** A resolution whose metadata arrived returns the composition of what was
    collected. *)
Lemma processTweet_collected {W : Type} (ctx : Collab W) (config : Config)
    (tweetUrl : string) (options : Options) (s s0 s1 : St W)
    (screenshotElement : option h) (texts : list string) (media : list h) :
  captureScreenshot ctx config tweetUrl options s = (Ok screenshotElement, s0) ->
  collect ctx tweetUrl options (seedLink tweetUrl options) screenshotElement s0
  = (Ok (texts, media), s1) ->
  processTweet ctx config tweetUrl options s = (Ok (compose ctx options texts media), s1).
Proof.
  intros Hshot Hcollect. unfold processTweet.
  rewrite (bind_ok _ _ _ _ _ Hshot).
  now rewrite (try_ok _ _ _ _ _ (bind_ok _ _ _ _ _ Hcollect)).
Qed.

(** ** Statements about the resolution *)

(** C1.  Whatever the link and the options, when the request to the metadata
    service throws, [processTweet] returns one string, the failure notice
    followed by the message of the error, and nothing else: the link seeded by
    [showLink] and a screenshot captured before the request are dropped.  The
    only traces of the attempt are the request and one warning. *)
Theorem fetch_failure_returns_notice {W : Type} (ctx : Collab W) (config : Config)
    (tweetUrl : string) (options : Options) (s : St W) (message : string) (w : W) :
  http_get ctx (Js.replace_host "api.vxtwitter.com" tweetUrl)
    (world (snd (captureScreenshot ctx config tweetUrl options s))) = (Throw message, w) ->
  processTweet ctx config tweetUrl options s
  = (Ok (RString ("获取推文内容失败: " +:+ message)),
     record (Logged (WarnApi message))
       (record (CallApi (Js.replace_host "api.vxtwitter.com" tweetUrl))
          (at_world w (snd (captureScreenshot ctx config tweetUrl options s))))).
Proof.
  intros Hget. unfold processTweet.
  destruct (captureScreenshot_total ctx config tweetUrl options s) as (shot & s1 & Eshot).
  rewrite Eshot in Hget |- *. cbn [snd] in *.
  rewrite (bind_ok _ _ _ _ _ Eshot).
  erewrite try_throw.
  - reflexivity.
  - apply bind_throw. unfold collect. apply bind_throw.
    unfold call. now rewrite Hget.
Qed.

Lemma fetch_failure_returns_notice_witness :
  processTweet Script.ctx (Script.config None) "https://x.com/dave/status/9"
    (pushOptions (Script.config None) "onebot") (Script.start ∅)
  = (Ok (RString "获取推文内容失败: Not Found"),
     {| world := tt; db := ∅;
        trace := [ CallScreenshot "https://x.com/dave/status/9";
                   CallApi "https://api.vxtwitter.com/dave/status/9";
                   Logged (WarnApi "Not Found") ] |}).
Proof.
  exact (fetch_failure_returns_notice Script.ctx (Script.config None)
           "https://x.com/dave/status/9" (pushOptions (Script.config None) "onebot")
           (Script.start ∅) "Not Found" tt eq_refl).
Defined.

(** C7.  With [showScreenshot] off, [processTweet] gives the same result and
    leaves the same state whatever the screenshot service would do, and none of
    the events it adds is a visit of the tweet page. *)
Theorem no_screenshot_no_capture {W : Type} (ctx : Collab W)
    (shot1 shot2 : string -> string -> W -> Outcome (option Buffer) * W)
    (config : Config) (tweetUrl : string) (options : Options) (s : St W) :
  showScreenshot options = false ->
  processTweet (with_screenshot shot1 ctx) config tweetUrl options s
  = processTweet (with_screenshot shot2 ctx) config tweetUrl options s
  /\ exists events,
       trace (snd (processTweet (with_screenshot shot1 ctx) config tweetUrl options s))
       = trace s ++ events
       /\ forall url, ~ In (CallScreenshot url) events.
Proof.
  intros Hoff. split.
  - unfold processTweet, captureScreenshot. rewrite Hoff. reflexivity.
  - destruct (processTweet (with_screenshot shot1 ctx) config tweetUrl options s)
      as [r s'] eqn:E.
    apply processTweet_sound in E as (_ & events & Htrace & Hevents).
    exists events. split; [exact Htrace |].
    intros url Hin. rewrite List.Forall_forall in Hevents.
    apply Hevents in Hin. cbn in Hin. congruence.
Qed.

Lemma no_screenshot_no_capture_witness :
  processTweet
    (with_screenshot (fun _ _ w => (Ok (Some Script.png), w)) Script.ctx)
    (Script.config None) "https://x.com/alice/status/3"
    {| showLink := Some false; showScreenshot := false; sendText := true;
       sendMedia := false; useForward := false; platform := Some "telegram";
       enableTranslation := Some false; targetLang := None |} (Script.start ∅)
  = processTweet
      (with_screenshot (fun _ _ w => (Throw "Navigation timeout", w)) Script.ctx)
      (Script.config None) "https://x.com/alice/status/3"
      {| showLink := Some false; showScreenshot := false; sendText := true;
         sendMedia := false; useForward := false; platform := Some "telegram";
         enableTranslation := Some false; targetLang := None |} (Script.start ∅).
Proof.
  exact (proj1 (no_screenshot_no_capture Script.ctx
                  (fun _ _ w => (Ok (Some Script.png), w))
                  (fun _ _ w => (Throw "Navigation timeout", w))
                  (Script.config None) "https://x.com/alice/status/3"
                  {| showLink := Some false; showScreenshot := false; sendText := true;
                     sendMedia := false; useForward := false; platform := Some "telegram";
                     enableTranslation := Some false; targetLang := None |}
                  (Script.start ∅) eq_refl)).
Defined.

(** C10.  The middleware builds its options with [showLink: false] whatever
    the configuration, so the message of a manual parse is composed from a text
    that never holds the link of the tweet: every line of it is written from
    the response.  The message of a push is composed from a text that starts
    with the link exactly when [sub_showLink] is on. *)
Theorem manual_parse_has_no_link {W : Type} (ctx : Collab W) (config : Config)
    (session_platform target_platform tweetUrl : string)
    (screenshotElement screenshotElement' : option h)
    (s sa sb s1 s2 : St W) (texts texts' : list string) (media media' : list h) :
  String.prefix "http" tweetUrl = true ->
  captureScreenshot ctx config tweetUrl (parseOptions config session_platform) s
  = (Ok screenshotElement, sa) ->
  collect ctx tweetUrl (parseOptions config session_platform)
    (seedLink tweetUrl (parseOptions config session_platform)) screenshotElement sa
  = (Ok (texts, media), s1) ->
  captureScreenshot ctx config tweetUrl (pushOptions config target_platform) s
  = (Ok screenshotElement', sb) ->
  collect ctx tweetUrl (pushOptions config target_platform)
    (seedLink tweetUrl (pushOptions config target_platform)) screenshotElement' sb
  = (Ok (texts', media'), s2) ->
  showLink (parseOptions config session_platform) = Some false
  /\ middleware ctx config (Some tweetUrl) session_platform s
     = (Ok (Some (compose ctx (parseOptions config session_platform) texts media)), s1)
  /\ ~ In tweetUrl texts
  /\ processTweet ctx config tweetUrl (pushOptions config target_platform) s
     = (Ok (compose ctx (pushOptions config target_platform) texts' media'), s2)
  /\ (head texts' = Some tweetUrl <-> sub_showLink config = true).
Proof.
  intros Hlink Hshot Hparse Hshot' Hpush. split; [reflexivity |].
  split.
  { unfold middleware.
    now rewrite (bind_ok _ _ _ _ _ (processTweet_collected _ _ _ _ _ _ _ _ _ _ Hshot Hparse)). }
  split; [| split; [exact (processTweet_collected _ _ _ _ _ _ _ _ _ _ Hshot' Hpush) |]].
  - apply collect_lines in Hparse as (added & -> & Hadded).
    cbn [seedLink parseOptions showLink Js.truthy_flag app].
    intros Hin. rewrite List.Forall_forall in Hadded.
    eapply metadata_line_not_link; eauto.
  - apply collect_lines in Hpush as (added' & -> & Hadded').
    unfold seedLink. cbn [pushOptions showLink Js.truthy_flag].
    destruct (sub_showLink config).
    + cbn. tauto.
    + cbn [app]. split; [| discriminate].
      intros Hhead. exfalso. rewrite List.Forall_forall in Hadded'.
      apply (metadata_line_not_link tweetUrl); [| exact Hlink].
      apply Hadded'. destruct added'; [discriminate | injection Hhead as ->; now left].
Qed.

Lemma manual_parse_has_no_link_witness :
  middleware Script.ctx (Script.config None) (Some "https://x.com/alice/status/3")
    "telegram" (Script.start ∅)
  = (Ok (Some (RString ("用户ID: alice" +:+ Js.LF +:+ "推文内容: hello"
                        +:+ Js.LF +:+ Js.LF +:+ "<img/>"
                        +:+ Js.LF +:+ Js.LF +:+ "<img/>"
                        +:+ Js.LF +:+ Js.LF +:+ "<video/>"))),
     {| world := tt; db := ∅;
        trace := [ CallScreenshot "https://x.com/alice/status/3";
                   CallApi "https://api.vxtwitter.com/alice/status/3";
                   CallFile "https://m/1.jpg"; CallFile "https://m/2.jpg";
                   CallFile "https://m/3.mp4" ] |})
  /\ processTweet Script.ctx (Script.config None) "https://x.com/alice/status/3"
       (pushOptions (Script.config None) "telegram") (Script.start ∅)
     = (Ok (RString ("https://x.com/alice/status/3" +:+ Js.LF
                     +:+ "用户ID: alice" +:+ Js.LF +:+ "推文内容: hello"
                     +:+ Js.LF +:+ Js.LF +:+ "<img/>"
                     +:+ Js.LF +:+ Js.LF +:+ "<img/>"
                     +:+ Js.LF +:+ Js.LF +:+ "<video/>")),
        {| world := tt; db := ∅;
           trace := [ CallScreenshot "https://x.com/alice/status/3";
                      CallApi "https://api.vxtwitter.com/alice/status/3";
                      CallFile "https://m/1.jpg"; CallFile "https://m/2.jpg";
                      CallFile "https://m/3.mp4" ] |}).
Proof.
  destruct (manual_parse_has_no_link Script.ctx (Script.config None) "telegram" "telegram"
              "https://x.com/alice/status/3" _ _ (Script.start ∅) _ _ _ _ _ _ _ _
              eq_refl eq_refl eq_refl eq_refl eq_refl)
    as (_ & Hmanual & _ & Hpushed & _).
  split; [exact Hmanual | exact Hpushed].
Defined.

(** ** One subscription *)

Section Entry.

Context {W : Type}.
Variable ctx : Collab W.
Variable config : Config.

Lemma getLatest_sound user excludeRetweets :
  sound discovery_event
    (getLatestTweetUrlByPuppeteer ctx user (cookie config) excludeRetweets).
Proof.
  unfold getLatestTweetUrlByPuppeteer. apply sound_bind; [now apply sound_call |].
  intros articles. destruct (nonempty _); [apply sound_ret |].
  apply sound_bind; [now apply sound_emit | intros _; apply sound_ret].
Qed.

Lemma getLatest_truthy user excludeRetweets s latestTweetUrl s1 :
  getLatestTweetUrlByPuppeteer ctx user (cookie config) excludeRetweets s
  = (Ok (Some latestTweetUrl), s1) ->
  Js.truthy latestTweetUrl = true.
Proof.
  unfold getLatestTweetUrlByPuppeteer, bind at 1.
  destruct (call _ _ s) as [[articles | e] s0]; [| discriminate].
  rewrite nonempty_evaluate.
  destruct (evaluate excludeRetweets articles) as [href |] eqn:E.
  - intros [= <- <-]. eapply evaluate_truthy; eauto.
  - cbn. discriminate.
Qed.

Lemma pushToGroups_sound groupIds messageToSend :
  sound (fun e => exists g, e = CallSend g messageToSend)
    (pushToGroups ctx groupIds messageToSend).
Proof.
  unfold pushToGroups. apply sound_for_of. intros g. apply sound_call. now exists g.
Qed.

Lemma lift_run {A} (m : M (St W) A) (f : PollFrame W) r s :
  m (heap f) = (r, s) -> lift m f = (r, {| heap := s; updatesFound := updatesFound f |}).
Proof. intros E. unfold lift. now rewrite E. Qed.

Lemma guard_well_formed sub :
  negb (Js.truthy (username sub)) || Nat.eqb (length (groupIds sub)) 0
  = negb (well_formed sub).
Proof.
  unfold well_formed. now destruct (Js.truthy _), (Nat.eqb _ 0).
Qed.

(** Every iteration returns, in one of the six ways of [EntryRun]. *)
Lemma pollSubscription_run bot isManualTrigger sub f :
  exists f', pollSubscription ctx config bot isManualTrigger sub f = (Ok tt, f')
             /\ EntryRun ctx config bot isManualTrigger sub f f'.
Proof.
  unfold pollSubscription. rewrite guard_well_formed.
  destruct (well_formed sub) eqn:Hwf; cbn [negb].
  2: { exists f. split; [reflexivity | now constructor]. }
  destruct (getLatestTweetUrlByPuppeteer ctx (username sub) (cookie config)
              (default true (excludeRetweets sub)) (heap f))
    as [[[latestTweetUrl |] | error] s1] eqn:Hfind.
  - pose proof (getLatest_truthy _ _ _ _ _ Hfind) as Htruthy.
    destruct (shouldPush (db s1 !! username sub) latestTweetUrl isManualTrigger) eqn:Hpush.
    + destruct (processTweet_total ctx config latestTweetUrl
                  (pushOptions config (bot_platform bot))
                  (record (Logged (InfoNewTweet (username sub))) s1))
        as (messageToSend & s2 & Hresolve).
      destruct (pushToGroups ctx (groupIds sub) messageToSend s2)
        as [[[] | error] s3] eqn:Hsend.
      * eexists. split; [| eapply run_pushed; eauto].
        unfold checkSubscription, bind at 1, try_catch, bind at 1.
        rewrite (lift_run _ _ _ _ Hfind). cbn [nonempty]. rewrite Htruthy.
        unfold bind at 1, lift at 1, database_get. cbn [heap updatesFound].
        rewrite Hpush.
        unfold bind at 1, increment. cbn [heap updatesFound].
        unfold bind at 1, lift at 1, emit. cbn [heap updatesFound].
        unfold bind at 1. erewrite lift_run by (cbn [heap]; exact Hresolve).
        unfold bind at 1. erewrite lift_run by (cbn [heap]; exact Hsend).
        cbn [heap updatesFound].
        destruct (isNew (db s1 !! username sub) latestTweetUrl); reflexivity.
      * eexists. split; [| eapply run_dispatch_failed; eauto].
        unfold checkSubscription, bind at 1, try_catch, bind at 1.
        rewrite (lift_run _ _ _ _ Hfind). cbn [nonempty]. rewrite Htruthy.
        unfold bind at 1, lift at 1, database_get. cbn [heap updatesFound].
        rewrite Hpush.
        unfold bind at 1, increment. cbn [heap updatesFound].
        unfold bind at 1, lift at 1, emit. cbn [heap updatesFound].
        unfold bind at 1. erewrite lift_run by (cbn [heap]; exact Hresolve).
        unfold bind at 1. erewrite lift_run by (cbn [heap]; exact Hsend).
        reflexivity.
    + eexists. split; [| eapply run_unchanged; eauto].
      unfold checkSubscription, bind at 1, try_catch, bind at 1.
      rewrite (lift_run _ _ _ _ Hfind). cbn [nonempty]. rewrite Htruthy.
      unfold bind at 1, lift at 1, database_get. cbn [heap updatesFound].
      rewrite Hpush. reflexivity.
  - eexists. split; [| eapply run_nothing_found; eauto].
    unfold checkSubscription, bind at 1, try_catch, bind at 1.
    rewrite (lift_run _ _ _ _ Hfind). reflexivity.
  - eexists. split; [| eapply run_discovery_failed; eauto].
    unfold checkSubscription, bind at 1, try_catch, bind at 1.
    rewrite (lift_run _ _ _ _ Hfind). reflexivity.
Qed.

End Entry.

(** ** The cycle *)

Lemma pushes_app events1 events2 :
  pushes (events1 ++ events2) = pushes events1 + pushes events2.
Proof. unfold pushes. now rewrite List.filter_app, length_app. Qed.

Lemma pushes_none (P : Event -> Prop) events :
  (forall e, P e -> is_push e = false) -> Forall P events -> pushes events = 0.
Proof.
  intros HP Hall. unfold pushes. induction Hall as [| e rest He _ IH]; [reflexivity |].
  cbn. now rewrite (HP e He).
Qed.

Lemma isNew_spec lastUrl latestTweetUrl :
  Js.truthy latestTweetUrl = true ->
  isNew lastUrl latestTweetUrl = true <-> lastUrl = None \/ lastUrl <> Some latestTweetUrl.
Proof.
  intros Htruthy. unfold isNew. rewrite orb_true_iff, !negb_true_iff, bool_decide_eq_false.
  split.
  - intros [Hfalsy | Hdiff]; [| now right].
    destruct lastUrl as [last |]; [right | now left].
    intros [= ->]. cbn in Hfalsy. congruence.
  - intros [-> | Hdiff]; [now left | now right].
Qed.

Lemma isNew_same latestTweetUrl :
  Js.truthy latestTweetUrl = true -> isNew (Some latestTweetUrl) latestTweetUrl = false.
Proof.
  intros Htruthy. unfold isNew. cbn. rewrite Htruthy. cbn.
  now rewrite bool_decide_eq_true_2.
Qed.

Section Cycles.

Context {W : Type}.
Variable ctx : Collab W.
Variable config : Config.

Lemma quiet_extension (P : Event -> Prop) (s s' : St W) :
  (forall e, P e -> is_push e = false) -> extends P s s' ->
  db s' = db s /\ exists events, trace s' = trace s ++ events /\ pushes events = 0.
Proof.
  intros HP (Hdb & events & Htrace & Hall). split; [exact Hdb |].
  exists events. split; [exact Htrace | eapply pushes_none; eauto].
Qed.

Lemma discovery_quiet user excludeRetweets (s : St W) r s' :
  getLatestTweetUrlByPuppeteer ctx user (cookie config) excludeRetweets s = (r, s') ->
  db s' = db s /\ exists events, trace s' = trace s ++ events /\ pushes events = 0.
Proof.
  intros E. apply getLatest_sound in E. eapply quiet_extension; [| exact E].
  intros [] He; try reflexivity; try contradiction.
  destruct line; try reflexivity; contradiction.
Qed.

Lemma resolution_quiet tweetUrl options (s : St W) r s' :
  processTweet ctx config tweetUrl options s = (r, s') ->
  db s' = db s /\ exists events, trace s' = trace s ++ events /\ pushes events = 0.
Proof.
  intros E. apply processTweet_sound in E. eapply quiet_extension; [| exact E].
  intros [] He; try reflexivity; try contradiction.
  destruct line; try reflexivity; contradiction.
Qed.

Lemma dispatch_quiet groupIds messageToSend (s : St W) r s' :
  pushToGroups ctx groupIds messageToSend s = (r, s') ->
  db s' = db s /\ exists events, trace s' = trace s ++ events /\ pushes events = 0.
Proof.
  intros E. apply pushToGroups_sound in E. eapply quiet_extension; [| exact E].
  intros e [g ->]. reflexivity.
Qed.

Lemma dispatch_first g rest messageToSend (s : St W) r s' :
  pushToGroups ctx (g :: rest) messageToSend s = (r, s') ->
  exists more, trace s' = trace s ++ CallSend g messageToSend :: more.
Proof.
  unfold pushToGroups. cbn [for_of]. unfold bind, call.
  destruct (sendMessage ctx g messageToSend (world s)) as [[[] | error] w].
  - intros E. apply (pushToGroups_sound ctx rest messageToSend) in E
      as (_ & more & Htrace & _).
    exists more. rewrite Htrace. cbn. now rewrite <- app_assoc.
  - intros [= <- <-]. now exists [].
Qed.

(** What an iteration does to the table: nothing, or it stores the link just
    found for its own user, and then the link was new. *)
Lemma entry_table bot isManualTrigger sub f f' :
  EntryRun ctx config bot isManualTrigger sub f f' ->
  db (heap f') = db (heap f)
  \/ exists latestTweetUrl s1,
       getLatestTweetUrlByPuppeteer ctx (username sub) (cookie config)
         (default true (excludeRetweets sub)) (heap f) = (Ok (Some latestTweetUrl), s1)
       /\ isNew (db (heap f) !! username sub) latestTweetUrl = true
       /\ db (heap f') = <[username sub := latestTweetUrl]> (db (heap f)).
Proof.
  intros [
    | error s1 _ Hfind
    | s1 _ Hfind
    | latestTweetUrl s1 _ Hfind _
    | latestTweetUrl s1 messageToSend s2 s3 _ Hfind _ Hresolve Hsend
    | latestTweetUrl s1 messageToSend s2 error s3 _ Hfind _ Hresolve Hsend ];
    cbn [heap db record];
    try (left; reflexivity);
    try (pose proof (discovery_quiet _ _ _ _ _ Hfind) as [Hdb _]);
    try (left; exact Hdb).
  - apply resolution_quiet in Hresolve as [Hdb2 _].
    apply dispatch_quiet in Hsend as [Hdb3 _]. cbn [db record] in Hdb2.
    rewrite Hdb in *.
    destruct (isNew (db (heap f) !! username sub) latestTweetUrl) eqn:Hnew.
    + right. exists latestTweetUrl, s1. split; [exact Hfind |].
      split; [exact Hnew |]. cbn. congruence.
    + left. congruence.
  - apply resolution_quiet in Hresolve as [Hdb2 _].
    apply dispatch_quiet in Hsend as [Hdb3 _]. cbn [db record] in Hdb2.
    left. congruence.
Qed.

(** What an iteration does to the counter: it grows by the number of pushes
    decided, which the trace shows. *)
Lemma entry_count bot isManualTrigger sub f f' :
  EntryRun ctx config bot isManualTrigger sub f f' ->
  exists events, trace (heap f') = trace (heap f) ++ events
                 /\ updatesFound f' = updatesFound f + pushes events.
Proof.
  intros [
    | error s1 _ Hfind
    | s1 _ Hfind
    | latestTweetUrl s1 _ Hfind _
    | latestTweetUrl s1 messageToSend s2 s3 _ Hfind _ Hresolve Hsend
    | latestTweetUrl s1 messageToSend s2 error s3 _ Hfind _ Hresolve Hsend ];
    cbn [heap updatesFound trace record];
    try (exists []; split; [now rewrite app_nil_r | cbn; lia]);
    apply discovery_quiet in Hfind as (_ & ev1 & Ht1 & Hq1).
  - eexists. rewrite Ht1, <- !app_assoc. split; [reflexivity |].
    rewrite pushes_app, Hq1. cbn. lia.
  - eexists. rewrite Ht1, <- !app_assoc. split; [reflexivity |].
    rewrite pushes_app, Hq1. cbn. lia.
  - eexists. rewrite Ht1, <- !app_assoc. split; [reflexivity |].
    rewrite pushes_app, Hq1. cbn. lia.
  - apply resolution_quiet in Hresolve as (_ & ev2 & Ht2 & Hq2).
    apply dispatch_quiet in Hsend as (_ & ev3 & Ht3 & Hq3).
    cbn [trace record] in Ht2.
    exists (ev1 ++ [Logged (InfoNewTweet (username sub))] ++ ev2 ++ ev3
            ++ [CallSleep (3 * Time_second)]).
    split.
    + destruct (isNew _ _); cbn [trace stored]; rewrite Ht3, Ht2, Ht1, <- !app_assoc;
        reflexivity.
    + rewrite !pushes_app, Hq1, Hq2, Hq3. cbn. lia.
  - apply resolution_quiet in Hresolve as (_ & ev2 & Ht2 & Hq2).
    apply dispatch_quiet in Hsend as (_ & ev3 & Ht3 & Hq3).
    cbn [trace record] in Ht2.
    exists (ev1 ++ [Logged (InfoNewTweet (username sub))] ++ ev2 ++ ev3
            ++ [Logged (WarnCheck (username sub) error)]
            ++ [CallSleep (3 * Time_second)]).
    split.
    + rewrite Ht3, Ht2, Ht1, <- !app_assoc. reflexivity.
    + rewrite !pushes_app, Hq1, Hq2, Hq3. cbn. lia.
Qed.

Lemma for_of_app {S A} (xs ys : list A) (body : A -> M S unit) (f : S) :
  for_of (xs ++ ys) body f = bind (for_of xs body) (fun _ => for_of ys body) f.
Proof.
  revert f. induction xs as [| x xs IH]; intros f; [reflexivity |].
  cbn [app for_of]. unfold bind.
  destruct (body x f) as [[[] | e] f1]; [| reflexivity].
  rewrite IH. reflexivity.
Qed.

(** The loop returns: a failed iteration never stops it. *)
Lemma cycle_run bot isManualTrigger subs : forall f,
  exists f', for_of subs (pollSubscription ctx config bot isManualTrigger) f = (Ok tt, f')
             /\ CycleRun ctx config bot isManualTrigger subs f f'.
Proof.
  induction subs as [| sub rest IH]; intros f.
  - exists f. split; [reflexivity | constructor].
  - destruct (pollSubscription_run ctx config bot isManualTrigger sub f) as (f1 & E1 & R1).
    destruct (IH f1) as (f2 & E2 & R2).
    exists f2. split; [| econstructor; eauto].
    cbn [for_of]. now rewrite (bind_ok _ _ _ _ _ E1).
Qed.

Lemma cycle_frame bot isManualTrigger subs f f' k :
  CycleRun ctx config bot isManualTrigger subs f f' ->
  ~ In k (map username subs) ->
  db (heap f') !! k = db (heap f) !! k.
Proof.
  induction 1 as [| sub rest f f1 f2 Hentry _ IH]; intros Hout; [reflexivity |].
  cbn [map] in Hout. rewrite IH by (intros Hin; apply Hout; now right).
  destruct (entry_table _ _ _ _ _ Hentry) as [-> | (url & s0 & _ & _ & ->)]; [reflexivity |].
  apply lookup_insert_ne. intros <-. apply Hout. now left.
Qed.

Lemma cycle_keeps bot isManualTrigger subs f f' k :
  CycleRun ctx config bot isManualTrigger subs f f' ->
  is_Some (db (heap f) !! k) -> is_Some (db (heap f') !! k).
Proof.
  induction 1 as [| sub rest f f1 f2 Hentry _ IH]; intros Hin; [exact Hin |].
  apply IH.
  destruct (entry_table _ _ _ _ _ Hentry) as [-> | (url & s0 & _ & _ & ->)]; [exact Hin |].
  destruct (decide (username sub = k)) as [<- | Hne].
  - rewrite lookup_insert_eq. eauto.
  - now rewrite lookup_insert_ne.
Qed.

Lemma cycle_count bot isManualTrigger subs f f' :
  CycleRun ctx config bot isManualTrigger subs f f' ->
  exists events, trace (heap f') = trace (heap f) ++ events
                 /\ updatesFound f' = updatesFound f + pushes events.
Proof.
  induction 1 as [f | sub rest f f1 f2 Hentry _ IH].
  - exists []. split; [now rewrite app_nil_r | cbn; lia].
  - destruct (entry_count _ _ _ _ _ Hentry) as (ev1 & Ht1 & Hc1).
    destruct IH as (ev2 & Ht2 & Hc2).
    exists (ev1 ++ ev2). split; [now rewrite Ht2, Ht1, app_assoc |].
    rewrite pushes_app. lia.
Qed.

End Cycles.

(** ** Statements about the cycle *)

(** The loop over the groups, by its outcome. *)
Lemma pushToGroups_run {W : Type} (ctx : Collab W)
    (groupIds : list string) (messageToSend : Reply) (s : St W) :
  db (snd (pushToGroups ctx groupIds messageToSend s)) = db s
  /\ match fst (pushToGroups ctx groupIds messageToSend s) with
     | Ok _ =>
         trace (snd (pushToGroups ctx groupIds messageToSend s))
         = trace s ++ map (fun g => CallSend g messageToSend) groupIds
     | Throw error =>
         exists before g after w,
           groupIds = before ++ g :: after
           /\ sendMessage ctx g messageToSend w
              = (Throw error, world (snd (pushToGroups ctx groupIds messageToSend s)))
           /\ trace (snd (pushToGroups ctx groupIds messageToSend s))
              = trace s ++ map (fun g => CallSend g messageToSend) (before ++ [g])
     end.
Proof.
  revert s. induction groupIds as [| g rest IH]; intros s.
  - cbn. split; [reflexivity | now rewrite app_nil_r].
  - unfold pushToGroups. cbn [for_of]. unfold bind, call.
    destruct (sendMessage ctx g messageToSend (world s)) as [[[] | error] w] eqn:Esend.
    + specialize (IH (record (CallSend g messageToSend) (at_world w s))).
      unfold pushToGroups in IH. destruct IH as [Hdb Hrest]. split; [exact Hdb |].
      destruct (for_of rest _ _) as [[[] | error] s'] eqn:Erest; cbn [fst snd] in *.
      * rewrite Hrest. cbn. now rewrite <- app_assoc.
      * destruct Hrest as (before & g' & after & w' & -> & Hfail & Htrace).
        exists (g :: before), g', after, w'. split; [reflexivity |].
        split; [exact Hfail |]. rewrite Htrace. cbn. now rewrite <- app_assoc.
    + cbn [fst snd]. split; [reflexivity |].
      exists [], g, rest, (world s). split; [reflexivity |].
      split; [exact Esend | reflexivity].
Qed.

(** Once the push is decided and the message resolved, the iteration ends in
    one of two ways, by the outcome of the loop over the groups. *)
Lemma pollSubscription_after_resolution {W : Type} (ctx : Collab W) (config : Config)
    (bot : Bot) (isManualTrigger : bool) (sub : Subscription) (f : PollFrame W)
    (latestTweetUrl : string) (s1 : St W) (messageToSend : Reply) (s2 : St W) :
  well_formed sub = true ->
  getLatestTweetUrlByPuppeteer ctx (username sub) (cookie config)
    (default true (excludeRetweets sub)) (heap f) = (Ok (Some latestTweetUrl), s1) ->
  shouldPush (db s1 !! username sub) latestTweetUrl isManualTrigger = true ->
  processTweet ctx config latestTweetUrl (pushOptions config (bot_platform bot))
    (record (Logged (InfoNewTweet (username sub))) s1) = (Ok messageToSend, s2) ->
  pollSubscription ctx config bot isManualTrigger sub f
  = match pushToGroups ctx (groupIds sub) messageToSend s2 with
    | (Ok _, s3) =>
        (Ok tt,
         {| heap := record (CallSleep (3 * Time_second))
                      (if isNew (db s1 !! username sub) latestTweetUrl
                       then stored (username sub) latestTweetUrl s3 else s3);
            updatesFound := S (updatesFound f) |})
    | (Throw error, s3) =>
        (Ok tt,
         {| heap := record (CallSleep (3 * Time_second))
                      (record (Logged (WarnCheck (username sub) error)) s3);
            updatesFound := S (updatesFound f) |})
    end.
Proof.
  intros Hwf Hfind Hpush Hresolve.
  destruct (pollSubscription_run ctx config bot isManualTrigger sub f) as (f' & -> & Hhow).
  destruct Hhow as [ Hbad
    | error s1' _ Hfind'
    | s1' _ Hfind'
    | url s1' _ Hfind' Hpush'
    | url s1' message s2' s3 _ Hfind' Hpush' Hresolve' Hsend
    | url s1' message s2' error s3 _ Hfind' Hpush' Hresolve' Hsend ];
    try congruence;
    rewrite Hfind in Hfind'; injection Hfind' as <- <-; try congruence;
    rewrite Hresolve in Hresolve'; injection Hresolve' as <- <-;
    now rewrite Hsend.
Qed.

(** C2, as the code has it.  For a subscription whose push was decided and
    whose message was resolved, the loop over its groups sends to them in order
    and has no [try] of its own.  When no dispatch throws, every group has been
    sent to, in order, and the iteration ends as usual.  When one throws, the
    groups before it have been sent to, it has been tried, and the groups
    after it have not: the error leaves the loop and is caught by the [catch]
    of the iteration, which logs it; the table is as it was before the
    iteration, the counter has grown all the same, and the iteration returns,
    so the subscriptions that follow are still checked. *)
Theorem dispatch_stops_at_first_failure {W : Type} (ctx : Collab W) (config : Config)
    (bot : Bot) (isManualTrigger : bool) (sub : Subscription) (f : PollFrame W)
    (latestTweetUrl : string) (s1 : St W) (messageToSend : Reply) (s2 : St W) :
  well_formed sub = true ->
  getLatestTweetUrlByPuppeteer ctx (username sub) (cookie config)
    (default true (excludeRetweets sub)) (heap f) = (Ok (Some latestTweetUrl), s1) ->
  shouldPush (db s1 !! username sub) latestTweetUrl isManualTrigger = true ->
  processTweet ctx config latestTweetUrl (pushOptions config (bot_platform bot))
    (record (Logged (InfoNewTweet (username sub))) s1) = (Ok messageToSend, s2) ->
  match pushToGroups ctx (groupIds sub) messageToSend s2 with
  | (Ok _, s3) =>
      trace s3 = trace s2 ++ map (fun g => CallSend g messageToSend) (groupIds sub)
      /\ pollSubscription ctx config bot isManualTrigger sub f
         = (Ok tt,
            {| heap := record (CallSleep (3 * Time_second))
                         (if isNew (db s1 !! username sub) latestTweetUrl
                          then stored (username sub) latestTweetUrl s3 else s3);
               updatesFound := S (updatesFound f) |})
  | (Throw error, s3) =>
      (exists before g after w,
         groupIds sub = before ++ g :: after
         /\ sendMessage ctx g messageToSend w = (Throw error, world s3)
         /\ trace s3
            = trace s2 ++ map (fun g => CallSend g messageToSend) (before ++ [g]))
      /\ db s3 = db (heap f)
      /\ pollSubscription ctx config bot isManualTrigger sub f
         = (Ok tt,
            {| heap := record (CallSleep (3 * Time_second))
                         (record (Logged (WarnCheck (username sub) error)) s3);
               updatesFound := S (updatesFound f) |})
  end.
Proof.
  intros Hwf Hfind Hpush Hresolve.
  pose proof (pollSubscription_after_resolution ctx config bot isManualTrigger sub f
                latestTweetUrl s1 messageToSend s2 Hwf Hfind Hpush Hresolve) as Hrun.
  destruct (pushToGroups_run ctx (groupIds sub) messageToSend s2) as [Hdb Hhow].
  destruct (pushToGroups ctx (groupIds sub) messageToSend s2) as [[[] | error] s3];
    cbn [fst snd] in Hdb, Hhow.
  - split; [exact Hhow | exact Hrun].
  - split; [exact Hhow |]. split; [| exact Hrun].
    rewrite Hdb.
    apply (processTweet_sound ctx config) in Hresolve as [-> _]. cbn [db record].
    now apply (getLatest_sound ctx config) in Hfind as [-> _].
Qed.

Lemma dispatch_stops_at_first_failure_witness :
  pollSubscription Script.ctx (Script.config None) Runs.online_bot false Runs.carol
    (Runs.frame ∅)
  = (Ok tt,
     {| heap :=
          {| world := tt; db := ∅;
             trace :=
               [ CallPage "carol"; Logged (InfoNewTweet "carol");
                 CallScreenshot "https://x.com/carol/status/7";
                 CallApi "https://api.vxtwitter.com/carol/status/7";
                 CallFile "https://m/7.bin";
                 CallSend "g1"
                   (RFigure [ FText ("https://x.com/carol/status/7" +:+ Js.LF
                                     +:+ "用户ID: carol");
                              FElem (h_image Script.png "image/png") ]);
                 Logged (WarnCheck "carol" "send failed");
                 CallSleep 3000 ] |};
        updatesFound := 1 |}).
Proof.
  exact (proj2 (proj2 (dispatch_stops_at_first_failure Script.ctx (Script.config None)
                         Runs.online_bot false Runs.carol (Runs.frame ∅)
                         "https://x.com/carol/status/7" _ _ _
                         eq_refl eq_refl eq_refl eq_refl))).
Defined.

(** C2, the input on which the claim fails: the push for [carol] is decided,
    the dispatch to her first group throws, and her second group is never sent
    to. *)
Lemma failed_dispatch_blocks_later_groups :
  pushes (trace (snd Runs.blocked)) = 1
  /\ existsb (sent_to "g1") (trace (snd Runs.blocked)) = true
  /\ existsb (sent_to "g2") (trace (snd Runs.blocked)) = false.
Proof. repeat split; vm_compute; reflexivity. Qed.

Section CycleStatements.

Context {W : Type}.
Variable ctx : Collab W.
Variable config : Config.

Lemma shouldPush_spec lastUrl latestTweetUrl isManualTrigger :
  Js.truthy latestTweetUrl = true ->
  shouldPush lastUrl latestTweetUrl isManualTrigger
  = isNew lastUrl latestTweetUrl || isManualTrigger.
Proof. intros Htruthy. unfold shouldPush. now rewrite Htruthy, andb_true_r. Qed.

Lemma well_formed_first sub :
  well_formed sub = true -> exists g rest, groupIds sub = g :: rest.
Proof.
  unfold well_formed. destruct (groupIds sub) as [| g rest]; [| eauto].
  now rewrite andb_false_r.
Qed.

(** What a well-formed subscription whose latest tweet was found does. *)
Lemma entry_decision bot isManualTrigger sub (f f' : PollFrame W) latestTweetUrl s1 :
  well_formed sub = true ->
  getLatestTweetUrlByPuppeteer ctx (username sub) (cookie config)
    (default true (excludeRetweets sub)) (heap f) = (Ok (Some latestTweetUrl), s1) ->
  EntryRun ctx config bot isManualTrigger sub f f' ->
  if isNew (db (heap f) !! username sub) latestTweetUrl || isManualTrigger
  then updatesFound f' = S (updatesFound f)
       /\ (db (heap f') = db (heap f)
           \/ isNew (db (heap f) !! username sub) latestTweetUrl = true)
       /\ exists messageToSend s2 g more,
            processTweet ctx config latestTweetUrl (pushOptions config (bot_platform bot))
              (record (Logged (InfoNewTweet (username sub))) s1) = (Ok messageToSend, s2)
            /\ head (groupIds sub) = Some g
            /\ trace (heap f') = trace s2 ++ CallSend g messageToSend :: more
  else f' = {| heap := record (CallSleep (3 * Time_second)) s1;
               updatesFound := updatesFound f |}
       /\ db (heap f') = db (heap f).
Proof.
  intros Hwf Hfind Hrun.
  pose proof (getLatest_truthy _ _ _ _ _ _ _ Hfind) as Htruthy.
  pose proof (discovery_quiet _ _ _ _ _ _ _ Hfind) as [Hdb1 _].
  destruct (well_formed_first _ Hwf) as (g & rest & Hgroups).
  destruct Hrun as [ Hbad
    | error s1' _ Hfind'
    | s1' _ Hfind'
    | url s1' _ Hfind' Hpush
    | url s1' messageToSend s2 s3 _ Hfind' Hpush Hresolve Hsend
    | url s1' messageToSend s2 error s3 _ Hfind' Hpush Hresolve Hsend ];
    try congruence;
    rewrite Hfind in Hfind'; injection Hfind' as <- <-;
    rewrite (shouldPush_spec _ _ _ Htruthy), Hdb1 in Hpush; rewrite Hpush.
  - split; [reflexivity |]. cbn [heap db record]. exact Hdb1.
  - split; [reflexivity |].
    pose proof (resolution_quiet _ _ _ _ _ _ _ Hresolve) as [Hdb2 _].
    pose proof (dispatch_quiet _ _ _ _ _ _ Hsend) as [Hdb3 _].
    cbn [db record] in Hdb2. split.
    + cbn [heap db record]. rewrite Hdb1.
      destruct (isNew (db (heap f) !! username sub) latestTweetUrl); [now right |].
      left. congruence.
    + exists messageToSend, s2, g. rewrite Hgroups in Hsend |- *.
      destruct (dispatch_first _ _ _ _ _ _ _ Hsend) as (more & Htrace).
      exists (more ++ [CallSleep (3 * Time_second)]).
      split; [exact Hresolve |]. split; [reflexivity |].
      cbn [heap]. destruct (isNew (db s1 !! username sub) latestTweetUrl);
        cbn [trace record stored]; rewrite Htrace, <- app_assoc; reflexivity.
  - split; [reflexivity |].
    pose proof (resolution_quiet _ _ _ _ _ _ _ Hresolve) as [Hdb2 _].
    pose proof (dispatch_quiet _ _ _ _ _ _ Hsend) as [Hdb3 _].
    cbn [db record] in Hdb2. split.
    + left. cbn [heap db record]. congruence.
    + exists messageToSend, s2, g. rewrite Hgroups in Hsend |- *.
      destruct (dispatch_first _ _ _ _ _ _ _ Hsend) as (more & Htrace).
      exists (more ++ [Logged (WarnCheck (username sub) error); CallSleep (3 * Time_second)]).
      split; [exact Hresolve |]. split; [reflexivity |].
      cbn [heap trace record]. rewrite Htrace, <- !app_assoc. reflexivity.
Qed.

End CycleStatements.

(** The three scenarios of the dedup cursor: a first tweet is pushed and
    stored, the same tweet is not pushed again by a scheduled run, and a manual
    run pushes it once more without touching the table. *)
Example cursor_scenarios :
  (fst Runs.first = Ok None
   /\ pushes (trace (snd Runs.first)) = 1
   /\ db (snd Runs.first) = Runs.seen)
  /\ (fst Runs.second = Ok None
      /\ trace (snd Runs.second) = [CallPage "alice"; CallSleep 3000]
      /\ db (snd Runs.second) = Runs.seen)
  /\ (fst Runs.third = Ok (Some (summary 1))
      /\ existsb (sent_to "g2") (trace (snd Runs.third)) = true
      /\ existsb (sent_to "g3") (trace (snd Runs.third)) = true
      /\ db (snd Runs.third) = Runs.seen).
Proof. repeat split; vm_compute; reflexivity. Qed.

(** C4.  For a well-formed subscription whose latest tweet was found, [isNew]
    holds exactly when the table has no link for the user or has another one.
    When [isNew] holds or the run is manual, the push takes place: the counter
    grows by one, the tweet is resolved with the options of a push and the
    message is sent to the first group at least; the table changes only if
    [isNew] holds.  Otherwise nothing happens but the pause of three seconds:
    no resolution, no dispatch, the counter and the table as they were. *)
Theorem push_iff_new_or_forced {W : Type} (ctx : Collab W) (config : Config) (bot : Bot)
    (isManualTrigger : bool) (sub : Subscription) (f : PollFrame W)
    (latestTweetUrl : string) (s1 : St W) :
  well_formed sub = true ->
  getLatestTweetUrlByPuppeteer ctx (username sub) (cookie config)
    (default true (excludeRetweets sub)) (heap f) = (Ok (Some latestTweetUrl), s1) ->
  (isNew (db (heap f) !! username sub) latestTweetUrl = true
   <-> db (heap f) !! username sub = None
       \/ db (heap f) !! username sub <> Some latestTweetUrl)
  /\ exists f',
       pollSubscription ctx config bot isManualTrigger sub f = (Ok tt, f')
       /\ if isNew (db (heap f) !! username sub) latestTweetUrl || isManualTrigger
          then updatesFound f' = S (updatesFound f)
               /\ (db (heap f') = db (heap f)
                   \/ isNew (db (heap f) !! username sub) latestTweetUrl = true)
               /\ exists messageToSend s2 g more,
                    processTweet ctx config latestTweetUrl
                      (pushOptions config (bot_platform bot))
                      (record (Logged (InfoNewTweet (username sub))) s1)
                    = (Ok messageToSend, s2)
                    /\ head (groupIds sub) = Some g
                    /\ trace (heap f') = trace s2 ++ CallSend g messageToSend :: more
          else f' = {| heap := record (CallSleep (3 * Time_second)) s1;
                       updatesFound := updatesFound f |}
               /\ db (heap f') = db (heap f).
Proof.
  intros Hwf Hfind. split.
  - apply isNew_spec. eapply getLatest_truthy; eauto.
  - destruct (pollSubscription_run ctx config bot isManualTrigger sub f) as (f' & Hrun & Hhow).
    exists f'. split; [exact Hrun |]. eapply entry_decision; eauto.
Qed.

Lemma push_iff_new_or_forced_witness :
  well_formed Runs.alice = true
  /\ exists f',
       pollSubscription Script.ctx (Script.config None) Runs.online_bot false Runs.alice
         (Runs.frame Runs.seen) = (Ok tt, f')
       /\ f' = {| heap := record (CallSleep 3000)
                            (record (CallPage "alice") (Script.start Runs.seen));
                  updatesFound := 0 |}.
Proof.
  split; [reflexivity |].
  destruct (push_iff_new_or_forced Script.ctx (Script.config None) Runs.online_bot false
              Runs.alice (Runs.frame Runs.seen) "https://x.com/alice/status/3"
              (record (CallPage "alice") (Script.start Runs.seen)) eq_refl eq_refl)
    as [_ (f' & Hrun & Hhow)].
  exists f'. split; [exact Hrun |]. exact (proj1 Hhow).
Defined.

(** C3, as the code has it.  An iteration of the loop either leaves the table
    as it was or stores the link just found for its own user, and it stores it
    only when [isNew] held of the link the table had and the link found.  In
    particular, in a manual run, when the turn of a subscription comes whose
    latest tweet is the one the table already has, the push takes place (the
    counter grows, the message goes to the first group at least) and the
    iteration leaves the table as it was; and when no other subscription of
    the cycle is for the same user, the table has the same link for that user
    after the cycle as before it. *)
Theorem table_written_only_when_new {W : Type} (ctx : Collab W) (config : Config)
    (bot : Bot) (before after : list Subscription) (sub : Subscription)
    (f f1 : PollFrame W) (latestTweetUrl : string) (s1 : St W) :
  for_of before (pollSubscription ctx config bot true) f = (Ok tt, f1) ->
  well_formed sub = true ->
  getLatestTweetUrlByPuppeteer ctx (username sub) (cookie config)
    (default true (excludeRetweets sub)) (heap f1) = (Ok (Some latestTweetUrl), s1) ->
  db (heap f) !! username sub = Some latestTweetUrl ->
  ~ In (username sub) (map username (before ++ after)) ->
  (exists f2 f',
     pollSubscription ctx config bot true sub f1 = (Ok tt, f2)
     /\ updatesFound f2 = S (updatesFound f1)
     /\ (exists messageToSend s2 g more,
           processTweet ctx config latestTweetUrl (pushOptions config (bot_platform bot))
             (record (Logged (InfoNewTweet (username sub))) s1) = (Ok messageToSend, s2)
           /\ head (groupIds sub) = Some g
           /\ trace (heap f2) = trace s2 ++ CallSend g messageToSend :: more)
     /\ db (heap f2) = db (heap f1)
     /\ for_of (before ++ sub :: after) (pollSubscription ctx config bot true) f = (Ok tt, f')
     /\ db (heap f') !! username sub = Some latestTweetUrl)
  /\ (forall isManualTrigger sub0 (f0 : PollFrame W),
        exists f0',
          pollSubscription ctx config bot isManualTrigger sub0 f0 = (Ok tt, f0')
          /\ (db (heap f0') = db (heap f0)
              \/ exists url0 s0,
                   getLatestTweetUrlByPuppeteer ctx (username sub0) (cookie config)
                     (default true (excludeRetweets sub0)) (heap f0)
                   = (Ok (Some url0), s0)
                   /\ isNew (db (heap f0) !! username sub0) url0 = true
                   /\ db (heap f0') = <[username sub0 := url0]> (db (heap f0)))).
Proof.
  intros Hbefore Hwf Hfind Hseen Hother. split.
  2: { intros isManualTrigger sub0 f0.
       destruct (pollSubscription_run ctx config bot isManualTrigger sub0 f0)
         as (f0' & Hrun & Hhow).
       exists f0'. split; [exact Hrun | eapply entry_table; eauto]. }
  assert (Houts : ~ In (username sub) (map username before)
                  /\ ~ In (username sub) (map username after)).
  { rewrite map_app, in_app_iff in Hother. tauto. }
  destruct Houts as [Hout1 Hout2].
  destruct (cycle_run ctx config bot true before f) as (f1' & Hrun1 & Hcycle1).
  rewrite Hbefore in Hrun1. injection Hrun1 as <-.
  pose proof (cycle_frame _ _ _ _ _ _ _ _ Hcycle1 Hout1) as Hframe1.
  pose proof (getLatest_truthy _ _ _ _ _ _ _ Hfind) as Htruthy.
  destruct (pollSubscription_run ctx config bot true sub f1) as (f2 & Hrun2 & Hhow2).
  pose proof (entry_decision _ _ _ _ _ _ _ _ _ Hwf Hfind Hhow2) as Hdecision.
  rewrite Hframe1, Hseen, (isNew_same _ Htruthy) in Hdecision. cbn [orb] in Hdecision.
  destruct Hdecision as (Hcount & [Hdb | Hnew] & Hpushed); [| discriminate].
  destruct (cycle_run ctx config bot true after f2) as (f' & Hrun3 & Hcycle3).
  pose proof (cycle_frame _ _ _ _ _ _ _ _ Hcycle3 Hout2) as Hframe3.
  exists f2, f'. repeat split; try assumption.
  - rewrite for_of_app, (bind_ok _ _ _ _ _ Hbefore). cbn [for_of].
    now rewrite (bind_ok _ _ _ _ _ Hrun2).
  - now rewrite Hframe3, Hdb, Hframe1.
Qed.

Lemma table_written_only_when_new_witness :
  Runs.seen !! "alice" = Some "https://x.com/alice/status/3"
  /\ exists f',
       for_of [Runs.carol; Runs.alice] (pollSubscription Script.ctx (Script.config None)
                                          Runs.online_bot true) (Runs.frame Runs.seen)
       = (Ok tt, f')
       /\ db (heap f') !! "alice" = Some "https://x.com/alice/status/3".
Proof.
  split; [reflexivity |].
  destruct (table_written_only_when_new Script.ctx (Script.config None) Runs.online_bot
              [Runs.carol] [] Runs.alice (Runs.frame Runs.seen) _
              "https://x.com/alice/status/3" _ eq_refl eq_refl eq_refl eq_refl)
    as [(f2 & f' & _ & _ & _ & _ & Hrun & Hsame) _].
  - cbn. intros [H | []]. discriminate H.
  - exists f'. split; [exact Hrun | exact Hsame].
Defined.

(** C3, the input on which the claim fails: [alice] is listed twice, with
    reposts excluded and with reposts let through.  In a manual run from a
    table that has her latest own tweet, the first entry finds that tweet
    ([isNew] is false) and pushes it; the second entry finds the repost, which
    is new, and rewrites the record: after the cycle the table has another
    link for her than before it. *)
Lemma duplicate_entry_rewrites_record :
  Runs.seen !! "alice" = Some "https://x.com/alice/status/3"
  /\ getLatestTweetUrlByPuppeteer Script.ctx "alice" "" true (Script.start Runs.seen)
     = (Ok (Some "https://x.com/alice/status/3"),
        record (CallPage "alice") (Script.start Runs.seen))
  /\ isNew (Runs.seen !! "alice") "https://x.com/alice/status/3" = false
  /\ fst (checkAndPushUpdates Script.ctx (Rounds.config Rounds.twice) true
            (Script.start Runs.seen)) = Ok (Some (summary 2))
  /\ db (snd (checkAndPushUpdates Script.ctx (Rounds.config Rounds.twice) true
                (Script.start Runs.seen))) !! "alice"
     = Some "https://x.com/bob/status/2".
Proof. repeat split; vm_compute; reflexivity. Qed.

Section WholeCycle.

Context {W : Type}.
Variable ctx : Collab W.
Variable config : Config.

Lemma pollAll_run bot isManualTrigger subs (f : PollFrame W) :
  exists f',
    pollAll ctx config bot isManualTrigger subs f
    = (Ok (if isManualTrigger then Some (summary (updatesFound f')) else None), f')
    /\ CycleRun ctx config bot isManualTrigger subs f f'.
Proof.
  destruct (cycle_run ctx config bot isManualTrigger subs f) as (f' & Hrun & Hcycle).
  exists f'. split; [| exact Hcycle].
  unfold pollAll. now rewrite (bind_ok _ _ _ _ _ Hrun).
Qed.

(** A call of [checkAndPushUpdates] either returns before the loop, leaving
    the table as it was, or runs the loop over the configured subscriptions. *)
Lemma checkAndPushUpdates_run isManualTrigger (s : St W) :
  db (snd (checkAndPushUpdates ctx config isManualTrigger s)) = db s
  \/ exists settings bot f',
       enableSubscription config = Some settings
       /\ CycleRun ctx config bot isManualTrigger (subscriptions settings)
            {| heap := s; updatesFound := 0 |} f'
       /\ snd (checkAndPushUpdates ctx config isManualTrigger s) = heap f'.
Proof.
  unfold checkAndPushUpdates.
  destruct (enableSubscription config) as [settings |]; [| now left].
  unfold bind, get_bot.
  destruct (bots ctx _ (world s)) as [bot |]; [| now left].
  destruct (online bot); cbn [negb]; [| now left].
  right.
  destruct (pollAll_run bot isManualTrigger (subscriptions settings)
              {| heap := s; updatesFound := 0 |}) as (f' & Hrun & Hcycle).
  exists settings, bot, f'. rewrite Hrun. auto.
Qed.

End WholeCycle.

(** C8, as the code has it.  A call of [checkAndPushUpdates] that reaches the
    loop (subscriptions enabled, the configured bot there and online) counts
    the pushes decided during the cycle: one for each subscription that
    reached [updatesFound++], which comes before the resolution and the
    dispatch, so that an entry whose dispatch then fails is counted like any
    other.  A manual run returns the summary with that count and a scheduled
    run returns no value.  A call stopped by the bot check logs a warning and
    returns, to a manual run, the notice about the bot; with subscriptions
    disabled the call returns no value at once.  A scheduled run never returns
    a value. *)
Theorem cycle_reports_push_count {W : Type} (ctx : Collab W) (config : Config)
    (isManualTrigger : bool) (s : St W) :
  match enableSubscription config with
  | None => checkAndPushUpdates ctx config isManualTrigger s = (Ok None, s)
  | Some settings =>
      match bots ctx (sub_platform settings +:+ ":" +:+ selfId settings) (world s) with
      | Some {| online := true |} =>
          exists events s',
            checkAndPushUpdates ctx config isManualTrigger s
            = (Ok (if isManualTrigger then Some (summary (pushes events)) else None), s')
            /\ trace s' = trace s ++ events
      | _ =>
          checkAndPushUpdates ctx config isManualTrigger s
          = (Ok (if isManualTrigger
                 then Some (offlineNotice (sub_platform settings +:+ ":" +:+ selfId settings))
                 else None),
             record (Logged (WarnBotOffline
                               (sub_platform settings +:+ ":" +:+ selfId settings))) s)
      end
  end
  /\ fst (checkAndPushUpdates ctx config false s) = Ok None.
Proof.
  split.
  - unfold checkAndPushUpdates.
    destruct (enableSubscription config) as [settings |]; [| reflexivity].
    unfold bind, get_bot.
    destruct (bots ctx _ (world s)) as [[[] platform] |]; cbn [negb online];
      [| reflexivity | reflexivity].
    destruct (pollAll_run ctx config {| online := true; bot_platform := platform |}
                isManualTrigger (subscriptions settings)
                {| heap := s; updatesFound := 0 |}) as (f' & Hrun & Hcycle).
    destruct (cycle_count _ _ _ _ _ _ _ Hcycle) as (events & Htrace & Hcount).
    cbn [heap updatesFound] in Htrace, Hcount.
    exists events, (heap f'). rewrite Hrun, Hcount. auto.
  - unfold checkAndPushUpdates.
    destruct (enableSubscription config) as [settings |]; [| reflexivity].
    unfold bind, get_bot.
    destruct (bots ctx _ (world s)) as [bot |]; [| reflexivity].
    destruct (online bot); cbn [negb]; [| reflexivity].
    destruct (pollAll_run ctx config bot false (subscriptions settings)
                {| heap := s; updatesFound := 0 |}) as (f' & Hrun & _).
    now rewrite Hrun.
Qed.

Lemma cycle_reports_push_count_witness :
  exists events s',
    checkAndPushUpdates Script.ctx
      (Script.config (Some (Script.settings "42" [Runs.alice; Runs.carol]))) true
      (Script.start Runs.seen)
    = (Ok (Some (summary (pushes events))), s')
    /\ trace s' = events.
Proof.
  exact (proj1 (cycle_reports_push_count Script.ctx
                  (Script.config (Some (Script.settings "42" [Runs.alice; Runs.carol])))
                  true (Script.start Runs.seen))).
Defined.

(** C8, the input on which the claim fails: a manual run over one entry whose
    tweet is new.  The only dispatch attempted, to the first group of the
    entry, throws, so no message reaches any group and the table stays empty;
    the summary counts the entry all the same. *)
Lemma failed_push_is_counted :
  fst Runs.blocked = Ok (Some (summary 1))
  /\ (exists messageToSend,
        List.filter Footprint.is_dispatch (trace (snd Runs.blocked))
        = [CallSend "g1" messageToSend]
        /\ sendMessage Script.ctx "g1" messageToSend tt = (Throw "send failed", tt))
  /\ db (snd Runs.blocked) = ∅.
Proof.
  split; [reflexivity |]. split; [| reflexivity].
  eexists. split; vm_compute; reflexivity.
Qed.

(** C9.  A call of [checkAndPushUpdates] leaves the link of every user who is
    not among the configured subscriptions as it was, and a user who had a link
    before the call has one after it; one iteration of the loop leaves the
    link of every user but its own as it was. *)
Theorem other_records_untouched {W : Type} (ctx : Collab W) (config : Config)
    (isManualTrigger : bool) (s : St W) (k : string) :
  (~ In k (configured_users config) ->
   db (snd (checkAndPushUpdates ctx config isManualTrigger s)) !! k = db s !! k)
  /\ (is_Some (db s !! k) ->
      is_Some (db (snd (checkAndPushUpdates ctx config isManualTrigger s)) !! k))
  /\ (forall bot sub (f : PollFrame W),
        k <> username sub ->
        db (heap (snd (pollSubscription ctx config bot isManualTrigger sub f))) !! k
        = db (heap f) !! k).
Proof.
  destruct (checkAndPushUpdates_run ctx config isManualTrigger s)
    as [Hsame | (settings & bot & f' & Henabled & Hcycle & Hend)].
  - rewrite Hsame. split; [reflexivity |]. split; [tauto |].
    intros bot sub f Hne.
    destruct (pollSubscription_run ctx config bot isManualTrigger sub f) as (f' & Hrun & Hhow).
    rewrite Hrun. cbn [snd].
    destruct (entry_table _ _ _ _ _ _ _ Hhow) as [-> | (url & s0 & _ & _ & ->)]; [reflexivity |].
    now apply lookup_insert_ne.
  - rewrite Hend. unfold configured_users. rewrite Henabled. split; [| split].
    + intros Hout. exact (cycle_frame _ _ _ _ _ _ _ _ Hcycle Hout).
    + intros Hin. exact (cycle_keeps _ _ _ _ _ _ _ _ Hcycle Hin).
    + intros bot0 sub f Hne.
      destruct (pollSubscription_run ctx config bot0 isManualTrigger sub f)
        as (f0 & Hrun & Hhow).
      rewrite Hrun. cbn [snd].
      destruct (entry_table _ _ _ _ _ _ _ Hhow) as [-> | (url & s0 & _ & _ & ->)]; [reflexivity |].
      now apply lookup_insert_ne.
Qed.

Lemma other_records_untouched_witness :
  db (snd (checkAndPushUpdates Script.ctx
             (Script.config (Some (Script.settings "42" [Runs.carol]))) true
             (Script.start Runs.seen))) !! "alice"
  = Some "https://x.com/alice/status/3".
Proof.
  refine (proj1 (other_records_untouched Script.ctx
                   (Script.config (Some (Script.settings "42" [Runs.carol]))) true
                   (Script.start Runs.seen) "alice") _).
  cbn. intros [H | []]. discriminate H.
Defined.


(** ** The link pattern *)

Lemma append_assoc : forall s1 s2 s3 : string, (s1 +:+ s2) +:+ s3 = s1 +:+ (s2 +:+ s3).
Proof.
  intros s1 s2 s3. induction s1 as [| ch s1 IH]; [reflexivity |].
  change (String ch ((s1 +:+ s2) +:+ s3) = String ch (s1 +:+ (s2 +:+ s3))).
  now rewrite IH.
Qed.

Lemma append_empty : forall s1 : string, s1 +:+ "" = s1.
Proof.
  intros s1. induction s1 as [| ch s1 IH]; [reflexivity |].
  change (String ch (s1 +:+ "") = String ch s1). now rewrite IH.
Qed.

Lemma literal_some lit : forall s tail,
  TWEET_URL_REGEX.literal lit s = Some tail -> s = lit +:+ tail.
Proof.
  unfold TWEET_URL_REGEX.literal.
  induction lit as [| ch lit IH]; intros s tail.
  - destruct s; simpl; now intros [= <-].
  - destruct s as [| ch' s]; simpl; [discriminate |].
    destruct (ascii_dec ch ch') as [<- |]; [| discriminate].
    intros H. change (String ch s = String ch (lit +:+ tail)). f_equal. now apply IH.
Qed.

Lemma literal_here lit tail : TWEET_URL_REGEX.literal lit (lit +:+ tail) = Some tail.
Proof.
  unfold TWEET_URL_REGEX.literal. rewrite prefix_append. f_equal.
  induction lit as [| ch lit IH]; [now destruct tail | exact IH].
Qed.

Lemma span_spec class : forall s taken tail,
  TWEET_URL_REGEX.span class s = (taken, tail) ->
  s = taken +:+ tail /\ TWEET_URL_REGEX.all class taken = true.
Proof.
  induction s as [| ch s IH]; intros taken tail; simpl.
  - intros [= <- <-]. now split.
  - destruct (class ch) eqn:Hch.
    + destruct (TWEET_URL_REGEX.span class s) as [taken' tail'].
      intros [= <- <-]. destruct (IH _ _ eq_refl) as [-> Hall].
      split; [reflexivity |]. simpl. now rewrite Hch.
    + intros [= <- <-]. now split.
Qed.

Lemma span_append class taken : forall tail,
  TWEET_URL_REGEX.all class taken = true ->
  TWEET_URL_REGEX.span class (taken +:+ tail)
  = (taken +:+ fst (TWEET_URL_REGEX.span class tail), snd (TWEET_URL_REGEX.span class tail)).
Proof.
  induction taken as [| ch taken IH]; intros tail.
  - intros _.
    change (TWEET_URL_REGEX.span class tail
            = (fst (TWEET_URL_REGEX.span class tail), snd (TWEET_URL_REGEX.span class tail))).
    now destruct (TWEET_URL_REGEX.span class tail).
  - cbn [TWEET_URL_REGEX.all]. intros [Hch Hall]%andb_true_iff.
    change (TWEET_URL_REGEX.span class (String ch (taken +:+ tail))
            = (String ch (taken +:+ fst (TWEET_URL_REGEX.span class tail)),
               snd (TWEET_URL_REGEX.span class tail))).
    cbn [TWEET_URL_REGEX.span]. rewrite Hch, (IH tail Hall). reflexivity.
Qed.

Lemma host_some s name tail :
  TWEET_URL_REGEX.host s = Some (name, tail) ->
  s = name +:+ tail /\ (name = "twitter.com" \/ name = "x.com").
Proof.
  unfold TWEET_URL_REGEX.host.
  destruct (TWEET_URL_REGEX.literal "twitter.com" s) as [t1 |] eqn:E1.
  - intros [= <- <-]. split; [now apply literal_some | now left].
  - destruct (TWEET_URL_REGEX.literal "x.com" s) as [t2 |] eqn:E2; [| discriminate].
    intros [= <- <-]. split; [now apply literal_some | now right].
Qed.

(** A match at the head of a string is a link, and the string starts with
    it. *)
Lemma match_here_sound s found :
  TWEET_URL_REGEX.match_here s = Some found ->
  exists after scheme host user id,
    s = found +:+ after
    /\ found = TWEET_URL_REGEX.link scheme host user id
    /\ (scheme = "http" \/ scheme = "https")
    /\ (host = "twitter.com" \/ host = "x.com")
    /\ Js.truthy user = true /\ TWEET_URL_REGEX.all TWEET_URL_REGEX.word user = true
    /\ Js.truthy id = true /\ TWEET_URL_REGEX.all TWEET_URL_REGEX.digit id = true.
Proof.
  unfold TWEET_URL_REGEX.match_here.
  destruct (TWEET_URL_REGEX.literal "http" s) as [s1 |] eqn:E1; [| discriminate].
  apply literal_some in E1 as ->.
  set (pick := match TWEET_URL_REGEX.literal "s" s1 with
               | Some tail => ("https", tail)
               | None => ("http", s1)
               end).
  assert (Hpick : "http" +:+ s1 = fst pick +:+ snd pick
                  /\ (fst pick = "http" \/ fst pick = "https")).
  { subst pick. destruct (TWEET_URL_REGEX.literal "s" s1) as [tail |] eqn:Es.
    - apply literal_some in Es as ->. split; [reflexivity | now right].
    - split; [reflexivity | now left]. }
  destruct pick as [scheme s2]. cbn [fst snd] in Hpick. destruct Hpick as [Hs Hscheme].
  destruct (TWEET_URL_REGEX.literal "://" s2) as [s3 |] eqn:E3; [| discriminate].
  apply literal_some in E3 as ->.
  destruct (TWEET_URL_REGEX.host s3) as [[name s4] |] eqn:E4; [| discriminate].
  apply host_some in E4 as [-> Hname].
  destruct (TWEET_URL_REGEX.literal "/" s4) as [s5 |] eqn:E5; [| discriminate].
  apply literal_some in E5 as ->.
  destruct (TWEET_URL_REGEX.span TWEET_URL_REGEX.word s5) as [user s6] eqn:E6.
  apply span_spec in E6 as [-> Huser].
  destruct (Js.truthy user) eqn:Tuser; [| discriminate].
  destruct (TWEET_URL_REGEX.literal "/status/" s6) as [s7 |] eqn:E7; [| discriminate].
  apply literal_some in E7 as ->.
  destruct (TWEET_URL_REGEX.span TWEET_URL_REGEX.digit s7) as [id after] eqn:E8.
  apply span_spec in E8 as [-> Hid].
  destruct (Js.truthy id) eqn:Tid; [| discriminate].
  intros [= <-].
  exists after, scheme, name, user, id.
  split; [| auto 10].
  rewrite Hs. unfold TWEET_URL_REGEX.link. now rewrite !append_assoc.
Qed.

Lemma exec_sound content : forall found,
  TWEET_URL_REGEX.exec content = Some found ->
  exists before after, content = before +:+ found +:+ after
                       /\ TWEET_URL_REGEX.match_here (found +:+ after) = Some found.
Proof.
  induction content as [| ch content IH]; intros found; cbn [TWEET_URL_REGEX.exec].
  - destruct (TWEET_URL_REGEX.match_here "") as [m |] eqn:E; [| discriminate].
    intros [= ->]. destruct (match_here_sound _ _ E) as (after & _ & _ & _ & _ & Heq & _).
    exists "", after. split; [exact Heq | now rewrite <- Heq].
  - destruct (TWEET_URL_REGEX.match_here (String ch content)) as [m |] eqn:E.
    + intros [= ->]. destruct (match_here_sound _ _ E) as (after & _ & _ & _ & _ & Heq & _).
      exists "", after. split; [exact Heq | now rewrite <- Heq].
    + intros H. destruct (IH _ H) as (before & after & -> & Hm).
      exists (String ch before), after. split; [reflexivity | exact Hm].
Qed.

(** X1.  Whatever the message, what [TWEET_URL_REGEX.exec] returns is a piece
    of the message and is a link: [http] or [https], one of the two hosts, a
    user name of one word character or more, [/status/] and an identifier of
    one digit or more. *)
Theorem link_pattern_sound (content found : string) :
  TWEET_URL_REGEX.exec content = Some found ->
  exists before after scheme host user id,
    content = before +:+ found +:+ after
    /\ found = TWEET_URL_REGEX.link scheme host user id
    /\ (scheme = "http" \/ scheme = "https")
    /\ (host = "twitter.com" \/ host = "x.com")
    /\ Js.truthy user = true /\ TWEET_URL_REGEX.all TWEET_URL_REGEX.word user = true
    /\ Js.truthy id = true /\ TWEET_URL_REGEX.all TWEET_URL_REGEX.digit id = true.
Proof.
  intros Hexec. destruct (exec_sound _ _ Hexec) as (before & after & -> & Hhere).
  destruct (match_here_sound _ _ Hhere) as (after' & scheme & host & user & id & _ & Hrest).
  exists before, after, scheme, host, user, id. split; [reflexivity | exact Hrest].
Qed.

Lemma link_pattern_sound_witness :
  exists before after scheme host user id,
    "look: https://x.com/alice/status/3?s=20"
    = before +:+ "https://x.com/alice/status/3" +:+ after
    /\ "https://x.com/alice/status/3" = TWEET_URL_REGEX.link scheme host user id
    /\ (scheme = "http" \/ scheme = "https")
    /\ (host = "twitter.com" \/ host = "x.com")
    /\ Js.truthy user = true /\ TWEET_URL_REGEX.all TWEET_URL_REGEX.word user = true
    /\ Js.truthy id = true /\ TWEET_URL_REGEX.all TWEET_URL_REGEX.digit id = true.
Proof.
  exact (link_pattern_sound "look: https://x.com/alice/status/3?s=20"
           "https://x.com/alice/status/3" eq_refl).
Defined.

Lemma match_here_complete scheme host user id after :
  (scheme = "http" \/ scheme = "https") ->
  (host = "twitter.com" \/ host = "x.com") ->
  Js.truthy user = true -> TWEET_URL_REGEX.all TWEET_URL_REGEX.word user = true ->
  Js.truthy id = true -> TWEET_URL_REGEX.all TWEET_URL_REGEX.digit id = true ->
  TWEET_URL_REGEX.match_here (TWEET_URL_REGEX.link scheme host user id +:+ after)
  = Some (TWEET_URL_REGEX.link scheme host user
            (id +:+ fst (TWEET_URL_REGEX.span TWEET_URL_REGEX.digit after))).
Proof.
  intros Hscheme Hhost Tuser Huser Tid Hid.
  assert (Hdigits : TWEET_URL_REGEX.span TWEET_URL_REGEX.digit (id +:+ after)
                    = (id +:+ fst (TWEET_URL_REGEX.span TWEET_URL_REGEX.digit after),
                       snd (TWEET_URL_REGEX.span TWEET_URL_REGEX.digit after)))
    by now apply span_append.
  assert (Tdigits : Js.truthy (id +:+ fst (TWEET_URL_REGEX.span TWEET_URL_REGEX.digit after))
                    = true) by (destruct id; [discriminate | reflexivity]).
  assert (Hwords : forall tail,
             TWEET_URL_REGEX.span TWEET_URL_REGEX.word (user +:+ "/status/" +:+ tail)
             = (user, "/status/" +:+ tail)).
  { intros tail. rewrite span_append by exact Huser.
    change (TWEET_URL_REGEX.span TWEET_URL_REGEX.word ("/status/" +:+ tail))
      with (EmptyString, "/status/" +:+ tail).
    cbn [fst snd]. now rewrite append_empty. }
  assert (Htail :
             TWEET_URL_REGEX.literal "/"
               ("/" +:+ user +:+ "/status/" +:+ id +:+ after)
             = Some (user +:+ "/status/" +:+ id +:+ after)) by apply literal_here.
  unfold TWEET_URL_REGEX.link. rewrite !append_assoc.
  unfold TWEET_URL_REGEX.match_here.
  destruct Hscheme as [-> | ->].
  - rewrite literal_here.
    change (TWEET_URL_REGEX.literal "s" ("://" +:+ host +:+ "/" +:+ user +:+ "/status/"
                                         +:+ id +:+ after)) with (@None string).
    cbv beta iota. rewrite literal_here.
    destruct Hhost as [-> | ->].
    + unfold TWEET_URL_REGEX.host. rewrite literal_here, Htail, Hwords, Tuser.
      rewrite literal_here, Hdigits, Tdigits. reflexivity.
    + unfold TWEET_URL_REGEX.host.
      change (TWEET_URL_REGEX.literal "twitter.com"
                ("x.com" +:+ "/" +:+ user +:+ "/status/" +:+ id +:+ after))
        with (@None string).
      rewrite literal_here, Htail, Hwords, Tuser.
      rewrite literal_here, Hdigits, Tdigits. reflexivity.
  - change ("https" +:+ "://" +:+ host +:+ "/" +:+ user +:+ "/status/" +:+ id +:+ after)
      with ("http" +:+ "s" +:+ "://" +:+ host +:+ "/" +:+ user +:+ "/status/"
            +:+ id +:+ after).
    rewrite literal_here, literal_here. cbv beta iota. rewrite literal_here.
    destruct Hhost as [-> | ->].
    + unfold TWEET_URL_REGEX.host. rewrite literal_here, Htail, Hwords, Tuser.
      rewrite literal_here, Hdigits, Tdigits. reflexivity.
    + unfold TWEET_URL_REGEX.host.
      change (TWEET_URL_REGEX.literal "twitter.com"
                ("x.com" +:+ "/" +:+ user +:+ "/status/" +:+ id +:+ after))
        with (@None string).
      rewrite literal_here, Htail, Hwords, Tuser.
      rewrite literal_here, Hdigits, Tdigits. reflexivity.
Qed.

(** X2.  A message that holds a link is answered: whatever stands before and
    after the link, [TWEET_URL_REGEX.exec] finds a match; and when the link
    stands at the head of the message the match is that link, its identifier
    continued by the digits that follow it. *)
Theorem link_pattern_complete (before after scheme host user id : string) :
  (scheme = "http" \/ scheme = "https") ->
  (host = "twitter.com" \/ host = "x.com") ->
  Js.truthy user = true -> TWEET_URL_REGEX.all TWEET_URL_REGEX.word user = true ->
  Js.truthy id = true -> TWEET_URL_REGEX.all TWEET_URL_REGEX.digit id = true ->
  (exists found,
     TWEET_URL_REGEX.exec (before +:+ TWEET_URL_REGEX.link scheme host user id +:+ after)
     = Some found)
  /\ TWEET_URL_REGEX.exec (TWEET_URL_REGEX.link scheme host user id +:+ after)
     = Some (TWEET_URL_REGEX.link scheme host user
               (id +:+ fst (TWEET_URL_REGEX.span TWEET_URL_REGEX.digit after))).
Proof.
  intros Hscheme Hhost Tuser Huser Tid Hid.
  pose proof (match_here_complete scheme host user id after
                Hscheme Hhost Tuser Huser Tid Hid) as Hhere.
  assert (Hhead : TWEET_URL_REGEX.exec (TWEET_URL_REGEX.link scheme host user id +:+ after)
                  = Some (TWEET_URL_REGEX.link scheme host user
                            (id +:+ fst (TWEET_URL_REGEX.span TWEET_URL_REGEX.digit after)))).
  { destruct (TWEET_URL_REGEX.link scheme host user id +:+ after);
      cbn [TWEET_URL_REGEX.exec]; now rewrite Hhere. }
  split; [| exact Hhead]. clear Hhere.
  induction before as [| ch before IH].
  - eexists. exact Hhead.
  - change (String ch before +:+ TWEET_URL_REGEX.link scheme host user id +:+ after)
      with (String ch (before +:+ TWEET_URL_REGEX.link scheme host user id +:+ after)).
    cbn [TWEET_URL_REGEX.exec].
    destruct (TWEET_URL_REGEX.match_here _) as [found |]; [eauto | exact IH].
Qed.

Lemma link_pattern_complete_witness :
  (exists found,
     TWEET_URL_REGEX.exec
       ("see " +:+ TWEET_URL_REGEX.link "https" "twitter.com" "a_1" "42" +:+ "/photo/1")
     = Some found)
  /\ TWEET_URL_REGEX.exec (TWEET_URL_REGEX.link "https" "twitter.com" "a_1" "42" +:+ "7 ok")
     = Some (TWEET_URL_REGEX.link "https" "twitter.com" "a_1" "427").
Proof.
  split.
  - exact (proj1 (link_pattern_complete "see " "/photo/1" "https" "twitter.com" "a_1" "42"
                    (or_intror eq_refl) (or_introl eq_refl)
                    eq_refl eq_refl eq_refl eq_refl)).
  - exact (proj2 (link_pattern_complete "" "7 ok" "https" "twitter.com" "a_1" "42"
                    (or_intror eq_refl) (or_introl eq_refl)
                    eq_refl eq_refl eq_refl eq_refl)).
Defined.

(** X3.  The address [processTweet] asks the metadata service for, when it is
    given a match of the pattern, is the match with its host replaced by
    [api.vxtwitter.com]: scheme, user and identifier are kept, for both
    hosts. *)
Theorem matched_link_api_address (content found : string) :
  TWEET_URL_REGEX.exec content = Some found ->
  exists scheme user id,
    (scheme = "http" \/ scheme = "https")
    /\ (found = TWEET_URL_REGEX.link scheme "twitter.com" user id
        \/ found = TWEET_URL_REGEX.link scheme "x.com" user id)
    /\ Js.replace_host "api.vxtwitter.com" found
       = TWEET_URL_REGEX.link scheme "api.vxtwitter.com" user id.
Proof.
  intros Hexec. destruct (exec_sound _ _ Hexec) as (before & after & _ & Hhere).
  destruct (match_here_sound _ _ Hhere)
    as (_ & scheme & host & user & id & _ & -> & Hscheme & Hhost & _).
  exists scheme, user, id. split; [exact Hscheme |].
  destruct Hscheme as [-> | ->], Hhost as [-> | ->];
    (split; [auto | reflexivity]).
Qed.

Lemma matched_link_api_address_witness :
  exists scheme user id,
    (scheme = "http" \/ scheme = "https")
    /\ ("http://twitter.com/bob/status/9" = TWEET_URL_REGEX.link scheme "twitter.com" user id
        \/ "http://twitter.com/bob/status/9" = TWEET_URL_REGEX.link scheme "x.com" user id)
    /\ Js.replace_host "api.vxtwitter.com" "http://twitter.com/bob/status/9"
       = TWEET_URL_REGEX.link scheme "api.vxtwitter.com" user id.
Proof.
  exact (matched_link_api_address "old link http://twitter.com/bob/status/9."
           "http://twitter.com/bob/status/9" eq_refl).
Defined.

(** ** The footprint of a resolution *)

Section Footprints.

Context {W : Type}.
Variable ctx : Collab W.
Variable config : Config.

Lemma added_refl (s : St W) : Footprint.added s s [].
Proof. split; [reflexivity | now rewrite app_nil_r]. Qed.

Lemma added_trans (s1 s2 s3 : St W) events1 events2 :
  Footprint.added s1 s2 events1 -> Footprint.added s2 s3 events2 ->
  Footprint.added s1 s3 (events1 ++ events2).
Proof.
  intros [D1 T1] [D2 T2]. split; [congruence |]. now rewrite T2, T1, app_assoc.
Qed.

Lemma added_call (s : St W) e w : Footprint.added s (record e (at_world w s)) [e].
Proof. split; reflexivity. Qed.

Lemma added_record (s : St W) e : Footprint.added s (record e s) [e].
Proof. split; reflexivity. Qed.

Lemma filter_none {A} (f : A -> bool) (P : A -> Prop) (xs : list A) :
  (forall x, P x -> f x = false) -> Forall P xs -> List.filter f xs = [].
Proof.
  intros HP Hall. induction Hall as [| x rest Hx _ IH]; [reflexivity |].
  cbn. now rewrite (HP x Hx).
Qed.

(** The screenshot block returns, with one visit of the tweet page when
    screenshots are asked for and nothing otherwise. *)
Lemma captureScreenshot_trace tweetUrl options (s : St W) :
  exists element s',
    captureScreenshot ctx config tweetUrl options s = (Ok element, s')
    /\ Footprint.added s s'
         (if showScreenshot options then [CallScreenshot tweetUrl] else []).
Proof.
  unfold captureScreenshot. destruct (showScreenshot options).
  - unfold try_catch, bind, getTweetScreenshot, call, ret.
    destruct (puppeteer_screenshot ctx tweetUrl (cookie config) (world s))
      as [[[buffer |] | error] w]; eexists _, _; (split; [reflexivity | apply added_call]).
  - eexists _, _. split; [reflexivity | apply added_refl].
Qed.

(** A translation makes at most one request, whether it returns or throws. *)
Lemma translateText_trace text lang (s : St W) :
  exists translated s' events,
    translateText ctx text lang s = (translated, s')
    /\ Footprint.added s s' events
    /\ Forall Footprint.follow_up events
    /\ length (List.filter Footprint.is_translation events) <= 1.
Proof.
  unfold translateText. destruct (Js.truthy text); cbn [negb].
  - destruct (Js.isWellFormed text); cbn [negb].
    + unfold try_catch, bind, call, emit, ret.
      destruct (translate_get ctx lang text (world s)) as [[[items |] | error] w].
      * eexists _, _, [_]. split; [reflexivity |]. split; [apply added_call |].
        split; [repeat constructor | cbn; lia].
      * eexists _, _, [_]. split; [reflexivity |]. split; [apply added_call |].
        split; [repeat constructor | cbn; lia].
      * eexists _, _, [_; _]. split; [reflexivity |].
        split; [exact (added_trans _ _ _ _ _ (added_call _ _ _) (added_record _ _)) |].
        split; [repeat constructor | cbn; lia].
    + eexists _, _, []. split; [reflexivity |]. split; [apply added_refl |].
      split; [constructor | cbn; lia].
  - eexists _, _, []. split; [reflexivity |]. split; [apply added_refl |].
    split; [constructor | cbn; lia].
Qed.

Lemma metadataText_trace options apiResponse textParts (s : St W) :
  exists texts s' events,
    metadataText ctx options apiResponse textParts s = (texts, s')
    /\ Footprint.added s s' events
    /\ Forall Footprint.follow_up events
    /\ length (List.filter Footprint.is_translation events) <= 1.
Proof.
  assert (Hquiet : forall texts : list string, exists texts' s' events,
             ret texts s = (texts', s')
             /\ Footprint.added s s' events
             /\ Forall Footprint.follow_up events
             /\ length (List.filter Footprint.is_translation events) <= 1).
  { intros texts. exists (Ok texts), s, []. split; [reflexivity |].
    split; [apply added_refl |]. split; [constructor | cbn; lia]. }
  unfold metadataText.
  destruct (sendText options && _); [| apply Hquiet].
  destruct (Js.truthy_flag _); [| apply Hquiet].
  destruct (nonempty (targetLang options)) as [lang |]; [| apply Hquiet].
  unfold bind.
  destruct (translateText_trace (default "" (nonempty (text apiResponse))) lang s)
    as ([translated | error] & s' & events & -> & Hadded & Hall & Hcount).
  - destruct (nonempty translated); eexists _, s', events; (split; [reflexivity | auto]).
  - eexists _, s', events. split; [reflexivity | auto].
Qed.

Lemma downloadMedia_trace medias mediaParts (s : St W) :
  exists media s' events,
    downloadMedia ctx medias mediaParts s = (Ok media, s')
    /\ Footprint.added s s' events
    /\ Forall Footprint.follow_up events
    /\ List.filter Footprint.is_translation events = [].
Proof.
  rewrite downloadMedia_run. eexists _, _, _. split; [reflexivity |].
  split; [split; reflexivity |].
  split; induction medias as [| media rest IH]; cbn; auto.
  constructor; [exact I | exact IH].
Qed.

(** What the [try] block of [processTweet] leaves behind, whether it returns
    or throws: the request to the metadata service first. *)
Lemma collect_trace tweetUrl options textParts screenshotElement (s : St W) r s' :
  collect ctx tweetUrl options textParts screenshotElement s = (r, s') ->
  exists events,
    Footprint.added s s' (CallApi (Js.replace_host "api.vxtwitter.com" tweetUrl) :: events)
    /\ Forall Footprint.follow_up events
    /\ length (List.filter Footprint.is_translation events) <= 1.
Proof.
  unfold collect, bind at 1, call.
  destruct (http_get ctx _ (world s)) as [[apiResponse | error] w].
  2: { intros [= <- <-]. exists []. split; [apply added_call |].
       split; [constructor | cbn; lia]. }
  unfold bind at 1.
  destruct (metadataText_trace options apiResponse textParts
              (record (CallApi (Js.replace_host "api.vxtwitter.com" tweetUrl))
                 (at_world w s)))
    as ([texts | error] & s1 & events1 & -> & Hadded1 & Hall1 & Hcount1).
  2: { intros [= <- <-]. exists events1. split; [| auto].
       exact (added_trans _ _ _ [_] _ (added_call _ _ _) Hadded1). }
  assert (Hmedia : forall mediaParts, exists media s2 events2,
             match media_extended apiResponse with
             | Some medias => if sendMedia options then downloadMedia ctx medias mediaParts
                              else ret mediaParts
             | None => ret mediaParts
             end s1 = (Ok media, s2)
             /\ Footprint.added s1 s2 events2
             /\ Forall Footprint.follow_up events2
             /\ List.filter Footprint.is_translation events2 = []).
  { intros mediaParts.
    assert (Hquiet : exists media s2 events2,
               ret mediaParts s1 = (Ok media, s2)
               /\ Footprint.added s1 s2 events2
               /\ Forall Footprint.follow_up events2
               /\ List.filter Footprint.is_translation events2 = []).
    { exists mediaParts, s1, []. split; [reflexivity |].
      split; [apply added_refl |]. split; [constructor | reflexivity]. }
    destruct (media_extended apiResponse) as [medias |]; [| exact Hquiet].
    destruct (sendMedia options); [apply downloadMedia_trace | exact Hquiet]. }
  unfold bind.
  destruct (Hmedia (match screenshotElement with Some e => [e] | None => [] end))
    as (media & s2 & events2 & -> & Hadded2 & Hall2 & Hcount2).
  intros [= <- <-]. exists (events1 ++ events2).
  split.
  - pose proof (added_trans _ _ _ _ _
                  (added_trans _ _ _ _ _ (added_call _ _ _) Hadded1) Hadded2) as Hadded.
    now rewrite <- app_assoc in Hadded.
  - split; [now apply Forall_app |].
    now rewrite List.filter_app, length_app, Hcount2, Nat.add_0_r.
Qed.

(** A resolution by its outcome: the composition of what was collected, or
    the failure notice. *)
Lemma processTweet_outcome tweetUrl options (s : St W) :
  exists screenshotElement s0 reply s',
    captureScreenshot ctx config tweetUrl options s = (Ok screenshotElement, s0)
    /\ processTweet ctx config tweetUrl options s = (Ok reply, s')
    /\ match collect ctx tweetUrl options (seedLink tweetUrl options) screenshotElement s0 with
       | (Ok parts, s1) => reply = compose ctx options (fst parts) (snd parts) /\ s' = s1
       | (Throw error, s1) =>
           reply = failureNotice error /\ s' = record (Logged (WarnApi error)) s1
       end.
Proof.
  destruct (captureScreenshot_trace tweetUrl options s) as (element & s0 & Hshot & _).
  exists element, s0. unfold processTweet. rewrite (bind_ok _ _ _ _ _ Hshot).
  unfold try_catch, bind at 1.
  destruct (collect ctx tweetUrl options (seedLink tweetUrl options) element s0)
    as [[parts | error] s1]; eexists _, _; (split; [exact Hshot |]); split; try reflexivity;
    split; reflexivity.
Qed.

End Footprints.

(** X4.  Every resolution returns a reply and leaves the table alone.  It
    asks the metadata service exactly once, for the link with its host
    replaced; the tweet page is visited exactly when [showScreenshot] is set,
    once, and before that request; what follows the request is downloads,
    at most one request to the translation endpoint, and warnings. *)
Theorem resolution_footprint {W : Type} (ctx : Collab W) (config : Config)
    (tweetUrl : string) (options : Options) (s : St W) :
  exists reply s' events,
    processTweet ctx config tweetUrl options s = (Ok reply, s')
    /\ db s' = db s
    /\ trace s'
       = trace s ++ (if showScreenshot options then [CallScreenshot tweetUrl] else [])
         ++ CallApi (Js.replace_host "api.vxtwitter.com" tweetUrl) :: events
    /\ Forall Footprint.follow_up events
    /\ List.filter Footprint.is_request events = []
    /\ List.filter Footprint.is_capture events = []
    /\ length (List.filter Footprint.is_translation events) <= 1.
Proof.
  destruct (processTweet_outcome ctx config tweetUrl options s)
    as (element & s0 & reply & s' & Hshot & Hrun & Hhow).
  destruct (captureScreenshot_trace ctx config tweetUrl options s)
    as (element' & s0' & Hshot' & Hadded0).
  rewrite Hshot in Hshot'. injection Hshot' as <- <-.
  assert (Hclass : forall events, Forall Footprint.follow_up events ->
             List.filter Footprint.is_request events = []
             /\ List.filter Footprint.is_capture events = []).
  { intros events Hall.
    split; (eapply filter_none; [| exact Hall]); intros [] He; try reflexivity;
      contradiction. }
  destruct (collect ctx tweetUrl options (seedLink tweetUrl options) element s0)
    as [[parts | error] s1] eqn:Hcollect;
    destruct (collect_trace _ _ _ _ _ _ _ _ Hcollect) as (events & Hadded1 & Hall & Hcount);
    destruct Hhow as [-> ->].
  - exists (compose ctx options (fst parts) (snd parts)), s1, events.
    destruct (added_trans _ _ _ _ _ Hadded0 Hadded1) as [Hdb Htrace].
    destruct (Hclass _ Hall) as [Hreq Hcap]. auto 10.
  - exists (failureNotice error), (record (Logged (WarnApi error)) s1),
      (events ++ [Logged (WarnApi error)]).
    destruct (added_trans _ _ _ _ _ (added_trans _ _ _ _ _ Hadded0 Hadded1)
                (added_record _ (Logged (WarnApi error)))) as [Hdb Htrace].
    assert (Hall' : Forall Footprint.follow_up (events ++ [Logged (WarnApi error)])).
    { apply Forall_app. split; [exact Hall | repeat constructor]. }
    destruct (Hclass _ Hall') as [Hreq Hcap].
    split; [exact Hrun |]. split; [exact Hdb |].
    split; [rewrite Htrace, <- !app_assoc; reflexivity |].
    split; [exact Hall' |]. split; [exact Hreq |]. split; [exact Hcap |].
    rewrite List.filter_app, length_app. cbn. lia.
Qed.

(** ** Replies *)

Lemma metadata_line_truthy t : metadata_line t = true -> Js.truthy t = true.
Proof. now destruct t. Qed.

Lemma join_head_truthy sep t rest :
  Js.truthy t = true -> Js.truthy (Js.join sep (t :: rest)) = true.
Proof. destruct t; [discriminate |]. intros _. destruct rest; reflexivity. Qed.

Lemma compose_substantial {W : Type} (ctx : Collab W) options texts media :
  (forall e, Js.truthy (h_toString ctx e) = true) ->
  Forall (fun t => Js.truthy t = true) texts ->
  Footprint.substantial (compose ctx options texts media) = true.
Proof.
  intros Hrender Htexts. unfold compose.
  destruct texts as [| t texts]; [destruct media as [| m media] |]; [reflexivity | |].
  - cbn [length Nat.ltb Nat.leb negb andb map List.filter Js.join String.concat
           fragment_truthy Js.truthy].
    destruct (useForward options && _); [reflexivity |].
    cbn [map fragment_toString Footprint.substantial]. apply join_head_truthy, Hrender.
  - apply Forall_cons in Htexts as [Ht _].
    cbn [length Nat.ltb Nat.leb negb andb List.filter fragment_truthy].
    rewrite (join_head_truthy Js.LF t texts Ht).
    destruct (useForward options && _); [reflexivity |].
    cbn [map fragment_toString Footprint.substantial].
    now apply join_head_truthy, join_head_truthy.
Qed.

(** X5.  The reply to a link is never empty, provided the link is not the
    empty string and every element has a non-empty string form: whatever the
    services answer, [processTweet] returns a non-empty string or a figure
    with at least one child.  A figure is returned only when forwarding is
    switched on and the platform is [onebot]. *)
Theorem reply_never_empty {W : Type} (ctx : Collab W) (config : Config)
    (tweetUrl : string) (options : Options) (s : St W) :
  Js.truthy tweetUrl = true ->
  (forall e, Js.truthy (h_toString ctx e) = true) ->
  exists reply s',
    processTweet ctx config tweetUrl options s = (Ok reply, s')
    /\ Footprint.substantial reply = true
    /\ (forall children, reply = RFigure children ->
          useForward options = true /\ platform options = Some "onebot").
Proof.
  intros Hlink Hrender.
  destruct (processTweet_outcome ctx config tweetUrl options s)
    as (element & s0 & reply & s' & Hshot & Hrun & Hhow).
  exists reply, s'. split; [exact Hrun |].
  destruct (collect ctx tweetUrl options (seedLink tweetUrl options) element s0)
    as [[[texts media] | error] s1] eqn:Hcollect; destruct Hhow as [-> ->]; cbn [fst snd].
  - split.
    + apply compose_substantial; [exact Hrender |].
      destruct (collect_lines _ _ _ _ _ _ _ _ _ Hcollect) as (lines & -> & Hlines).
      apply Forall_app. split.
      * unfold seedLink. destruct (Js.truthy_flag _); repeat constructor. exact Hlink.
      * eapply Forall_impl; [exact Hlines |]. intros t. apply metadata_line_truthy.
    + intros children. unfold compose.
      destruct (negb _ && negb _); [discriminate |].
      destruct (useForward options) eqn:Hforward; cbn [andb]; [| discriminate].
      destruct (bool_decide (platform options = Some "onebot")) eqn:Hplatform;
        [| discriminate].
      apply bool_decide_eq_true in Hplatform. auto.
  - split; [reflexivity | discriminate].
Qed.

Lemma reply_never_empty_witness :
  exists reply s',
    processTweet Script.ctx (Script.config None) "https://x.com/carol/status/7"
      (pushOptions (Script.config None) "telegram") (Script.start ∅) = (Ok reply, s')
    /\ Footprint.substantial reply = true
    /\ (forall children, reply = RFigure children ->
          useForward (pushOptions (Script.config None) "telegram") = true
          /\ platform (pushOptions (Script.config None) "telegram") = Some "onebot").
Proof.
  apply (reply_never_empty Script.ctx (Script.config None) "https://x.com/carol/status/7"
           (pushOptions (Script.config None) "telegram") (Script.start ∅)).
  - reflexivity.
  - intros []; reflexivity.
Defined.

(** X6.  Translation is best effort once its request is built.  The text
    [processTweet] builds from a response with translation switched on is the
    text it builds with translation switched off, or that text followed by one
    block, labelled with the target language and holding a non-empty
    translation, whatever the translation endpoint does.  Building the text
    throws in one case only: the body is to be sent, translation is on with a
    target language, and the body is not well formed, so that
    [encodeURIComponent] rejects it; then nothing is asked of the outside.
    With translation off the text is built without asking anything. *)
Theorem translation_is_best_effort {W : Type} (ctx : Collab W) (options : Options)
    (apiResponse : ApiResponse) (textParts : list string) (s : St W) :
  exists base,
    (forall s0, metadataText ctx (Footprint.untranslated options) apiResponse textParts s0
                = (Ok base, s0))
    /\ match metadataText ctx options apiResponse textParts s with
       | (Ok texts, s') =>
           texts = base
           \/ exists lang translated,
                targetLang options = Some lang
                /\ Js.truthy_flag (enableTranslation options) = true
                /\ Js.truthy translated = true
                /\ texts = base ++ [Footprint.translationBlock lang translated]
       | (Throw error, s') => error = Js.URIError /\ s' = s
       end
    /\ (fst (metadataText ctx options apiResponse textParts s) = Throw Js.URIError
        <-> sendText options = true
            /\ Js.truthy_flag (enableTranslation options) = true
            /\ is_Some (nonempty (targetLang options))
            /\ Js.truthy (default "" (nonempty (text apiResponse))) = true
            /\ Js.isWellFormed (default "" (nonempty (text apiResponse))) = false).
Proof.
  unfold metadataText. cbn [Footprint.untranslated sendText enableTranslation
                              targetLang Js.truthy_flag].
  set (named := match nonempty (user_screen_name apiResponse) with
                | Some name => textParts ++ ["用户ID: " +:+ name]
                | None => textParts
                end).
  set (original := default "" (nonempty (text apiResponse))).
  assert (Hquiet : forall base : list string,
             (sendText options = true
              /\ Js.truthy_flag (enableTranslation options) = true
              /\ is_Some (nonempty (targetLang options))
              /\ Js.truthy original = true
              /\ Js.isWellFormed original = false -> False) ->
             match ret base s with
             | (Ok texts, s') =>
                 texts = base
                 \/ exists lang translated,
                      targetLang options = Some lang
                      /\ Js.truthy_flag (enableTranslation options) = true
                      /\ Js.truthy translated = true
                      /\ texts = base ++ [Footprint.translationBlock lang translated]
             | (Throw error, s') => error = Js.URIError /\ s' = s
             end
             /\ (fst (ret (S := St W) base s) = Throw Js.URIError
                 <-> sendText options = true
                     /\ Js.truthy_flag (enableTranslation options) = true
                     /\ is_Some (nonempty (targetLang options))
                     /\ Js.truthy original = true
                     /\ Js.isWellFormed original = false)).
  { intros base Hnot. split; [now left |]. split; [discriminate | intros H; destruct (Hnot H)]. }
  destruct (sendText options && Js.truthy original) eqn:Hsend.
  2: { exists named. split; [reflexivity |]. apply Hquiet.
       intros (H1 & _ & _ & H4 & _). now rewrite H1, H4 in Hsend. }
  set (body := named ++ ["推文内容: " +:+ original]).
  exists body. split; [reflexivity |].
  destruct (Js.truthy_flag (enableTranslation options)) eqn:Henabled.
  2: { apply Hquiet. intros (_ & H2 & _). discriminate. }
  destruct (nonempty (targetLang options)) as [lang |] eqn:Hlang.
  2: { apply Hquiet. intros (_ & _ & [x Hx] & _). discriminate. }
  assert (Htarget : targetLang options = Some lang).
  { unfold nonempty in Hlang. destruct (targetLang options) as [l |]; [| discriminate].
    destruct (Js.truthy l); [now injection Hlang as -> | discriminate]. }
  apply andb_true_iff in Hsend as [Hsend Hbody].
  unfold bind.
  destruct (Js.isWellFormed original) eqn:Hwell.
  - destruct (translateText_total ctx original lang Hwell s) as (translated & s' & ->).
    assert (Hnot : sendText options = true /\ true = true /\ is_Some (Some lang)
                   /\ Js.truthy original = true /\ true = false -> False)
      by (intros (_ & _ & _ & _ & H); discriminate).
    destruct translated as [translated |]; cbn [nonempty];
      [destruct (Js.truthy translated) eqn:Hgood |]; cbn [ret fst].
    + split; [| split; [discriminate | intros H; destruct (Hnot H)]].
      right. exists lang, translated. auto.
    + split; [now left | split; [discriminate | intros H; destruct (Hnot H)]].
    + split; [now left | split; [discriminate | intros H; destruct (Hnot H)]].
  - rewrite (translateText_malformed ctx original lang s Hbody Hwell). cbn [fst].
    split; [now split |]. split; [intros _ | reflexivity]. eauto 10.
Qed.

(** ** The pace of a cycle *)

Section Pace.

Context {W : Type}.
Variable ctx : Collab W.
Variable config : Config.

Lemma discovery_pace user excludeRetweets (s : St W) r s' :
  getLatestTweetUrlByPuppeteer ctx user (cookie config) excludeRetweets s = (r, s') ->
  exists events, trace s' = trace s ++ events
                 /\ List.filter Footprint.is_pace events = [CallPage user]
                 /\ pushes events = 0.
Proof.
  unfold getLatestTweetUrlByPuppeteer, bind, call.
  destruct (puppeteer_articles ctx user (cookie config) (world s)) as [[articles | error] w].
  - destruct (nonempty _); intros [= <- <-].
    + now exists [CallPage user].
    + exists [CallPage user; Logged (WarnNoTweet user)]. cbn. now rewrite <- app_assoc.
  - intros [= <- <-]. now exists [CallPage user].
Qed.

Lemma resolution_pace tweetUrl options (s : St W) r s' :
  processTweet ctx config tweetUrl options s = (r, s') ->
  exists events, trace s' = trace s ++ events
                 /\ List.filter Footprint.is_pace events = []
                 /\ pushes events = 0.
Proof.
  intros E. pose proof (resolution_quiet _ _ _ _ _ _ _ E) as (_ & events' & Htrace' & Hquiet).
  apply processTweet_sound in E as (_ & events & Htrace & Hall).
  rewrite Htrace in Htrace'. apply app_inv_head in Htrace' as <-.
  exists events. split; [exact Htrace |]. split; [| exact Hquiet].
  eapply filter_none; [| exact Hall].
  intros [] He; try reflexivity; contradiction.
Qed.

Lemma dispatch_pace groupIds messageToSend (s : St W) r s' :
  pushToGroups ctx groupIds messageToSend s = (r, s') ->
  exists events, trace s' = trace s ++ events
                 /\ List.filter Footprint.is_pace events = []
                 /\ pushes events = 0.
Proof.
  intros E. pose proof (dispatch_quiet _ _ _ _ _ _ E) as (_ & events' & Htrace' & Hquiet).
  apply pushToGroups_sound in E as (_ & events & Htrace & Hall).
  rewrite Htrace in Htrace'. apply app_inv_head in Htrace' as <-.
  exists events. split; [exact Htrace |]. split; [| exact Hquiet].
  eapply filter_none; [| exact Hall]. intros e [g ->]. reflexivity.
Qed.

(** The pace of one iteration: nothing for a malformed entry; otherwise the
    profile page, then the pause, and at most one push decided. *)
Lemma entry_pace bot isManualTrigger sub (f f' : PollFrame W) :
  EntryRun ctx config bot isManualTrigger sub f f' ->
  exists events,
    trace (heap f') = trace (heap f) ++ events
    /\ List.filter Footprint.is_pace events
       = (if well_formed sub then [CallPage (username sub); CallSleep (3 * Time_second)]
          else [])
    /\ pushes events <= (if well_formed sub then 1 else 0).
Proof.
  intros [ Hbad
    | error s1 Hwf Hfind
    | s1 Hwf Hfind
    | latestTweetUrl s1 Hwf Hfind _
    | latestTweetUrl s1 messageToSend s2 s3 Hwf Hfind _ Hresolve Hsend
    | latestTweetUrl s1 messageToSend s2 error s3 Hwf Hfind _ Hresolve Hsend ];
    cbn [heap trace record].
  1: { exists []. rewrite Hbad. split; [now rewrite app_nil_r | split; [reflexivity | cbn; lia]]. }
  all: rewrite Hwf; apply discovery_pace in Hfind as (ev1 & Ht1 & Hp1 & Hq1).
  - exists (ev1 ++ [Logged (WarnCheck (username sub) error); CallSleep (3 * Time_second)]).
    split; [rewrite Ht1, <- !app_assoc; reflexivity |].
    rewrite List.filter_app, pushes_app, Hp1, Hq1. split; [reflexivity | cbn; lia].
  - exists (ev1 ++ [CallSleep (3 * Time_second)]).
    split; [rewrite Ht1, <- !app_assoc; reflexivity |].
    rewrite List.filter_app, pushes_app, Hp1, Hq1. split; [reflexivity | cbn; lia].
  - exists (ev1 ++ [CallSleep (3 * Time_second)]).
    split; [rewrite Ht1, <- !app_assoc; reflexivity |].
    rewrite List.filter_app, pushes_app, Hp1, Hq1. split; [reflexivity | cbn; lia].
  - apply resolution_pace in Hresolve as (ev2 & Ht2 & Hp2 & Hq2).
    apply dispatch_pace in Hsend as (ev3 & Ht3 & Hp3 & Hq3).
    cbn [trace record] in Ht2.
    exists (ev1 ++ [Logged (InfoNewTweet (username sub))] ++ ev2 ++ ev3
            ++ [CallSleep (3 * Time_second)]).
    split.
    + destruct (isNew _ _); cbn [trace stored]; rewrite Ht3, Ht2, Ht1, <- !app_assoc;
        reflexivity.
    + rewrite !List.filter_app, !pushes_app, Hp1, Hp2, Hp3, Hq1, Hq2, Hq3.
      split; [reflexivity | cbn; lia].
  - apply resolution_pace in Hresolve as (ev2 & Ht2 & Hp2 & Hq2).
    apply dispatch_pace in Hsend as (ev3 & Ht3 & Hp3 & Hq3).
    cbn [trace record] in Ht2.
    exists (ev1 ++ [Logged (InfoNewTweet (username sub))] ++ ev2 ++ ev3
            ++ [Logged (WarnCheck (username sub) error); CallSleep (3 * Time_second)]).
    split.
    + rewrite Ht3, Ht2, Ht1, <- !app_assoc. reflexivity.
    + rewrite !List.filter_app, !pushes_app, Hp1, Hp2, Hp3, Hq1, Hq2, Hq3.
      split; [reflexivity | cbn; lia].
Qed.

Lemma cycle_pace bot isManualTrigger subs (f f' : PollFrame W) :
  CycleRun ctx config bot isManualTrigger subs f f' ->
  exists events,
    trace (heap f') = trace (heap f) ++ events
    /\ List.filter Footprint.is_pace events = Footprint.pacing subs
    /\ pushes events <= length (List.filter well_formed subs)
    /\ updatesFound f' = updatesFound f + pushes events.
Proof.
  induction 1 as [f | sub rest f f1 f2 Hentry Hrest IH].
  - exists []. split; [now rewrite app_nil_r |]. repeat split; cbn; lia.
  - destruct (entry_pace _ _ _ _ _ Hentry) as (ev1 & Ht1 & Hp1 & Hq1).
    destruct (entry_count _ _ _ _ _ _ _ Hentry) as (ev1' & Ht1' & Hc1).
    rewrite Ht1 in Ht1'. apply app_inv_head in Ht1' as <-.
    destruct IH as (ev2 & Ht2 & Hp2 & Hq2 & Hc2).
    exists (ev1 ++ ev2). split; [now rewrite Ht2, Ht1, app_assoc |].
    rewrite List.filter_app, pushes_app, Hp1, Hp2.
    unfold Footprint.pacing. cbn [List.filter].
    destruct (well_formed sub); cbn [flat_map length app]; repeat split; lia.
Qed.

End Pace.

(** X7.  A cycle that reaches the loop visits the profile page of every
    well-formed subscription exactly once, in the order of the configuration,
    and pauses three seconds after each, whatever fails on the way; an entry
    without a user name or without groups costs neither a visit nor a pause.
    No more pushes are decided than there are well-formed entries, and a
    manual run reports that number. *)
Theorem cycle_pacing {W : Type} (ctx : Collab W) (config : Config)
    (isManualTrigger : bool) (s : St W) (settings : SubscriptionSettings) (bot : Bot) :
  enableSubscription config = Some settings ->
  bots ctx (sub_platform settings +:+ ":" +:+ selfId settings) (world s) = Some bot ->
  online bot = true ->
  exists events s',
    checkAndPushUpdates ctx config isManualTrigger s
    = (Ok (if isManualTrigger then Some (summary (pushes events)) else None), s')
    /\ trace s' = trace s ++ events
    /\ List.filter Footprint.is_pace events = Footprint.pacing (subscriptions settings)
    /\ pushes events <= length (List.filter well_formed (subscriptions settings)).
Proof.
  intros Henabled Hbot Honline. unfold checkAndPushUpdates. rewrite Henabled.
  unfold bind, get_bot. rewrite Hbot, Honline. cbn [negb].
  destruct (pollAll_run ctx config bot isManualTrigger (subscriptions settings)
              {| heap := s; updatesFound := 0 |}) as (f' & Hrun & Hcycle).
  destruct (cycle_pace _ _ _ _ _ _ _ Hcycle) as (events & Htrace & Hpace & Hbound & Hcount).
  cbn [heap updatesFound] in Htrace, Hcount.
  exists events, (heap f'). rewrite Hrun, Hcount. auto.
Qed.

Lemma cycle_pacing_witness :
  exists events s',
    checkAndPushUpdates Script.ctx (Rounds.config Rounds.mixed) false (Script.start ∅)
    = (Ok None, s')
    /\ trace s' = events
    /\ List.filter Footprint.is_pace events
       = [ CallPage "carol"; CallSleep 3000; CallPage "erin"; CallSleep 3000;
           CallPage "alice"; CallSleep 3000 ]
    /\ pushes events <= 3.
Proof.
  exact (cycle_pacing Script.ctx (Rounds.config Rounds.mixed) false (Script.start ∅)
           (Script.settings "42" Rounds.mixed) Runs.online_bot eq_refl eq_refl eq_refl).
Defined.

(** ** The cursor *)

Section Cursor.

Context {W : Type}.
Variable ctx : Collab W.
Variable config : Config.

(** The table after an iteration whose discovery found a link, by the way the
    iteration went. *)
Lemma entry_cursor bot isManualTrigger sub (f f' : PollFrame W) latestTweetUrl s1 :
  well_formed sub = true ->
  getLatestTweetUrlByPuppeteer ctx (username sub) (cookie config)
    (default true (excludeRetweets sub)) (heap f) = (Ok (Some latestTweetUrl), s1) ->
  EntryRun ctx config bot isManualTrigger sub f f' ->
  db (heap f') !! username sub = Some latestTweetUrl
  <-> (db (heap f) !! username sub = Some latestTweetUrl
       \/ exists messageToSend s2 s3,
            processTweet ctx config latestTweetUrl (pushOptions config (bot_platform bot))
              (record (Logged (InfoNewTweet (username sub))) s1) = (Ok messageToSend, s2)
            /\ pushToGroups ctx (groupIds sub) messageToSend s2 = (Ok tt, s3)).
Proof.
  intros Hwf Hfind Hrun.
  pose proof (getLatest_truthy _ _ _ _ _ _ _ Hfind) as Htruthy.
  pose proof (discovery_quiet _ _ _ _ _ _ _ Hfind) as [Hdb1 _].
  destruct Hrun as [ Hbad
    | error s1' _ Hfind'
    | s1' _ Hfind'
    | url s1' _ Hfind' Hpush
    | url s1' messageToSend s2 s3 _ Hfind' Hpush Hresolve Hsend
    | url s1' messageToSend s2 error s3 _ Hfind' Hpush Hresolve Hsend ];
    try congruence;
    rewrite Hfind in Hfind'; injection Hfind' as <- <-;
    rewrite (shouldPush_spec _ _ _ Htruthy), Hdb1 in Hpush.
  - cbn [heap db record]. rewrite Hdb1. split; [now left |].
    intros [Hseen | (messageToSend & s2 & s3 & _ & _)]; [exact Hseen |].
    apply orb_false_iff in Hpush as [Hold _].
    destruct (isNew_spec (db (heap f) !! username sub) _ Htruthy) as [_ Hnew].
    destruct (decide (db (heap f) !! username sub = Some latestTweetUrl)) as [Hsame | Hdiff];
      [exact Hsame |].
    rewrite Hnew in Hold by now right. discriminate.
  - split; [| intros _].
    + intros _. right. eauto.
    + pose proof (resolution_quiet _ _ _ _ _ _ _ Hresolve) as [Hdb2 _].
      pose proof (dispatch_quiet _ _ _ _ _ _ Hsend) as [Hdb3 _].
      cbn [db record] in Hdb2. cbn [heap db record]. rewrite Hdb1.
      destruct (isNew (db (heap f) !! username sub) latestTweetUrl) eqn:Hnew.
      * cbn [db stored]. apply lookup_insert_eq.
      * rewrite Hdb3, Hdb2, Hdb1.
        destruct (isNew_spec (db (heap f) !! username sub) _ Htruthy) as [_ Hback].
        destruct (decide (db (heap f) !! username sub = Some latestTweetUrl))
          as [Hsame | Hdiff]; [exact Hsame |].
        rewrite Hback in Hnew by now right. discriminate.
  - pose proof (resolution_quiet _ _ _ _ _ _ _ Hresolve) as [Hdb2 _].
    pose proof (dispatch_quiet _ _ _ _ _ _ Hsend) as [Hdb3 _].
    cbn [db record] in Hdb2. cbn [heap db record]. rewrite Hdb3, Hdb2, Hdb1.
    split; [now left |].
    intros [Hseen | (messageToSend' & s2' & s3' & Hresolve' & Hsend')]; [exact Hseen |].
    rewrite Hresolve in Hresolve'. injection Hresolve' as <- <-.
    rewrite Hsend in Hsend'. discriminate.
Qed.

Lemma entry_nonempty bot isManualTrigger sub (f f' : PollFrame W) :
  EntryRun ctx config bot isManualTrigger sub f f' ->
  map_Forall (fun _ link => Js.truthy link = true) (db (heap f)) ->
  map_Forall (fun _ link => Js.truthy link = true) (db (heap f')).
Proof.
  intros Hrun Hall.
  destruct (entry_table _ _ _ _ _ _ _ Hrun) as [-> | (url & s1 & Hfind & _ & ->)];
    [exact Hall |].
  apply map_Forall_insert_2; [| exact Hall]. eapply getLatest_truthy; eauto.
Qed.

Lemma cycle_nonempty bot isManualTrigger subs (f f' : PollFrame W) :
  CycleRun ctx config bot isManualTrigger subs f f' ->
  map_Forall (fun _ link => Js.truthy link = true) (db (heap f)) ->
  map_Forall (fun _ link => Js.truthy link = true) (db (heap f')).
Proof.
  induction 1 as [f | sub rest f f1 f2 Hentry _ IH]; [auto |].
  intros Hall. apply IH. eapply entry_nonempty; eauto.
Qed.

End Cursor.

(** X8.  The cursor of a subscription moves exactly when the push went
    through.  After an iteration whose discovery found a link, the table has
    that link for the user if and only if it had it before or the message was
    sent to every group of the entry: a failed dispatch leaves the old cursor,
    so the tweet is new again for the next run.  Once the table has the link,
    a scheduled iteration that finds the same link again does nothing but
    pause: the same tweet is not pushed twice by the schedule. *)
Theorem cursor_moves_iff_dispatched {W : Type} (ctx : Collab W) (config : Config)
    (bot : Bot) (isManualTrigger : bool) (sub : Subscription) (f : PollFrame W)
    (latestTweetUrl : string) (s1 : St W) :
  well_formed sub = true ->
  getLatestTweetUrlByPuppeteer ctx (username sub) (cookie config)
    (default true (excludeRetweets sub)) (heap f) = (Ok (Some latestTweetUrl), s1) ->
  exists f1,
    pollSubscription ctx config bot isManualTrigger sub f = (Ok tt, f1)
    /\ (db (heap f1) !! username sub = Some latestTweetUrl
        <-> (db (heap f) !! username sub = Some latestTweetUrl
             \/ exists messageToSend s2 s3,
                  processTweet ctx config latestTweetUrl
                    (pushOptions config (bot_platform bot))
                    (record (Logged (InfoNewTweet (username sub))) s1)
                  = (Ok messageToSend, s2)
                  /\ pushToGroups ctx (groupIds sub) messageToSend s2 = (Ok tt, s3)))
    /\ (forall s2,
          db (heap f1) !! username sub = Some latestTweetUrl ->
          getLatestTweetUrlByPuppeteer ctx (username sub) (cookie config)
            (default true (excludeRetweets sub)) (heap f1) = (Ok (Some latestTweetUrl), s2) ->
          pollSubscription ctx config bot false sub f1
          = (Ok tt, {| heap := record (CallSleep (3 * Time_second)) s2;
                       updatesFound := updatesFound f1 |})).
Proof.
  intros Hwf Hfind.
  destruct (pollSubscription_run ctx config bot isManualTrigger sub f) as (f1 & Hrun & Hhow).
  exists f1. split; [exact Hrun |]. split; [eapply entry_cursor; eauto |].
  intros s2 Hseen Hagain.
  destruct (pollSubscription_run ctx config bot false sub f1) as (f2 & Hrun2 & Hhow2).
  rewrite Hrun2. f_equal.
  pose proof (entry_decision _ _ _ _ _ _ _ _ _ Hwf Hagain Hhow2) as Hdecision.
  rewrite Hseen, (isNew_same _ (getLatest_truthy _ _ _ _ _ _ _ Hagain)) in Hdecision.
  exact (proj1 Hdecision).
Qed.

Lemma cursor_moves_iff_dispatched_witness :
  exists f1,
    pollSubscription Script.ctx (Script.config None) Runs.online_bot false Runs.carol
      (Runs.frame ∅) = (Ok tt, f1)
    /\ (db (heap f1) !! "carol" = Some "https://x.com/carol/status/7"
        <-> ((∅ : gmap string string) !! "carol" = Some "https://x.com/carol/status/7"
             \/ exists messageToSend s2 s3,
                  processTweet Script.ctx (Script.config None) "https://x.com/carol/status/7"
                    (pushOptions (Script.config None) "onebot")
                    (record (Logged (InfoNewTweet "carol"))
                       (record (CallPage "carol") (Script.start ∅)))
                  = (Ok messageToSend, s2)
                  /\ pushToGroups Script.ctx ["g1"; "g2"] messageToSend s2 = (Ok tt, s3))).
Proof.
  destruct (cursor_moves_iff_dispatched Script.ctx (Script.config None) Runs.online_bot false
              Runs.carol (Runs.frame ∅) "https://x.com/carol/status/7"
              (record (CallPage "carol") (Script.start ∅)) eq_refl eq_refl)
    as (f1 & Hrun & Hcursor & _).
  exists f1. split; [exact Hrun | exact Hcursor].
Defined.

(** X9.  The table never holds an empty link: if every stored link is a
    non-empty string before a call of [checkAndPushUpdates], every stored link
    is one after it, whatever the pages show and whatever fails.  So the test
    [!lastUrl] of the next run holds of a user exactly when the table has no
    record for that user. *)
Theorem stored_links_are_never_empty {W : Type} (ctx : Collab W) (config : Config)
    (isManualTrigger : bool) (s : St W) :
  map_Forall (fun _ link => Js.truthy link = true) (db s) ->
  map_Forall (fun _ link => Js.truthy link = true)
    (db (snd (checkAndPushUpdates ctx config isManualTrigger s)))
  /\ forall user,
       negb (Js.truthy_opt (db (snd (checkAndPushUpdates ctx config isManualTrigger s))
                            !! user)) = true
       <-> db (snd (checkAndPushUpdates ctx config isManualTrigger s)) !! user = None.
Proof.
  intros Hall.
  assert (Hafter : map_Forall (fun _ link => Js.truthy link = true)
                     (db (snd (checkAndPushUpdates ctx config isManualTrigger s)))).
  { destruct (checkAndPushUpdates_run ctx config isManualTrigger s)
      as [-> | (settings & bot & f' & _ & Hcycle & ->)]; [exact Hall |].
    exact (cycle_nonempty _ _ _ _ _ _ _ Hcycle Hall). }
  split; [exact Hafter |]. intros user.
  destruct (db (snd (checkAndPushUpdates ctx config isManualTrigger s)) !! user)
    as [link |] eqn:Hlink; cbn [Js.truthy_opt].
  - rewrite (Hafter user link Hlink). split; discriminate.
  - split; reflexivity.
Qed.

Lemma stored_links_are_never_empty_witness :
  map_Forall (fun _ link => Js.truthy link = true)
    (db (snd (checkAndPushUpdates Script.ctx (Rounds.config Rounds.mixed) true
                (Script.start Runs.seen)))).
Proof.
  apply (stored_links_are_never_empty Script.ctx (Rounds.config Rounds.mixed) true
           (Script.start Runs.seen)).
  apply map_Forall_singleton. reflexivity.
Defined.

(** ** The handlers of the chat *)

Section Handlers.

Context {W : Type}.
Variable ctx : Collab W.
Variable config : Config.
Variable session : Session.t W.

Lemma steady_ret {A} (a : A) : Footprint.steady (W := W) (ret a).
Proof. intros f r f' [= <- <-]. apply extends_refl. Qed.

Lemma steady_bind {A B} (m : M (Chat.Frame W) A) (k : A -> M (Chat.Frame W) B) :
  Footprint.steady m -> (forall a, Footprint.steady (k a)) -> Footprint.steady (bind m k).
Proof.
  intros Hm Hk f r f' E. unfold bind in E.
  destruct (m f) as [[a | e] f1] eqn:E1.
  - eapply extends_trans; [eapply Hm | eapply Hk]; eauto.
  - injection E as <- <-. eapply Hm; eauto.
Qed.

Lemma steady_try {A} (m : M (Chat.Frame W) A) (handler : string -> M (Chat.Frame W) A) :
  Footprint.steady m -> (forall e, Footprint.steady (handler e)) ->
  Footprint.steady (try_catch m handler).
Proof.
  intros Hm Hh f r f' E. unfold try_catch in E.
  destruct (m f) as [[a | e] f1] eqn:E1.
  - injection E as <- <-. eapply Hm; eauto.
  - eapply extends_trans; [eapply Hm | eapply Hh]; eauto.
Qed.

Lemma steady_note a : Footprint.steady (W := W) (Chat.note a).
Proof. intros f r f' [= <- <-]. apply extends_refl. Qed.

Lemma steady_send message : Footprint.steady (Chat.session_send session message).
Proof.
  intros f r f' E. unfold Chat.session_send in E.
  destruct (Session.send session message (world (Chat.inner f))) as [r0 w].
  injection E as <- <-. apply extends_at_world.
Qed.

Lemma steady_delete statusMessage :
  Footprint.steady (Chat.session_delete session statusMessage).
Proof.
  intros f r f' E. unfold Chat.session_delete in E.
  destruct (Session.deleteMessage session _ _ (world (Chat.inner f))) as [r0 w].
  injection E as <- <-. apply extends_at_world.
Qed.

Lemma steady_within {A} (P : Event -> Prop) (m : M (St W) A) :
  (forall e, P e -> Footprint.lookup_event e) -> sound P m ->
  Footprint.steady (Chat.within m).
Proof.
  intros HP Hm f r f' E. unfold Chat.within in E.
  destruct (m (Chat.inner f)) as [r0 s1] eqn:E1. injection E as <- <-.
  eapply extends_weaken; [exact HP | eapply Hm; eauto].
Qed.

Lemma steady_discovery user excludeRetweets :
  Footprint.steady
    (Chat.within (getLatestTweetUrlByPuppeteer ctx user (cookie config) excludeRetweets)).
Proof.
  eapply steady_within; [| apply getLatest_sound].
  intros [] He; try exact I; try contradiction. destruct line; try exact I; contradiction.
Qed.

Lemma steady_resolution tweetUrl options :
  Footprint.steady (Chat.within (processTweet ctx config tweetUrl options)).
Proof.
  eapply steady_within; [| apply processTweet_sound].
  intros [] He; try exact I; try contradiction. destruct line; try exact I; contradiction.
Qed.

Lemma within_run {A} (m : M (St W) A) (f : Chat.Frame W) r s :
  m (Chat.inner f) = (r, s) ->
  Chat.within m f = (r, {| Chat.inner := s; Chat.acts := Chat.acts f |}).
Proof. intros E. unfold Chat.within. now rewrite E. Qed.

Lemma total_note a : total (Chat.note (W := W) a).
Proof. intros f. now eexists _, _. Qed.

Lemma testUser_steady username : Footprint.steady (Chat.testUser ctx config session username).
Proof.
  unfold Chat.testUser. destruct (nonempty username) as [user |]; [| apply steady_ret].
  apply steady_bind; [apply steady_send | intros _].
  apply steady_try.
  - apply steady_bind; [apply steady_discovery |]. intros latestTweetUrl.
    destruct (nonempty latestTweetUrl) as [link |]; [| apply steady_ret].
    apply steady_bind; [apply steady_send | intros _].
    apply steady_bind; [apply steady_resolution | intros messageToSend].
    apply steady_bind; [apply steady_send | intros _; apply steady_ret].
  - intros e. apply steady_bind; [apply steady_note | intros _; apply steady_ret].
Qed.

End Handlers.

(** X10.  The command that tests one user is a dry run.  Whatever the user
    name and whatever the services do, it leaves the table as it was and adds
    nothing to the trace but a discovery and a resolution: no dispatch to a
    group, no pause.  Without a user name it answers with the prompt and does
    nothing at all.  It throws only when its first notice cannot be sent;
    every later failure is turned into its answer. *)
Theorem test_command_is_dry_run {W : Type} (ctx : Collab W) (config : Config)
    (session : Session.t W) (username : option string) (f : Chat.Frame W) :
  db (Chat.inner (snd (Chat.testUser ctx config session username f))) = db (Chat.inner f)
  /\ (exists events,
        trace (Chat.inner (snd (Chat.testUser ctx config session username f)))
        = trace (Chat.inner f) ++ events
        /\ Forall Footprint.lookup_event events
        /\ List.filter Footprint.is_dispatch events = [])
  /\ (nonempty username = None ->
      Chat.testUser ctx config session username f = (Ok (Some "请输入要测试的用户名."), f))
  /\ (forall error,
        fst (Chat.testUser ctx config session username f) = Throw error ->
        exists user,
          nonempty username = Some user
          /\ fst (Session.send session
                    (RString ("正在为 [" +:+ user
                              +:+ "] 获取最新推文并模拟推送到当前会话..."))
                    (world (Chat.inner f))) = Throw error).
Proof.
  destruct (Chat.testUser ctx config session username f) as [r f'] eqn:Hrun.
  pose proof (testUser_steady ctx config session username f r f' Hrun)
    as (Hdb & events & Htrace & Hall).
  cbn [fst snd]. split; [exact Hdb |]. split.
  { exists events. split; [exact Htrace |]. split; [exact Hall |].
    eapply filter_none; [| exact Hall]. intros [] He; try reflexivity; contradiction. }
  unfold Chat.testUser in Hrun. split.
  - intros Hnone. rewrite Hnone in Hrun. now rewrite <- Hrun.
  - intros error ->. destruct (nonempty username) as [user |]; [| discriminate].
    exists user. split; [reflexivity |].
    unfold bind at 1, Chat.session_send at 1 in Hrun.
    destruct (Session.send session _ (world (Chat.inner f))) as [[ids | e] w];
      [| now injection Hrun as -> _].
    match type of Hrun with
    | try_catch ?m ?h ?f1 = _ =>
        destruct (total_try m h
                    (fun e => total_bind _ _ (total_note _) (fun _ => total_ret _)) f1)
          as (answer & f2 & Hok)
    end.
    rewrite Hok in Hrun. discriminate.
Qed.

Lemma test_command_is_dry_run_witness :
  Chat.testUser Script.ctx (Script.config None) (Room.session "hi" false) (Some "") Room.start
  = (Ok (Some "请输入要测试的用户名."), Room.start).
Proof.
  exact (proj1 (proj2 (proj2
           (test_command_is_dry_run Script.ctx (Script.config None) (Room.session "hi" false)
              (Some "") Room.start))) eq_refl).
Defined.

(** X11.  The middleware answers every link, and cleans up only after the
    answer went out.  When the message holds a link and the status notice was
    sent, the link is resolved with the options of a manual parse and the
    result, whatever it is, is given to [session.send]; the status notice is
    deleted, by the first identifier its sending returned, exactly when that
    second sending succeeded.  When it failed the handler throws and the
    status notice stays.  A message without a link is passed on untouched. *)
Theorem answer_then_cleanup {W : Type} (ctx : Collab W) (config : Config)
    (session : Session.t W) (f : Chat.Frame W) (found : string)
    (statusMessage : list string) (w : W) :
  TWEET_URL_REGEX.exec (Session.content session) = Some found ->
  Session.send session (Chat.statusNotice session) (world (Chat.inner f))
  = (Ok statusMessage, w) ->
  exists messageToSend s1,
    processTweet ctx config found (parseOptions config (Session.platform session))
      (at_world w (Chat.inner f)) = (Ok messageToSend, s1)
    /\ match Session.send session messageToSend (world s1) with
       | (Ok _, w2) =>
           Chat.acts (snd (Chat.onMessage ctx config session f))
           = Chat.acts f ++ [ Chat.Sent (Chat.statusNotice session);
                              Chat.Sent messageToSend;
                              Chat.Deleted (Session.channelId session) (head statusMessage) ]
           /\ fst (Chat.onMessage ctx config session f)
              = match fst (Session.deleteMessage session (Session.channelId session)
                             (head statusMessage) w2) with
                | Ok _ => Ok Chat.Answered
                | Throw error => Throw error
                end
       | (Throw error, _) =>
           Chat.acts (snd (Chat.onMessage ctx config session f))
           = Chat.acts f ++ [ Chat.Sent (Chat.statusNotice session);
                              Chat.Sent messageToSend ]
           /\ fst (Chat.onMessage ctx config session f) = Throw error
       end.
Proof.
  intros Hmatch Hstatus.
  destruct (processTweet_total ctx config found
              (parseOptions config (Session.platform session)) (at_world w (Chat.inner f)))
    as (messageToSend & s1 & Hresolve).
  exists messageToSend, s1. split; [exact Hresolve |].
  destruct (Chat.onMessage ctx config session f) as [r f'] eqn:Hrun.
  unfold Chat.onMessage in Hrun. rewrite Hmatch in Hrun.
  unfold bind at 1, Chat.session_send at 1 in Hrun. rewrite Hstatus in Hrun.
  unfold bind at 1 in Hrun.
  erewrite within_run in Hrun by (cbn [Chat.inner]; exact Hresolve).
  unfold bind at 1, Chat.session_send at 1 in Hrun. cbn [Chat.inner Chat.acts] in Hrun.
  destruct (Session.send session messageToSend (world s1)) as [[ids | error] w2].
  - unfold bind, Chat.session_delete in Hrun.
    cbn [Chat.inner Chat.acts world at_world] in Hrun.
    destruct (Session.deleteMessage session _ _ w2) as [[[] | error] w3];
      injection Hrun as <- <-; cbn [fst snd Chat.acts]; rewrite <- !app_assoc;
      split; reflexivity.
  - injection Hrun as <- <-. cbn [fst snd Chat.acts]. rewrite <- !app_assoc.
    split; reflexivity.
Qed.

Lemma answer_then_cleanup_witness :
  exists messageToSend s1,
    processTweet Script.ctx (Script.config None) "https://x.com/alice/status/3"
      (parseOptions (Script.config None) "onebot") (Script.start ∅) = (Ok messageToSend, s1)
    /\ Chat.acts (snd (Chat.onMessage Script.ctx (Script.config None)
                         (Room.session "see https://x.com/alice/status/3" true) Room.start))
       = [ Chat.Sent (RString "<quote id=m0/>正在解析推文链接, 请稍候...");
           Chat.Sent messageToSend ]
    /\ fst (Chat.onMessage Script.ctx (Script.config None)
              (Room.session "see https://x.com/alice/status/3" true) Room.start)
       = Throw "forward rejected".
Proof.
  destruct (answer_then_cleanup Script.ctx (Script.config None)
              (Room.session "see https://x.com/alice/status/3" true) Room.start
              "https://x.com/alice/status/3" ["m1"; "m2"] tt eq_refl eq_refl)
    as (messageToSend & s1 & Hresolve & Hsend).
  exists messageToSend, s1. split; [exact Hresolve |].
  assert (Hfigure : exists children, messageToSend = RFigure children).
  { vm_compute in Hresolve. injection Hresolve as <- _. eauto. }
  destruct Hfigure as (children & ->). exact Hsend.
Defined.

Lemma includes_middle before needle after :
  Js.includes (before +:+ needle +:+ after) needle = true.
Proof.
  induction before as [| ch before IH].
  - change (EmptyString +:+ needle +:+ after) with (needle +:+ after).
    destruct (needle +:+ after) eqn:E; cbn [Js.includes]; rewrite <- E, prefix_append;
      reflexivity.
  - change (String ch before +:+ needle +:+ after)
      with (String ch (before +:+ needle +:+ after)).
    cbn [Js.includes]. rewrite IH. apply orb_true_r.
Qed.

(** X12.  A message is answered only if it holds the path of a status: a
    message in which [/status/] does not occur is passed on by the
    middleware, of the current plugin and of the first one, with no notice
    sent and nothing resolved. *)
Theorem message_without_status_is_passed_on {W : Type} (ctx : Collab W) (config : Config)
    (session : Session.t W) (f : Chat.Frame W) :
  Js.includes (Session.content session) "/status/" = false ->
  Chat.onMessage ctx config session f = (Ok Chat.Passed, f)
  /\ Gen1.onMessage ctx config session f = (Ok Chat.Passed, f).
Proof.
  intros Hnone.
  assert (Hexec : TWEET_URL_REGEX.exec (Session.content session) = None).
  { destruct (TWEET_URL_REGEX.exec (Session.content session)) as [found |] eqn:Hexec;
      [| reflexivity].
    destruct (exec_sound _ _ Hexec) as (before & after & Hcontent & Hhere).
    destruct (match_here_sound _ _ Hhere)
      as (_ & scheme & host & user & id & _ & Hfound & _).
    rewrite Hcontent, Hfound in Hnone. unfold TWEET_URL_REGEX.link in Hnone.
    pose proof (includes_middle (before +:+ scheme +:+ "://" +:+ host +:+ "/" +:+ user)
                  "/status/" (id +:+ after)) as Hthere.
    rewrite !append_assoc in Hnone. rewrite !append_assoc in Hthere. congruence. }
  unfold Chat.onMessage, Gen1.onMessage. rewrite Hexec. split; reflexivity.
Qed.

Lemma message_without_status_is_passed_on_witness :
  Chat.onMessage Script.ctx (Script.config None)
    (Room.session "her page is https://x.com/alice" false) Room.start
  = (Ok Chat.Passed, Room.start)
  /\ Gen1.onMessage Script.ctx (Script.config None)
       (Room.session "her page is https://x.com/alice" false) Room.start
     = (Ok Chat.Passed, Room.start).
Proof.
  exact (message_without_status_is_passed_on Script.ctx (Script.config None)
           (Room.session "her page is https://x.com/alice" false) Room.start eq_refl).
Defined.

(** ** The first plugin *)

Section FirstPlugin.

Context {W : Type}.
Variable ctx : Collab W.
Variable config : Config.
Variable session : Session.t W.

Lemma calm_ret {A} (a : A) : Footprint.calm (W := W) (ret a).
Proof. intros f r f' [= <- <-]. exists []. now rewrite app_nil_r. Qed.

Lemma calm_bind {A B} (m : M (Chat.Frame W) A) (k : A -> M (Chat.Frame W) B) :
  Footprint.calm m -> (forall a, Footprint.calm (k a)) -> Footprint.calm (bind m k).
Proof.
  intros Hm Hk f r f' E. unfold bind in E.
  destruct (m f) as [[a | e] f1] eqn:E1.
  - destruct (Hm _ _ _ E1) as (more1 & H1 & Q1). destruct (Hk _ _ _ _ E) as (more2 & H2 & Q2).
    exists (more1 ++ more2). rewrite H2, H1, <- app_assoc, List.filter_app, Q1, Q2. auto.
  - injection E as <- <-. eapply Hm; eauto.
Qed.

Lemma calm_try {A} (m : M (Chat.Frame W) A) (handler : string -> M (Chat.Frame W) A) :
  Footprint.calm m -> (forall e, Footprint.calm (handler e)) ->
  Footprint.calm (try_catch m handler).
Proof.
  intros Hm Hh f r f' E. unfold try_catch in E.
  destruct (m f) as [[a | e] f1] eqn:E1.
  - injection E as <- <-. eapply Hm; eauto.
  - destruct (Hm _ _ _ E1) as (more1 & H1 & Q1). destruct (Hh _ _ _ _ E) as (more2 & H2 & Q2).
    exists (more1 ++ more2). rewrite H2, H1, <- app_assoc, List.filter_app, Q1, Q2. auto.
Qed.

Lemma calm_warning line : Footprint.calm (W := W) (Chat.note (Chat.Warned line)).
Proof. intros f r f' [= <- <-]. now exists [Chat.Warned line]. Qed.

Lemma calm_send message : Footprint.calm (Chat.session_send session message).
Proof.
  intros f r f' E. unfold Chat.session_send in E.
  destruct (Session.send session message (world (Chat.inner f))) as [r0 w].
  injection E as <- <-. now exists [Chat.Sent message].
Qed.

Lemma calm_within {A} (m : M (St W) A) : Footprint.calm (Chat.within m).
Proof.
  intros f r f' E. unfold Chat.within in E.
  destruct (m (Chat.inner f)) as [r0 s1]. injection E as <- <-.
  exists []. now rewrite app_nil_r.
Qed.

Lemma resolveAndSend_calm originalUrl :
  Footprint.calm (Gen1.resolveAndSend ctx config session originalUrl).
Proof.
  unfold Gen1.resolveAndSend.
  apply calm_bind; [apply calm_within | intros element].
  apply calm_bind.
  - apply calm_try; [apply calm_within |].
    intros e. apply calm_bind; [apply calm_warning | intros _; apply calm_ret].
  - intros parts. apply calm_bind; [apply calm_send | intros _; apply calm_ret].
Qed.

Lemma gen1_captureScreenshot_total originalUrl :
  total (Gen1.captureScreenshot ctx config originalUrl).
Proof.
  unfold Gen1.captureScreenshot. destruct (cfg_showScreenshot config); [| apply total_ret].
  apply total_try. intros e. apply total_ret.
Qed.

End FirstPlugin.

(** X13.  The first plugin always cleans up.  When the message holds a link
    and the status notice was sent, the last thing the middleware does,
    whatever happened in between, is to delete that notice by the first
    identifier its sending returned, and it deletes nothing else.  The
    middleware throws only when that deletion throws: every other error,
    that of sending the answer included, is logged and swallowed. *)
Theorem first_plugin_always_cleans_up {W : Type} (ctx : Collab W) (config : Config)
    (session : Session.t W) (f : Chat.Frame W) (originalUrl : string)
    (statusMessage : list string) (w : W) :
  TWEET_URL_REGEX.exec (Session.content session) = Some originalUrl ->
  Session.send session (Gen1.statusNotice session) (world (Chat.inner f))
  = (Ok statusMessage, w) ->
  exists between w2,
    Chat.acts (snd (Gen1.onMessage ctx config session f))
    = Chat.acts f ++ Chat.Sent (Gen1.statusNotice session) :: between
      ++ [Chat.Deleted (Session.channelId session) (head statusMessage)]
    /\ List.filter Footprint.is_deletion between = []
    /\ fst (Gen1.onMessage ctx config session f)
       = match fst (Session.deleteMessage session (Session.channelId session)
                      (head statusMessage) w2) with
         | Ok _ => Ok Chat.Answered
         | Throw error => Throw error
         end.
Proof.
  intros Hmatch Hstatus.
  destruct (Gen1.onMessage ctx config session f) as [r f'] eqn:Hrun.
  unfold Gen1.onMessage in Hrun. rewrite Hmatch in Hrun.
  unfold bind at 1, Chat.session_send at 1 in Hrun. rewrite Hstatus in Hrun.
  unfold bind at 1, Chat.finally in Hrun.
  match type of Hrun with
  | context [try_catch ?m ?h ?f1] =>
      destruct (total_try m h (fun e => total_note _) f1) as ([] & f2 & Hbody);
      pose proof (calm_try m h (resolveAndSend_calm ctx config session originalUrl)
                    (fun e => calm_warning _) f1 _ _ Hbody) as (between & Hacts & Hquiet)
  end.
  rewrite Hbody in Hrun. cbn [Chat.acts] in Hacts.
  exists between, (world (Chat.inner f2)).
  unfold Chat.session_delete in Hrun.
  destruct (Session.deleteMessage session _ _ (world (Chat.inner f2))) as [[[] | error] w3];
    injection Hrun as <- <-; cbn [fst snd Chat.acts]; rewrite Hacts, <- !app_assoc;
    auto.
Qed.

Lemma first_plugin_always_cleans_up_witness :
  exists between w2,
    Chat.acts (snd (Gen1.onMessage Script.ctx (Script.config None)
                      (Room.session "see https://x.com/alice/status/3" true) Room.start))
    = Chat.Sent (RString "<quote id=m0/>正在解析推文链接，请稍候...") :: between
      ++ [Chat.Deleted "c1" (Some "m1")]
    /\ List.filter Footprint.is_deletion between = []
    /\ fst (Gen1.onMessage Script.ctx (Script.config None)
              (Room.session "see https://x.com/alice/status/3" true) Room.start)
       = match fst (Room.deleteMessage "c1" (Some "m1") w2) with
         | Ok _ => Ok Chat.Answered
         | Throw error => Throw error
         end.
Proof.
  exact (first_plugin_always_cleans_up Script.ctx (Script.config None)
           (Room.session "see https://x.com/alice/status/3" true) Room.start
           "https://x.com/alice/status/3" ["m1"; "m2"] tt eq_refl eq_refl).
Defined.

(** X14.  In the first plugin a failed request to the metadata service costs
    the screenshot as well: whatever the screenshot block returned, when the
    request throws the middleware logs the error and sends the plain notice
    that nothing could be fetched, without the message of the error and
    without the screenshot. *)
Theorem first_plugin_fetch_failure {W : Type} (ctx : Collab W) (config : Config)
    (session : Session.t W) (f : Chat.Frame W) (originalUrl : string)
    (screenshotElement : option h) (s0 : St W) (message : string) (w : W) :
  Gen1.captureScreenshot ctx config originalUrl (Chat.inner f) = (Ok screenshotElement, s0) ->
  http_get ctx (Js.replace_host "api.vxtwitter.com" originalUrl) (world s0)
  = (Throw message, w) ->
  Chat.acts (snd (Gen1.resolveAndSend ctx config session originalUrl f))
  = Chat.acts f ++ [ Chat.Warned (Chat.ApiFailed message);
                     Chat.Sent (RString "未能获取到该推文的任何内容。") ]
  /\ trace (Chat.inner (snd (Gen1.resolveAndSend ctx config session originalUrl f)))
     = trace s0 ++ [CallApi (Js.replace_host "api.vxtwitter.com" originalUrl)].
Proof.
  intros Hshot Hget.
  destruct (Gen1.resolveAndSend ctx config session originalUrl f) as [r f'] eqn:Hrun.
  unfold Gen1.resolveAndSend in Hrun.
  unfold bind at 1 in Hrun. rewrite (within_run _ _ _ _ Hshot) in Hrun.
  unfold bind at 1, try_catch, Chat.within, Gen1.collect in Hrun.
  unfold bind at 1, call in Hrun. cbn [Chat.inner Chat.acts] in Hrun.
  rewrite Hget in Hrun.
  unfold bind at 1, Chat.note, ret in Hrun. cbn [Chat.inner Chat.acts fst snd] in Hrun.
  unfold bind, Chat.session_send in Hrun. cbn [Chat.inner Chat.acts] in Hrun.
  change (Gen1.compose ctx config session [] [])
    with (RString "未能获取到该推文的任何内容。") in Hrun.
  destruct (Session.send session _ _) as [[ids | error] w2];
    injection Hrun as <- <-; cbn [fst snd Chat.acts Chat.inner trace at_world record];
    rewrite <- !app_assoc; split; reflexivity.
Qed.

Lemma first_plugin_fetch_failure_witness :
  Chat.acts (snd (Gen1.resolveAndSend Script.ctx (Script.config None)
                    (Room.session "" false) "https://x.com/bob/status/2" Room.start))
  = [ Chat.Warned (Chat.ApiFailed "Not Found");
      Chat.Sent (RString "未能获取到该推文的任何内容。") ]
  /\ trace (Chat.inner (snd (Gen1.resolveAndSend Script.ctx (Script.config None)
                               (Room.session "" false) "https://x.com/bob/status/2"
                               Room.start)))
     = [CallScreenshot "https://x.com/bob/status/2";
        CallApi "https://api.vxtwitter.com/bob/status/2"].
Proof.
  exact (first_plugin_fetch_failure Script.ctx (Script.config None) (Room.session "" false)
           Room.start "https://x.com/bob/status/2"
           (Some (h_image Script.png "image/png"))
           (record (CallScreenshot "https://x.com/bob/status/2") (Script.start ∅))
           "Not Found" tt eq_refl eq_refl).
Defined.

Lemma filter_elements media :
  List.filter fragment_truthy (map FElem media) = map FElem media.
Proof. induction media as [| m media IH]; [reflexivity |]. cbn. now rewrite IH. Qed.

Lemma gen1_metadataText_truthy config apiResponse :
  Forall (fun t => Js.truthy t = true) (Gen1.metadataText config apiResponse).
Proof.
  unfold Gen1.metadataText. apply Forall_app. split.
  - destruct (nonempty (user_screen_name apiResponse)); repeat constructor.
  - destruct (nonempty (text apiResponse)); [| constructor].
    destruct (cfg_sendText config); repeat constructor.
Qed.

(** X15.  The first plugin and the current one compose the same message.
    From the lines the first plugin writes for a response and any media, as
    long as there is something to send, the message the first plugin builds
    is the one [processTweet] builds from the same parts with the options of a
    manual parse: the same figure on [onebot] with forwarding, the same
    joined string otherwise.  (With nothing to send the two notices differ.) *)
Theorem first_plugin_composes_alike {W : Type} (ctx : Collab W) (config : Config)
    (session : Session.t W) (apiResponse : ApiResponse) (media : list h) :
  Gen1.metadataText config apiResponse <> [] \/ media <> [] ->
  Gen1.compose ctx config session (Gen1.metadataText config apiResponse) media
  = compose ctx (parseOptions config (Session.platform session))
      (Gen1.metadataText config apiResponse) media.
Proof.
  intros Hsome. pose proof (gen1_metadataText_truthy config apiResponse) as Htexts.
  destruct (Gen1.metadataText config apiResponse) as [| t texts].
  - destruct media as [| m media]; [now destruct Hsome |].
    unfold Gen1.compose, compose.
    cbn [length Nat.ltb Nat.leb negb andb app parseOptions useForward platform
           Js.join String.concat List.filter fragment_truthy Js.truthy].
    rewrite filter_elements.
    rewrite (bool_decide_ext (Some (Session.platform session) = Some "onebot")
               (Session.platform session = "onebot")) by (split; congruence).
    reflexivity.
  - apply Forall_cons in Htexts as [Ht _].
    unfold Gen1.compose, compose.
    cbn [length Nat.ltb Nat.leb negb andb app parseOptions useForward platform
           List.filter fragment_truthy].
    rewrite (join_head_truthy Js.LF t texts Ht), filter_elements.
    rewrite (bool_decide_ext (Some (Session.platform session) = Some "onebot")
               (Session.platform session = "onebot")) by (split; congruence).
    destruct media; reflexivity.
Qed.

Lemma first_plugin_composes_alike_witness :
  Gen1.compose Script.ctx (Script.config None) (Room.session "" false)
    (Gen1.metadataText (Script.config None)
       {| user_screen_name := Some "alice"; text := Some "hello"; media_extended := None |})
    [h_image Script.jpg "image/jpeg"]
  = compose Script.ctx (parseOptions (Script.config None) "onebot")
      (Gen1.metadataText (Script.config None)
         {| user_screen_name := Some "alice"; text := Some "hello"; media_extended := None |})
      [h_image Script.jpg "image/jpeg"].
Proof.
  apply (first_plugin_composes_alike Script.ctx (Script.config None) (Room.session "" false)).
  left. discriminate.
Defined.

(** ** The stepper *)

Lemma logs_numbered config calls : forall stepper,
  Stepper.logs config stepper calls
  = if logDetails config
    then ({| Stepper.prefix := Stepper.prefix stepper;
             Stepper.step := Stepper.step stepper + length calls |},
          imap (fun i call =>
                  Stepper.numbered (Stepper.prefix stepper) (Stepper.step stepper + i) call)
            calls)
    else (stepper, []).
Proof.
  induction calls as [| [message isWarning] rest IH]; intros stepper.
  - cbn. destruct (logDetails config); [| reflexivity].
    rewrite Nat.add_0_r. now destruct stepper.
  - cbn [Stepper.logs]. unfold Stepper.log.
    destruct (logDetails config) eqn:Hdetails.
    + rewrite IH. cbn [Stepper.prefix Stepper.step length imap app].
      rewrite Nat.add_0_r, Nat.add_succ_r. f_equal. f_equal.
      apply imap_ext. intros i call _. cbn. now rewrite Nat.add_succ_r.
    + rewrite IH. reflexivity.
Qed.

(** X16.  The diagnostic lines of one operation are numbered from one, without
    a gap, in the order of the calls, each with the prefix of the operation;
    a line is a warning exactly when the call asked for one.  With
    [logDetails] off the stepper writes nothing and its counter does not
    move. *)
Theorem stepper_numbers_from_one (config : Config) (prefix : string)
    (calls : list (string * bool)) :
  Stepper.logs config (Stepper.createLogStepper prefix) calls
  = if logDetails config
    then ({| Stepper.prefix := prefix; Stepper.step := S (length calls) |},
          imap (fun i call => Stepper.numbered prefix (S i) call) calls)
    else (Stepper.createLogStepper prefix, []).
Proof. apply logs_numbered. Qed.

(** ** Reposts *)

Lemma eligible_weaker article :
  eligible true article = true -> eligible false article = true.
Proof.
  unfold eligible. destruct (socialContext article) as [contextText |]; [| auto].
  destruct (is_pinned contextText); [discriminate | reflexivity].
Qed.

Lemma evaluate_weaker articles :
  is_Some (evaluate true articles) -> is_Some (evaluate false articles).
Proof.
  rewrite !evaluate_first.
  induction articles as [| article rest IH]; cbn [List.filter]; [auto |].
  destruct (eligible true article) eqn:Hstrict.
  - rewrite (eligible_weaker _ Hstrict). cbn [omap list_omap].
    destruct (status_link article); [eauto | exact IH].
  - intros Hrest. specialize (IH Hrest).
    destruct (eligible false article); [| exact IH].
    cbn [omap list_omap]. destruct (status_link article); [eauto | exact IH].
Qed.

(** X17.  Letting reposts through never loses a tweet: from the same state,
    when the discovery with reposts excluded finds a link, the discovery with
    reposts allowed finds one too, with the same visit of the page and no
    warning. *)
Theorem allowing_reposts_finds_no_less {W : Type} (ctx : Collab W)
    (user cookie : string) (s s1 : St W) (latestTweetUrl : string) :
  getLatestTweetUrlByPuppeteer ctx user cookie true s = (Ok (Some latestTweetUrl), s1) ->
  exists other,
    getLatestTweetUrlByPuppeteer ctx user cookie false s = (Ok (Some other), s1).
Proof.
  unfold getLatestTweetUrlByPuppeteer, bind, call.
  destruct (puppeteer_articles ctx user cookie (world s)) as [[articles | error] w];
    [| discriminate].
  rewrite !nonempty_evaluate.
  destruct (evaluate true articles) as [link |] eqn:Hstrict; [| discriminate].
  intros [= <- <-].
  destruct (evaluate_weaker articles) as (other & ->); [rewrite Hstrict; eauto |].
  now exists other.
Qed.

Lemma allowing_reposts_finds_no_less_witness :
  exists other,
    getLatestTweetUrlByPuppeteer Script.ctx "alice" "" false (Script.start ∅)
    = (Ok (Some other), record (CallPage "alice") (Script.start ∅)).
Proof.
  exact (allowing_reposts_finds_no_less Script.ctx "alice" "" (Script.start ∅)
           (record (CallPage "alice") (Script.start ∅)) "https://x.com/alice/status/3"
           eq_refl).
Defined.

(** ** A cycle with nothing new *)

Section Idle.

Context {W : Type}.
Variable ctx : Collab W.
Variable config : Config.
Variable table : gmap string string.

Lemma discovery_idle user excludeRetweets (s : St W) r s' :
  getLatestTweetUrlByPuppeteer ctx user (cookie config) excludeRetweets s = (r, s') ->
  db s' = db s
  /\ exists events, trace s' = trace s ++ events /\ Forall Footprint.idle_event events.
Proof.
  intros E. apply getLatest_sound in E as (Hdb & events & Htrace & Hall).
  split; [exact Hdb |]. exists events. split; [exact Htrace |].
  eapply Forall_impl; [exact Hall |].
  intros [] He; try exact I; try contradiction. destruct line; try exact I; contradiction.
Qed.

Lemma entry_idle bot sub (f f' : PollFrame W) :
  (forall s s1 latestTweetUrl,
     getLatestTweetUrlByPuppeteer ctx (username sub) (cookie config)
       (default true (excludeRetweets sub)) s = (Ok (Some latestTweetUrl), s1) ->
     table !! username sub = Some latestTweetUrl) ->
  db (heap f) = table ->
  EntryRun ctx config bot false sub f f' ->
  db (heap f') = table
  /\ updatesFound f' = updatesFound f
  /\ exists events, trace (heap f') = trace (heap f) ++ events
                    /\ Forall Footprint.idle_event events.
Proof.
  intros Hshown Htable Hrun.
  destruct Hrun as [ Hbad
    | error s1 _ Hfind
    | s1 _ Hfind
    | url s1 _ Hfind Hpush
    | url s1 messageToSend s2 s3 _ Hfind Hpush Hresolve Hsend
    | url s1 messageToSend s2 error s3 _ Hfind Hpush Hresolve Hsend ];
    cbn [heap updatesFound db trace record].
  1: { split; [exact Htable |]. split; [reflexivity |].
       exists []. split; [now rewrite app_nil_r | constructor]. }
  all: pose proof (discovery_idle _ _ _ _ _ Hfind) as (Hdb1 & ev1 & Ht1 & Hall1).
  - split; [congruence |]. split; [reflexivity |].
    exists (ev1 ++ [Logged (WarnCheck (username sub) error); CallSleep (3 * Time_second)]).
    split; [rewrite Ht1, <- !app_assoc; reflexivity |].
    apply Forall_app. split; [exact Hall1 | repeat constructor].
  - split; [congruence |]. split; [reflexivity |].
    exists (ev1 ++ [CallSleep (3 * Time_second)]).
    split; [rewrite Ht1, <- !app_assoc; reflexivity |].
    apply Forall_app. split; [exact Hall1 | repeat constructor].
  - split; [congruence |]. split; [reflexivity |].
    exists (ev1 ++ [CallSleep (3 * Time_second)]).
    split; [rewrite Ht1, <- !app_assoc; reflexivity |].
    apply Forall_app. split; [exact Hall1 | repeat constructor].
  - exfalso. pose proof (getLatest_truthy _ _ _ _ _ _ _ Hfind) as Htruthy.
    rewrite (shouldPush_spec _ _ _ Htruthy), Hdb1, Htable, (Hshown _ _ _ Hfind),
      (isNew_same _ Htruthy) in Hpush. discriminate.
  - exfalso. pose proof (getLatest_truthy _ _ _ _ _ _ _ Hfind) as Htruthy.
    rewrite (shouldPush_spec _ _ _ Htruthy), Hdb1, Htable, (Hshown _ _ _ Hfind),
      (isNew_same _ Htruthy) in Hpush. discriminate.
Qed.

Lemma cycle_idle bot subs (f f' : PollFrame W) :
  CycleRun ctx config bot false subs f f' ->
  (forall sub s s1 latestTweetUrl,
     In sub subs ->
     getLatestTweetUrlByPuppeteer ctx (username sub) (cookie config)
       (default true (excludeRetweets sub)) s = (Ok (Some latestTweetUrl), s1) ->
     table !! username sub = Some latestTweetUrl) ->
  db (heap f) = table ->
  db (heap f') = table
  /\ updatesFound f' = updatesFound f
  /\ exists events, trace (heap f') = trace (heap f) ++ events
                    /\ Forall Footprint.idle_event events.
Proof.
  induction 1 as [f | sub rest f f1 f2 Hentry _ IH]; intros Hshown Htable.
  - split; [exact Htable |]. split; [reflexivity |].
    exists []. split; [now rewrite app_nil_r | constructor].
  - destruct (entry_idle _ _ _ _ (fun s s1 url => Hshown sub s s1 url (or_introl eq_refl))
                Htable Hentry) as (Htable1 & Hcount1 & ev1 & Ht1 & Hall1).
    destruct (IH (fun sub0 s s1 url Hin => Hshown sub0 s s1 url (or_intror Hin)) Htable1)
      as (Htable2 & Hcount2 & ev2 & Ht2 & Hall2).
    split; [exact Htable2 |]. split; [congruence |].
    exists (ev1 ++ ev2). split; [now rewrite Ht2, Ht1, app_assoc | now apply Forall_app].
Qed.

End Idle.

(** X18.  A scheduled cycle with nothing new is silent.  When, for every
    configured subscription, the link the profile page shows is the link the
    table already has, a scheduled call of [checkAndPushUpdates] returns no
    value, leaves the table as it was, and does nothing but visit the pages,
    pause and log warnings: no tweet is resolved and no message is sent to any
    group. *)
Theorem idle_cycle_is_silent {W : Type} (ctx : Collab W) (config : Config) (s : St W) :
  (forall settings sub s0 s1 latestTweetUrl,
     enableSubscription config = Some settings ->
     In sub (subscriptions settings) ->
     getLatestTweetUrlByPuppeteer ctx (username sub) (cookie config)
       (default true (excludeRetweets sub)) s0 = (Ok (Some latestTweetUrl), s1) ->
     db s !! username sub = Some latestTweetUrl) ->
  exists s' events,
    checkAndPushUpdates ctx config false s = (Ok None, s')
    /\ db s' = db s
    /\ trace s' = trace s ++ events
    /\ Forall Footprint.idle_event events
    /\ List.filter Footprint.is_dispatch events = []
    /\ List.filter Footprint.is_request events = []
    /\ pushes events = 0.
Proof.
  intros Hshown.
  assert (Hclass : forall events, Forall Footprint.idle_event events ->
             List.filter Footprint.is_dispatch events = []
             /\ List.filter Footprint.is_request events = []
             /\ pushes events = 0).
  { intros events Hall. split; [| split].
    - eapply filter_none; [| exact Hall]. intros [] He; try reflexivity; contradiction.
    - eapply filter_none; [| exact Hall]. intros [] He; try reflexivity; contradiction.
    - eapply pushes_none; [| exact Hall].
      intros [] He; try reflexivity; try contradiction.
      destruct line; try reflexivity; contradiction. }
  assert (Hskip : forall botKey,
             exists s' events,
               skipCycle botKey false s = (Ok None, s')
               /\ db s' = db s
               /\ trace s' = trace s ++ events
               /\ Forall Footprint.idle_event events
               /\ List.filter Footprint.is_dispatch events = []
               /\ List.filter Footprint.is_request events = []
               /\ pushes events = 0).
  { intros botKey. exists (record (Logged (WarnBotOffline botKey)) s),
      [Logged (WarnBotOffline botKey)].
    repeat split. repeat constructor. }
  unfold checkAndPushUpdates.
  destruct (enableSubscription config) as [settings |] eqn:Henabled.
  2: { exists s, []. rewrite app_nil_r. repeat split. constructor. }
  unfold bind, get_bot.
  destruct (bots ctx _ (world s)) as [bot |]; [| apply Hskip].
  destruct (online bot); cbn [negb]; [| apply Hskip].
  destruct (pollAll_run ctx config bot false (subscriptions settings)
              {| heap := s; updatesFound := 0 |}) as (f' & Hrun & Hcycle).
  destruct (cycle_idle ctx config (db s) bot _ _ _ Hcycle
              (fun sub s0 s1 url Hin => Hshown settings sub s0 s1 url eq_refl Hin) eq_refl)
    as (Htable & _ & events & Htrace & Hall).
  cbn [heap] in Htrace. rewrite Hrun.
  exists (heap f'), events. destruct (Hclass _ Hall) as (Hd & Hr & Hp). auto 10.
Qed.

Lemma idle_cycle_is_silent_witness :
  exists s' events,
    checkAndPushUpdates Script.ctx (Rounds.config [Runs.alice]) false (Script.start Runs.seen)
    = (Ok None, s')
    /\ db s' = Runs.seen
    /\ trace s' = events
    /\ Forall Footprint.idle_event events
    /\ List.filter Footprint.is_dispatch events = []
    /\ List.filter Footprint.is_request events = []
    /\ pushes events = 0.
Proof.
  apply (idle_cycle_is_silent Script.ctx (Rounds.config [Runs.alice])
           (Script.start Runs.seen)).
  intros settings sub s0 s1 latestTweetUrl [= <-] [<- | []].
  unfold getLatestTweetUrlByPuppeteer, bind, call. cbn.
  intros [= <- _]. reflexivity.
Defined.

(** ** The media of the first plugin *)

Lemma gen1_mimeType_truthy media file : Js.truthy (Gen1.mimeType media file) = true.
Proof.
  unfold Gen1.mimeType. destruct (Js.truthy (mime file)) eqn:E; [exact E |].
  now destruct (bool_decide _).
Qed.

(** X19.  The loop over the media of the first plugin never throws, asks for
    every file once and in order, and every element it adds carries a mime
    type that is not empty: the type the server gave, or, when it gave none,
    the one guessed from the kind of the media. *)
Theorem first_plugin_media_have_a_type {W : Type} (ctx : Collab W)
    (medias : list Media) (mediaParts : list h) (s : St W) :
  Forall (fun e => Js.truthy (Footprint.h_mime e) = true) mediaParts ->
  exists elements s',
    Gen1.downloadMedia ctx medias mediaParts s = (Ok elements, s')
    /\ Forall (fun e => Js.truthy (Footprint.h_mime e) = true) elements
    /\ db s' = db s
    /\ trace s' = trace s ++ map (fun media => CallFile (url media)) medias.
Proof.
  revert mediaParts s. induction medias as [| media rest IH]; intros mediaParts s Hparts.
  - exists mediaParts, s. cbn. now rewrite app_nil_r.
  - cbn [Gen1.downloadMedia map]. unfold bind at 1, try_catch, bind at 1, call.
    destruct (http_file ctx (url media) (world s)) as [[file | error] w].
    + unfold Gen1.media_element.
      destruct (bool_decide (type media = "image"));
        [| destruct (bool_decide (type media = "video"))]; cbn [ret].
      * destruct (IH (mediaParts ++ [h_image (data file) (Gen1.mimeType media file)])
                    (record (CallFile (url media)) (at_world w s)))
          as (elements & s' & -> & Hall & Hdb & Htrace).
        { apply Forall_app. split; [exact Hparts |].
          repeat constructor. apply gen1_mimeType_truthy. }
        exists elements, s'. cbn [trace db record at_world] in Htrace, Hdb.
        rewrite Htrace, <- app_assoc. auto.
      * destruct (IH (mediaParts ++ [h_video (data file) (Gen1.mimeType media file)])
                    (record (CallFile (url media)) (at_world w s)))
          as (elements & s' & -> & Hall & Hdb & Htrace).
        { apply Forall_app. split; [exact Hparts |].
          repeat constructor. apply gen1_mimeType_truthy. }
        exists elements, s'. cbn [trace db record at_world] in Htrace, Hdb.
        rewrite Htrace, <- app_assoc. auto.
      * destruct (IH mediaParts (record (CallFile (url media)) (at_world w s)) Hparts)
          as (elements & s' & -> & Hall & Hdb & Htrace).
        exists elements, s'. cbn [trace db record at_world] in Htrace, Hdb.
        rewrite Htrace, <- app_assoc. auto.
    + cbn [ret].
      destruct (IH mediaParts (record (CallFile (url media)) (at_world w s)) Hparts)
        as (elements & s' & -> & Hall & Hdb & Htrace).
      exists elements, s'. cbn [trace db record at_world] in Htrace, Hdb.
      rewrite Htrace, <- app_assoc. auto.
Qed.

Lemma first_plugin_media_have_a_type_witness :
  exists elements s',
    Gen1.downloadMedia Script.ctx
      [ {| url := "https://m/1.jpg"; type := "image" |};
        {| url := "https://m/2.jpg"; type := "image" |};
        {| url := "https://m/3.mp4"; type := "video" |} ]
      [h_image Script.png "image/png"] (Script.start ∅) = (Ok elements, s')
    /\ Forall (fun e => Js.truthy (Footprint.h_mime e) = true) elements
    /\ db s' = ∅
    /\ trace s' = [CallFile "https://m/1.jpg"; CallFile "https://m/2.jpg";
                   CallFile "https://m/3.mp4"].
Proof.
  apply (first_plugin_media_have_a_type Script.ctx
           [ {| url := "https://m/1.jpg"; type := "image" |};
             {| url := "https://m/2.jpg"; type := "image" |};
             {| url := "https://m/3.mp4"; type := "video" |} ]
           [h_image Script.png "image/png"] (Script.start ∅)).
  repeat constructor.
Defined.

(** ** The plugin of [src/index.ts] and the current one *)

Section Generations.

Context {W : Type}.
Variable ctx : Collab W.
Variable config : Config.

Lemma untranslated_metadataText options apiResponse textParts (s : St W) :
  metadataText ctx (Footprint.untranslated options) apiResponse textParts s
  = (Ok (IndexTs.metadataText options apiResponse textParts), s).
Proof.
  unfold metadataText, IndexTs.metadataText.
  cbn [Footprint.untranslated sendText enableTranslation Js.truthy_flag].
  destruct (text apiResponse) as [body |]; cbn [nonempty].
  - destruct (Js.truthy body) eqn:Hbody; cbn.
    + rewrite Hbody, andb_true_r. now destruct (sendText options).
    + now rewrite andb_false_r.
  - cbn. now rewrite andb_false_r.
Qed.

Lemma no_gif_same_element media file :
  type media <> "gif" -> Legacy.media_element media file = media_element media file.
Proof.
  intros Hgif. unfold Legacy.media_element, media_element.
  destruct (bool_decide (type media = "image")); [reflexivity |].
  now rewrite (bool_decide_eq_false_2 (type media = "gif")), orb_false_r.
Qed.

Lemma no_gif_same_downloads medias : forall mediaParts (s : St W),
  Forall (fun media => type media <> "gif") medias ->
  IndexTs.downloadMedia ctx medias mediaParts s = downloadMedia ctx medias mediaParts s.
Proof.
  induction medias as [| media rest IH]; intros mediaParts s Hall; [reflexivity |].
  apply Forall_cons in Hall as [Hgif Hrest].
  cbn [IndexTs.downloadMedia downloadMedia]. unfold bind at 1 3, try_catch, bind, call.
  destruct (http_file ctx (url media) (world s)) as [[file | error] w].
  - rewrite (no_gif_same_element _ file Hgif).
    destruct (media_element media file); cbn [ret]; now apply IH.
  - cbn [ret]. now apply IH.
Qed.

End Generations.




(** X20.  The current plugin resolves a tweet as the plugin of [src/index.ts]
    did, translation and animated pictures apart.  As long as the metadata
    service describes no media of type [gif], [processTweet] of
    [src/index.ts] and the current [processTweet] with translation switched
    off return the same reply from the same state and leave the same state
    behind. *)
Theorem current_plugin_extends_index_ts {W : Type} (ctx : Collab W) (config : Config)
    (tweetUrl : string) (options : Options) (s : St W) :
  (forall apiUrl w apiResponse w' medias,
     http_get ctx apiUrl w = (Ok apiResponse, w') ->
     media_extended apiResponse = Some medias ->
     Forall (fun media => type media <> "gif") medias) ->
  IndexTs.processTweet ctx config tweetUrl options s
  = processTweet ctx config tweetUrl (Footprint.untranslated options) s.
Proof.
  intros Hgif. unfold IndexTs.processTweet, processTweet.
  change (seedLink tweetUrl (Footprint.untranslated options))
    with (seedLink tweetUrl options).
  change (captureScreenshot ctx config tweetUrl (Footprint.untranslated options))
    with (captureScreenshot ctx config tweetUrl options).
  unfold bind, try_catch.
  destruct (captureScreenshot ctx config tweetUrl options s) as [[element | error] s0];
    [| reflexivity].
  assert (Hcollect : IndexTs.collect ctx tweetUrl options (seedLink tweetUrl options) element s0
                     = collect ctx tweetUrl (Footprint.untranslated options)
                         (seedLink tweetUrl options) element s0).
  { unfold IndexTs.collect, collect, bind, call.
    destruct (http_get ctx _ (world s0)) as [[apiResponse | error] w] eqn:Hget;
      [| reflexivity].
    rewrite untranslated_metadataText. cbn [Footprint.untranslated sendMedia].
    destruct (media_extended apiResponse) as [medias |] eqn:Hmedia; [| reflexivity].
    destruct (sendMedia options); [| reflexivity].
    now rewrite (no_gif_same_downloads ctx medias _ _ (Hgif _ _ _ _ _ Hget Hmedia)). }
  rewrite Hcollect.
  destruct (collect ctx tweetUrl (Footprint.untranslated options)
              (seedLink tweetUrl options) element s0) as [[parts | error] s1]; reflexivity.
Qed.

Lemma current_plugin_extends_index_ts_witness :
  IndexTs.processTweet Script.ctx (Script.config None) "https://x.com/alice/status/3"
    (pushOptions (Script.config None) "onebot") (Script.start ∅)
  = processTweet Script.ctx (Script.config None) "https://x.com/alice/status/3"
      (Footprint.untranslated (pushOptions (Script.config None) "onebot")) (Script.start ∅).
Proof.
  apply (current_plugin_extends_index_ts Script.ctx (Script.config None)
           "https://x.com/alice/status/3" (pushOptions (Script.config None) "onebot")
           (Script.start ∅)).
  intros apiUrl w apiResponse w' medias. cbn [Script.ctx http_get]. unfold Script.api.
  destruct (bool_decide _); [| destruct (bool_decide _)].
  - intros [= <- _] [= <-]. repeat constructor; discriminate.
  - intros [= <- _] [= <-]. repeat constructor; discriminate.
  - discriminate.
Defined.
